(** * Schema exporter: [scripts/extract_schema.py]

    A shallow embedding of the script's two functions,
    [simplify_schema_for_llm] and [extract_schemas], together with the
    module-level import guard and the [__main__] block, and the properties
    the specification states about them.

    Conventions of the embedding.
    - A schema document is a JSON tree.  A Python [dict] is an association
      list in insertion order (its keys are pairwise distinct, see
      [wf_json]); a Python [list] is a list.
    - A character of a [string] stands for one code point, so that
      [String.length] is Python's [len] on [str].
    - A raised exception is the [Raise] outcome of the [result] monad; the
      first exception in evaluation order wins.
    - [simplify_schema_for_llm] mutates its argument and returns it.  The
      documents it receives are trees built afresh by every export call, so
      no object is reachable twice and the mutation is faithfully rendered
      by a function from the old value to the new one.
    - [print] encodes its text for stdout before it writes anything: on a
      stdout whose encoding lacks a character of the line it raises
      UnicodeEncodeError and prints nothing.  What stdout takes is part of
      the surroundings of a run ([env]), and so is the outcome of the
      flush of stdout as the interpreter exits, which decides the exit
      status.  What is printed stays in the buffer of stdout until that
      flush; an error of the device in the middle of a run is not
      modelled. *)

From stdpp Require Import gmap strings list.
From Stdlib Require Import ZArith Lia.

Set Warnings "-register-all,-clear-no-such-hyp".

(** ** Python values and builtins *)

Inductive exn : Type :=
| TypeError_no_len
    (* len() of None, a bool or a number *)
| TypeError_not_subscriptable
    (* x[:3] where x is None, a bool or a number *)
| Slice_of_dict
    (* d[:3] on a dict: TypeError (unhashable slice) up to Python 3.11,
       KeyError from 3.12 on *)
| KeyError (key : string)
    (* d[key] on a dict without that key *)
| RecursionError
    (* the interpreter's call stack is exhausted *)
| LibraryError (msg : string)
    (* an exception raised inside the model library's export *)
| OSError (msg : string)
    (* a failed directory creation or file operation *)
| UnicodeEncodeError.
    (* print of a text the encoding of stdout cannot represent *)

Inductive result (A : Type) : Type :=
| Ok (a : A)
| Raise (e : exn).
Arguments Ok {A} a.
Arguments Raise {A} e.

#[global] Instance result_ret : MRet result := λ A a, Ok a.
#[global] Instance result_bind : MBind result := λ A B f m,
  match m with Ok a => f a | Raise e => Raise e end.
#[global] Instance result_fmap : FMap result := λ A B f m,
  match m with Ok a => Ok (f a) | Raise e => Raise e end.

Definition raises {A} (m : result A) : Prop := ∃ e, m = Raise e.
Definition returns {A} (m : result A) : Prop := ∃ a, m = Ok a.

Inductive json : Type :=
| JNull
| JBool (b : bool)
| JInt (n : Z)
| JFloat (bits : Z)                 (* a float, by its IEEE-754 bit pattern *)
| JStr (s : string)
| JArr (l : list json)
| JObj (d : list (string * json)).

Abbreviation dict V := (list (string * V)) (only parsing).

Section dict.
Context {V : Type}.

(* d.get(k) *)
Fixpoint dict_get (k : string) (d : dict V) : option V :=
  match d with
  | [] => None
  | (k', v) :: d' => if decide (k' = k) then Some v else dict_get k d'
  end.

(* k in d *)
Definition dict_mem (k : string) (d : dict V) : bool :=
  match dict_get k d with Some _ => true | None => false end.

(* d.get(k, default) *)
Definition dict_get_or (k : string) (default : V) (d : dict V) : V :=
  match dict_get k d with Some v => v | None => default end.

(* del d[k] *)
Definition dict_del (k : string) (d : dict V) : dict V :=
  filter (λ kv, kv.1 ≠ k) d.

(* d[k] = v : in place when the key is present, appended otherwise *)
Fixpoint dict_set (k : string) (v : V) (d : dict V) : dict V :=
  match d with
  | [] => [(k, v)]
  | (k', v') :: d' =>
      if decide (k' = k) then (k, v) :: d' else (k', v') :: dict_set k v d'
  end.

(* list(d.keys()) *)
Definition dict_keys (d : dict V) : list string := d.*1.
End dict.

(* len(x) *)
Definition len (x : json) : result nat :=
  match x with
  | JStr s => Ok (String.length s)
  | JArr l => Ok (length l)
  | JObj d => Ok (length d)
  | _ => Raise TypeError_no_len
  end.

(* x[:n] *)
Definition slice_to (n : nat) (x : json) : result json :=
  match x with
  | JStr s => Ok (JStr (String.substring 0 n s))
  | JArr l => Ok (JArr (take n l))
  | JObj _ => Raise Slice_of_dict
  | _ => Raise TypeError_not_subscriptable
  end.

(* d[k] *)
Definition dict_getitem {V} (k : string) (d : dict V) : result V :=
  match dict_get k d with Some v => Ok v | None => Raise (KeyError k) end.

(** ** [simplify_schema_for_llm] *)

(* if 'pattern' in schema and len(schema.get('pattern', '')) > 50:
       del schema['pattern'] *)
Definition drop_long_pattern (schema : dict json) : result (dict json) :=
  if dict_mem "pattern" schema then
    n ← len (dict_get_or "pattern" (JStr "") schema);
    if (50 <? n)%nat then mret (dict_del "pattern" schema) else mret schema
  else mret schema.

(* if 'anyOf' in schema and len(schema['anyOf']) > 5:
       schema['anyOf'] = schema['anyOf'][:3] *)
Definition truncate_anyOf (schema : dict json) : result (dict json) :=
  if dict_mem "anyOf" schema then
    a ← dict_getitem "anyOf" schema;
    n ← len a;
    if (5 <? n)%nat then
      a ← dict_getitem "anyOf" schema;
      a' ← slice_to 3 a;
      mret (dict_set "anyOf" a' schema)
    else mret schema
  else mret schema.

(* simplify_schema_for_llm(item) if isinstance(item, dict) else item *)
Definition simplify_item (rec : json → result json) (item : json)
  : result json :=
  match item with
  | JObj _ => rec item
  | _ => mret item
  end.

(* the body of the loop over schema.items(): the new schema[key] *)
Definition simplify_value (rec : json → result json) (value : json)
  : result json :=
  match value with
  | JObj _ => rec value
  | JArr l => JArr <$> mapM (simplify_item rec) l
  | _ => mret value
  end.

(* for key, value in schema.items(): schema[key] = ... *)
Definition simplify_entries (rec : json → result json) (schema : dict json)
  : result (dict json) :=
  mapM (λ kv, value' ← simplify_value rec kv.2; mret (kv.1, value')) schema.

(* One activation of the function, with [rec] standing for the recursive
   calls it makes. *)
Definition simplify_body (rec : json → result json) (schema : json)
  : result json :=
  match schema with
  | JObj d =>
      d1 ← drop_long_pattern d;
      d2 ← truncate_anyOf d1;
      d3 ← simplify_entries rec d2;
      mret (JObj d3)
  | _ => mret schema
  end.

(* The function run on a call stack with room for [depth] nested
   activations. *)
Fixpoint simplify_upto (depth : nat) (schema : json) : result json :=
  match depth with
  | 0 => Raise RecursionError
  | S depth' => simplify_body (simplify_upto depth') schema
  end.

(* The number of nodes of a document; it bounds the nesting of calls. *)
Fixpoint size (x : json) : nat :=
  match x with
  | JArr l => S (sum_list (size <$> l))
  | JObj d => S (sum_list ((λ kv, size kv.2) <$> d))
  | _ => 1
  end.

(* The function itself: the call stack never runs out (see
   [simplify_upto_enough] and [simplify_schema_for_llm_eq]). *)
Definition simplify_schema_for_llm (schema : json) : result json :=
  simplify_upto (size schema) schema.

(** ** Positions in a document *)

Inductive step : Type :=
| Key (k : string)                  (* x[k] of a mapping *)
| Idx (i : nat).                    (* x[i] of a sequence *)

Fixpoint node_at (p : list step) (x : json) : option json :=
  match p with
  | [] => Some x
  | Key k :: p' =>
      match x with JObj d => v ← dict_get k d; node_at p' v | _ => None end
  | Idx i :: p' =>
      match x with JArr l => v ← l !! i; node_at p' v | _ => None end
  end.

(* The positions the recursion can get to: from a mapping to the value
   under a key, and from such a value, when it is a sequence, to one of its
   elements; never from a sequence into a sequence. *)
Fixpoint reached_from (in_list : bool) (p : list step) : bool :=
  match p with
  | [] => true
  | Key _ :: p' => reached_from false p'
  | Idx _ :: p' => if in_list then false else reached_from true p'
  end.
Definition reached (p : list step) : bool := reached_from true p.

(* Every mapping has pairwise distinct keys, as a Python dict has. *)
Fixpoint wf_json (x : json) : Prop :=
  match x with
  | JArr l => foldr (λ y P, wf_json y ∧ P) True l
  | JObj d => NoDup d.*1 ∧ foldr (λ kv P, wf_json kv.2 ∧ P) True d
  | _ => True
  end.

(** ** Where the recursion arrives, and documents it accepts *)

(* [visits x n]: a run on [x] that no exception stops before calls the
   function on [n].  The calls are those of the loop, made on what rules 1
   and 2 have left of the mapping. *)
Inductive visits : json → json → Prop :=
| visits_here x : visits x x
| visits_value d d1 d2 k e n :
    drop_long_pattern d = Ok d1 → truncate_anyOf d1 = Ok d2 →
    (k, JObj e) ∈ d2 → visits (JObj e) n → visits (JObj d) n
| visits_item d d1 d2 k l e n :
    drop_long_pattern d = Ok d1 → truncate_anyOf d1 = Ok d2 →
    (k, JArr l) ∈ d2 → JObj e ∈ l → visits (JObj e) n → visits (JObj d) n.

Definition is_str_or_absent (o : option json) : bool :=
  match o with Some (JStr _) | None => true | Some _ => false end.

Definition is_list_or_absent (o : option json) : bool :=
  match o with Some (JArr _) | None => true | Some _ => false end.

(* Every 'pattern' value of the document is a string. *)
Fixpoint patterns_are_strings (x : json) : bool :=
  match x with
  | JArr l => forallb patterns_are_strings l
  | JObj d =>
      is_str_or_absent (dict_get "pattern" d)
      && forallb (λ kv, patterns_are_strings kv.2) d
  | _ => true
  end.

(* Every 'pattern' value is a string and every 'anyOf' value a list. *)
Fixpoint well_typed (x : json) : bool :=
  match x with
  | JArr l => forallb well_typed l
  | JObj d =>
      is_str_or_absent (dict_get "pattern" d)
      && is_list_or_absent (dict_get "anyOf" d)
      && forallb (λ kv, well_typed kv.2) d
  | _ => true
  end.

(** ** Documents within the thresholds *)

(* len(x) <= n for the value under a key, when the key is there *)
Definition len_at_most (n : nat) (o : option json) : bool :=
  match o with
  | None => true
  | Some x => match len x with Ok m => (m <=? n)%nat | Raise _ => false end
  end.

(* At every mapping the recursion arrives at, what is under 'pattern' has at
   most 50 elements and what is under 'anyOf' at most 5: neither test of
   the function succeeds anywhere. *)
Fixpoint settled (x : json) : bool :=
  match x with
  | JObj d =>
      len_at_most 50 (dict_get "pattern" d)
      && len_at_most 5 (dict_get "anyOf" d)
      && forallb
           (λ kv, match kv.2 with
                  | JObj _ => settled kv.2
                  | JArr l =>
                      forallb (λ item, match item with
                                       | JObj _ => settled item
                                       | _ => true
                                       end) l
                  | _ => true
                  end) d
  | _ => true
  end.

(* neither a mapping nor a list *)
Definition is_plain (v : json) : bool :=
  match v with JObj _ | JArr _ => false | _ => true end.

(** ** The model library and the outside world *)

(* The classes imported from dandischema.models. *)
Inductive model : Type :=
| Dandiset | Asset | BareAsset | Person | Organization | AssetsSummary
| AccessRequirements | Contributor | ContactPoint | Affiliation
| PropertyValue | Resource | Activity | Project | Session | Equipment
| Software | Agent.

#[global] Instance model_eq_dec : EqDecision model.
Proof. solve_decision. Defined.

(* What a file of the schemas directory holds: a JSON text, given by the
   document it parses to, or a text cut short by an exception. *)
Inductive content : Type :=
| Document (x : json)
| Unfinished.

(* with open(file, 'w') as f: json.dump(x, f, indent=2) *)
Inductive write_outcome : Type :=
| Written
| Not_opened (e : exn)              (* open raised: the file is untouched *)
| Interrupted (e : exn).            (* raised after the file was truncated *)

Inductive line : Type :=
| Msg_imported                      (* Successfully imported DANDI schema models *)
| Msg_import_error (e : string)     (* Error importing DANDI schema: {e} *)
| Msg_install_hint                  (* Please install dandischema: ... *)
| Msg_extracting                    (* Extracting DANDI schemas for LLM use... *)
| Msg_extracted (name : string)     (* U+2713 Extracted schema for {name} *)
| Msg_error (name : string) (e : exn) (* U+2717 Error extracting schema for {name}: {e} *)
| Msg_total (n : nat)               (* U+2713 Extracted {n} schemas to {schemas_dir} *)
| Msg_combined                      (* U+2713 Combined schemas saved to {combined_file} *)
| Msg_complete                      (* Schema extraction complete! *)
| Msg_traceback (e : exn).          (* the interpreter's report of an uncaught exception *)

(* Which of the two marks the script prints the encoding of stdout has:
   U+2713, in the lines of success, of the total and of the combined file,
   and U+2717, in the line of failure.  No codec of Python has U+2717
   without U+2713: utf-8 and the other encodings of all of Unicode have
   both, the JIS X 0213 family has U+2713 alone, and cp1252, latin-1 and
   ascii have neither. *)
Inductive marks : Type := No_marks | Only_check_mark | Both_marks.

Definition has_check (r : marks) : bool :=
  match r with No_marks => false | Only_check_mark | Both_marks => true end.

Definition has_cross (r : marks) : bool :=
  match r with Both_marks => true | No_marks | Only_check_mark => false end.

(* Everything one run depends on and does not decide itself. *)
Record env : Type := {
  import_error : option string;     (* the ImportError of the import, if any *)
  model_json_schema : model → result json;
  mkdir : result unit;              (* schemas_dir.mkdir(parents=True, exist_ok=True) *)
  dump : string → json → write_outcome;
  now_isoformat : string;           (* datetime.now().isoformat() *)
  stdout_marks : marks;             (* the marks the encoding of stdout has *)
  stdout_text : line → bool;        (* whether it has the characters of what the
                                       line quotes: the message of the
                                       exception, the path of the directory *)
  stdout_flush : result unit;       (* the flush of stdout as the interpreter exits *)
}.

Record world : Type := {
  files : gmap string content;      (* the schemas directory, by file name *)
  console : list line;              (* the lines print has taken, and the
                                       tracebacks on stderr *)
}.

(* Code that reads and changes a state and may raise. *)
Definition st (S A : Type) : Type := S → S * result A.

#[global] Instance st_ret {S} : MRet (st S) := λ A a s, (s, Ok a).
#[global] Instance st_bind {S} : MBind (st S) := λ A B f m s,
  match m s with
  | (s', Ok a) => f a s'
  | (s', Raise e) => (s', Raise e)
  end.

(* Code whose state is the world. *)
Abbreviation io := (st world).

(* try: body / except Exception as e: handler(e) *)
Definition try_except {S A} (body : st S A) (handler : exn → st S A)
  : st S A :=
  λ s, match body s with
       | (s', Ok a) => (s', Ok a)
       | (s', Raise e) => handler e s'
       end.

(* a computation without effect on the state *)
Definition lift {S A} (m : result A) : st S A := λ s, (s, m).

(* Whether print takes the line: the text is encoded for stdout before
   anything of it is written.  The fixed words of the messages and the
   names of the registry are ASCII, which every encoding of stdout has. *)
Definition printable (E : env) (l : line) : bool :=
  match l with
  | Msg_imported | Msg_install_hint | Msg_extracting | Msg_complete => true
  | Msg_import_error _ => stdout_text E l
  | Msg_extracted _ => has_check (stdout_marks E)
  | Msg_error _ _ => has_cross (stdout_marks E) && stdout_text E l
  | Msg_total _ | Msg_combined => has_check (stdout_marks E) && stdout_text E l
  | Msg_traceback _ => true
  end.

(* print(l) *)
Definition print (E : env) (l : line) : io unit :=
  λ w, if printable E l
       then ({| files := files w; console := console w ++ [l] |}, Ok ())
       else (w, Raise UnicodeEncodeError).

(* The traceback of an uncaught exception goes to stderr, which replaces
   what it cannot encode. *)
Definition traceback (e : exn) (w : world) : world :=
  {| files := files w; console := console w ++ [Msg_traceback e] |}.

Definition write_json (E : env) (file : string) (x : json) : io unit :=
  λ w, match dump E file x with
       | Written =>
           ({| files := <[file := Document x]> (files w);
               console := console w |}, Ok ())
       | Not_opened e => (w, Raise e)
       | Interrupted e =>
           ({| files := <[file := Unfinished]> (files w);
               console := console w |}, Raise e)
       end.

(* c.lower(), for the code points below 256 *)
Definition lower_char (c : Ascii.ascii) : Ascii.ascii :=
  let n := Ascii.nat_of_ascii c in
  if bool_decide (65 ≤ n ≤ 90 ∨ (192 ≤ n ≤ 222 ∧ n ≠ 215))
  then Ascii.ascii_of_nat (n + 32) else c.

Fixpoint lower (s : string) : string :=
  match s with
  | EmptyString => EmptyString
  | String c s' => String (lower_char c) (lower s')
  end.

(* f'{name.lower()}.schema.json' *)
Definition schema_file (name : string) : string :=
  lower name +:+ ".schema.json".

Definition combined_file : string := "all_schemas.json".
Definition summary_file : string := "schema_summary.json".

(** ** [extract_schemas] *)

Definition models : dict model :=
  [("Dandiset", Dandiset); ("Person", Person);
   ("Organization", Organization); ("Contributor", Contributor);
   ("ContactPoint", ContactPoint); ("Affiliation", Affiliation);
   ("AssetsSummary", AssetsSummary);
   ("AccessRequirements", AccessRequirements);
   ("PropertyValue", PropertyValue); ("Resource", Resource);
   ("Activity", Activity); ("Project", Project); ("Session", Session);
   ("Equipment", Equipment); ("Software", Software); ("Agent", Agent);
   ("Asset", Asset); ("BareAsset", BareAsset)].

(* The state of the body of extract_schemas: the world, and the dictionary
   extracted_schemas, an object the loop updates in place, so that an
   entry stored before an exception is still there in the handler. *)
Definition frame : Type := world * list (string * json).

(* a statement that does not touch extracted_schemas *)
Definition outside {A} (m : io A) : st frame A :=
  λ s, let '(w, r) := m s.1 in ((w, s.2), r).

(* extracted_schemas[name] = x *)
Definition store (name : string) (x : json) : st frame unit :=
  λ s, ((s.1, dict_set name x s.2), Ok ()).

(* the value of extracted_schemas *)
Definition current : st frame (dict json) := λ s, (s, Ok s.2).

(* One turn of the loop: the try statement. *)
Definition extract_one (E : env) (name : string) (model : model)
  : st frame unit :=
  try_except
    (schema ← lift (model_json_schema E model);
     simplified_schema ← lift (simplify_schema_for_llm schema);
     _ ← outside (write_json E (schema_file name) simplified_schema);
     _ ← store name simplified_schema;
     outside (print E (Msg_extracted name)))
    (λ e, outside (print E (Msg_error name e))).

(* for name, model in models.items(): ... *)
Fixpoint extract_loop (E : env) (models : dict model) : st frame unit :=
  match models with
  | [] => mret ()
  | (name, model) :: models' =>
      _ ← extract_one E name model;
      extract_loop E models'
  end.

(* {name: f'{name.lower()}.schema.json' for name in extracted_schemas.keys()} *)
Definition file_locations (names : list string) : dict json :=
  foldl (λ d name, dict_set name (JStr (schema_file name)) d) [] names.

Definition summary (E : env) (extracted_schemas : dict json) : json :=
  JObj [("extracted_at", JStr (now_isoformat E));
        ("total_schemas", JInt (Z.of_nat (length extracted_schemas)));
        ("schema_names", JArr (JStr <$> dict_keys extracted_schemas));
        ("file_locations",
         JObj (file_locations (dict_keys extracted_schemas)))].

Definition extract_schemas_of (E : env) (models : dict model)
  : io (dict json) :=
  λ w,
  let '(s, r) :=
    (_ ← lift (mkdir E);
     _ ← extract_loop E models;
     extracted_schemas ← current;
     _ ← outside (write_json E combined_file (JObj extracted_schemas));
     _ ← outside (print E (Msg_total (length extracted_schemas)));
     _ ← outside (print E Msg_combined);
     _ ← outside (write_json E summary_file (summary E extracted_schemas));
     mret extracted_schemas)
    (w, [])                                     (* extracted_schemas = {} *)
  in (s.1, r).

Definition extract_schemas (E : env) : io (dict json) :=
  extract_schemas_of E models.

(* The try statement for one model up to the write of its file, as a
   value: the simplified schema it stores under the model's name, or the
   exception its except clause receives (from the export, from the
   simplification or from the write). *)
Definition attempt (E : env) (name : string) (model : model) : result json :=
  schema ← model_json_schema E model;
  simplified_schema ← simplify_schema_for_llm schema;
  match dump E (schema_file name) simplified_schema with
  | Written => Ok simplified_schema
  | Not_opened e | Interrupted e => Raise e
  end.

(* The line the try statement has to print for one model. *)
Definition report (E : env) (name : string) (model : model) : line :=
  match attempt E name model with
  | Ok _ => Msg_extracted name
  | Raise e => Msg_error name e
  end.

(* The models whose schema is stored, with their schemas, in the order of
   the registry. *)
Definition successes (E : env) (models : dict model) : dict json :=
  omap (λ nm, match attempt E nm.1 nm.2 with
              | Ok x => Some (nm.1, x)
              | Raise _ => None
              end) models.

(* What a write leaves in its file; [None] when the file is untouched. *)
Definition write_effect (o : write_outcome) (x : json) : option content :=
  match o with
  | Written => Some (Document x)
  | Not_opened _ => None
  | Interrupted _ => Some Unfinished
  end.

(* What the try statement of one model leaves in the file of the model. *)
Definition file_effect (E : env) (name : string) (model : model)
  : option content :=
  match model_json_schema E model ≫= simplify_schema_for_llm with
  | Ok x => write_effect (dump E (schema_file name) x) x
  | Raise _ => None
  end.

(* Whether the turn of a model ends without an exception: stdout takes the
   line it has to print. *)
Definition turn_passes (E : env) (nm : string * model) : bool :=
  printable E (report E nm.1 nm.2).

(* The models whose try statement is entered: those up to the first turn
   that does not pass, that one included. *)
Fixpoint entered (E : env) (ms : list (string * model))
  : list (string * model) :=
  match ms with
  | [] => []
  | nm :: ms' => nm :: (if turn_passes E nm then entered E ms' else [])
  end.

(* What the loop leaves: the files, the lines it printed, the dictionary,
   and whether it came to its end. *)
Fixpoint loop_files (E : env) (ms : list (string * model))
    (fs : gmap string content) : gmap string content :=
  match ms with
  | [] => fs
  | nm :: ms' =>
      let fs' := match file_effect E nm.1 nm.2 with
                 | Some c => <[schema_file nm.1 := c]> fs
                 | None => fs
                 end in
      if turn_passes E nm then loop_files E ms' fs' else fs'
  end.

Fixpoint loop_lines (E : env) (ms : list (string * model)) : list line :=
  match ms with
  | [] => []
  | nm :: ms' =>
      if turn_passes E nm then report E nm.1 nm.2 :: loop_lines E ms' else []
  end.

Fixpoint loop_dict (E : env) (ms : list (string * model))
    (d : list (string * json)) : list (string * json) :=
  match ms with
  | [] => d
  | nm :: ms' =>
      let d' := match attempt E nm.1 nm.2 with
                | Ok x => dict_set nm.1 x d
                | Raise _ => d
                end in
      if turn_passes E nm then loop_dict E ms' d' else d'
  end.

Definition loop_completes (E : env) (ms : list (string * model)) : bool :=
  forallb (turn_passes E) ms.

(* The same surroundings at another time of day. *)
Definition at_time (t : string) (E : env) : env := {|
  import_error := import_error E;
  model_json_schema := model_json_schema E;
  mkdir := mkdir E;
  dump := dump E;
  now_isoformat := t;
  stdout_marks := stdout_marks E;
  stdout_text := stdout_text E;
  stdout_flush := stdout_flush E;
|}.

(* a line of the loop that reports a success *)
Definition is_extracted_line (l : line) : bool :=
  match l with Msg_extracted _ => true | _ => false end.

(* The statements after the loop, with the dictionary the loop has
   filled. *)
Definition after_loop (E : env) (extracted_schemas : dict json)
  : io (dict json) :=
  _ ← write_json E combined_file (JObj extracted_schemas);
  _ ← print E (Msg_total (length extracted_schemas));
  _ ← print E Msg_combined;
  _ ← write_json E summary_file (summary E extracted_schemas);
  mret extracted_schemas.

(* The status the process ends with: the interpreter flushes stdout as it
   exits, and answers a failure of that flush with the status 120,
   whatever the status was. *)
Definition exit_code (E : env) (status : Z) : Z :=
  match stdout_flush E with
  | Ok _ => status
  | Raise _ => 120%Z
  end.

(* The script run as a program: the guarded import, then the __main__
   block.  An exception nothing catches ends the run with a traceback and
   the status 1.  The second component is the exit status of the
   process. *)
Definition script (E : env) (w : world) : world * Z :=
  let '(w1, status) :=
    match import_error E with
    | Some e =>
        match (_ ← print E (Msg_import_error e);
               print E Msg_install_hint) w with
        | (w1, Ok _) => (w1, 1%Z)                         (* exit(1) *)
        | (w1, Raise e') => (traceback e' w1, 1%Z)
        end
    | None =>
        match (_ ← print E Msg_imported;
               _ ← print E Msg_extracting;
               _ ← extract_schemas E;
               print E Msg_complete) w with
        | (w1, Ok _) => (w1, 0%Z)
        | (w1, Raise e) => (traceback e w1, 1%Z)
        end
    end in
  (w1, exit_code E status).

(* The names of the individual files as section 6 of the specification
   gives them, '<lowercased-model-name>.schema.json', written out for the
   18 names of the registry.  This table follows the words of the
   specification; [schema_file] is what the code computes. *)
Definition lowercased_file_names : list (string * string) :=
  [("Dandiset", "dandiset.schema.json");
   ("Person", "person.schema.json");
   ("Organization", "organization.schema.json");
   ("Contributor", "contributor.schema.json");
   ("ContactPoint", "contactpoint.schema.json");
   ("Affiliation", "affiliation.schema.json");
   ("AssetsSummary", "assetssummary.schema.json");
   ("AccessRequirements", "accessrequirements.schema.json");
   ("PropertyValue", "propertyvalue.schema.json");
   ("Resource", "resource.schema.json");
   ("Activity", "activity.schema.json");
   ("Project", "project.schema.json");
   ("Session", "session.schema.json");
   ("Equipment", "equipment.schema.json");
   ("Software", "software.schema.json");
   ("Agent", "agent.schema.json");
   ("Asset", "asset.schema.json");
   ("BareAsset", "bareasset.schema.json")].

(** ** Documents and runs used as examples *)

Definition a60 : string :=
  "aaaaaaaaaaaaaaaaaaaaaaaaaaaaaaaaaaaaaaaaaaaaaaaaaaaaaaaaaaaa".

Definition six_alternatives : list json :=
  [JObj [("pattern", JStr a60)]; JNull; JNull; JNull; JNull; JNull].

Definition fifty_one_nulls : list json := replicate 51 JNull.

(* A run in which everything works but the export of Person; stdout is
   utf-8. *)
Definition env_person_fails : env := {|
  import_error := None;
  model_json_schema := λ m,
    match m with
    | Person => Raise (LibraryError "no schema")
    | _ => Ok (JObj [("title", JStr "T"); ("pattern", JStr a60)])
    end;
  mkdir := Ok ();
  dump := λ _ _, Written;
  now_isoformat := "2025-01-01T00:00:00";
  stdout_marks := Both_marks;
  stdout_text := λ _, true;
  stdout_flush := Ok ();
|}.

(* The same run with a stdout that has U+2713 and not U+2717
   (shift_jis_2004, say). *)
Definition env_person_fails_jis : env := {|
  import_error := None;
  model_json_schema := model_json_schema env_person_fails;
  mkdir := Ok ();
  dump := λ _ _, Written;
  now_isoformat := "2025-01-01T00:00:00";
  stdout_marks := Only_check_mark;
  stdout_text := λ _, true;
  stdout_flush := Ok ();
|}.

(* The same run with a stdout that has neither mark (cp1252, say). *)
Definition env_person_fails_cp1252 : env := {|
  import_error := None;
  model_json_schema := model_json_schema env_person_fails;
  mkdir := Ok ();
  dump := λ _ _, Written;
  now_isoformat := "2025-01-01T00:00:00";
  stdout_marks := No_marks;
  stdout_text := λ _, true;
  stdout_flush := Ok ();
|}.

(* A run in which everything works, on a stdout that has neither mark
   (cp1252, say). *)
Definition env_cp1252 : env := {|
  import_error := None;
  model_json_schema := λ _, Ok (JObj [("title", JStr "T")]);
  mkdir := Ok ();
  dump := λ _ _, Written;
  now_isoformat := "2025-01-01T00:00:00";
  stdout_marks := No_marks;
  stdout_text := λ _, true;
  stdout_flush := Ok ();
|}.

(* A run in which everything works, with stdout sent to a full device: the
   lines stay in the buffer until the flush at the exit, which fails. *)
Definition env_full_device : env := {|
  import_error := None;
  model_json_schema := λ _, Ok (JObj [("title", JStr "T")]);
  mkdir := Ok ();
  dump := λ _ _, Written;
  now_isoformat := "2025-01-01T00:00:00";
  stdout_marks := Both_marks;
  stdout_text := λ _, true;
  stdout_flush := Raise (OSError "No space left on device");
|}.

(* A run in which the import works and the directory cannot be made. *)
Definition env_no_directory : env := {|
  import_error := None;
  model_json_schema := λ _, Ok (JObj []);
  mkdir := Raise (OSError "Permission denied");
  dump := λ _ _, Written;
  now_isoformat := "2025-01-01T00:00:00";
  stdout_marks := Both_marks;
  stdout_text := λ _, true;
  stdout_flush := Ok ();
|}.


Definition empty_world : world := {| files := ∅; console := [] |}.

(* A directory left by an earlier run, with a file of its own beside. *)
Definition used_world : world := {|
  files := {[ "person.schema.json" := Document (JObj [("title", JStr "old")]);
              "notes.txt" := Document (JStr "keep") ]};
  console := [];
|}.

(* A run in which the write of person.schema.json breaks off halfway. *)
Definition env_person_interrupted : env := {|
  import_error := None;
  model_json_schema := λ _, Ok (JObj [("title", JStr "T")]);
  mkdir := Ok ();
  dump := λ file _,
    if bool_decide (file = "person.schema.json")
    then Interrupted (OSError "No space left on device") else Written;
  now_isoformat := "2025-01-01T00:00:00";
  stdout_marks := Both_marks;
  stdout_text := λ _, true;
  stdout_flush := Ok ();
|}.

(* A run in which all_schemas.json cannot be opened. *)
Definition env_no_combined : env := {|
  import_error := None;
  model_json_schema := λ _, Ok (JObj [("title", JStr "T")]);
  mkdir := Ok ();
  dump := λ file _,
    if bool_decide (file = "all_schemas.json")
    then Not_opened (OSError "Permission denied") else Written;
  now_isoformat := "2025-01-01T00:00:00";
  stdout_marks := Both_marks;
  stdout_text := λ _, true;
  stdout_flush := Ok ();
|}.

(** * The embedding at work *)

Example simplify_ex1 :
  simplify_schema_for_llm
    (JObj [("pattern", JStr a60);
           ("anyOf", JArr [JInt 1; JInt 2; JInt 3; JInt 4; JInt 5; JInt 6; JInt 7])])
  = Ok (JObj [("anyOf", JArr [JInt 1; JInt 2; JInt 3])]).
Proof. reflexivity. Qed.

Example schema_file_ex : schema_file "BareAsset" = "bareasset.schema.json".
Proof. reflexivity. Qed.

(** * The [result] monad *)

Lemma bind_Ok {A B} (f : A → result B) (m : result A) (b : B) :
  m ≫= f = Ok b ↔ ∃ a, m = Ok a ∧ f a = Ok b.
Proof.
  destruct m as [a|e]; simpl; split.
  - eauto.
  - by intros (a' & [= <-] & ?).
  - done.
  - by intros (a' & ? & ?).
Qed.

Lemma bind_Raise {A B} (f : A → result B) (m : result A) (e : exn) :
  m ≫= f = Raise e ↔ m = Raise e ∨ ∃ a, m = Ok a ∧ f a = Raise e.
Proof.
  destruct m as [a|e']; simpl; split; try naive_solver.
Qed.

Lemma fmap_Ok {A B} (f : A → B) (m : result A) (b : B) :
  f <$> m = Ok b ↔ ∃ a, m = Ok a ∧ b = f a.
Proof. destruct m as [a|e]; simpl; naive_solver. Qed.

Lemma mapM_Ok {A B} (f : A → result B) (l : list A) (k : list B) :
  mapM f l = Ok k ↔ Forall2 (λ x y, f x = Ok y) l k.
Proof.
  revert k. induction l as [|x l IH]; intros k; simpl.
  - split; [intros [= <-]; constructor | by inversion 1].
  - split.
    + intros (y & Hy & (k' & Hk' & [= <-])%bind_Ok)%bind_Ok.
      constructor; [done | by apply IH].
    + inversion 1 as [|? y ? k' Hy Hk']; subst.
      apply IH in Hk'. simpl. rewrite Hy. simpl. by rewrite Hk'.
Qed.

Lemma mapM_ext_in {A B} (f g : A → result B) (l : list A) :
  (∀ x, x ∈ l → f x = g x) → mapM f l = mapM g l.
Proof.
  induction l as [|x l IH]; intros Hfg; simpl; [done|].
  rewrite Hfg; [|left]. rewrite IH; [done|].
  intros y Hy. apply Hfg. by right.
Qed.

Lemma mapM_raises {A B} (f : A → result B) (l : list A) (x : A) :
  x ∈ l → raises (f x) → raises (mapM f l).
Proof.
  induction l as [|y l IH]; [by inversion 1|].
  intros Hx Hr. simpl. destruct (f y) as [b|e] eqn:Hy; [|by eexists].
  simpl. apply elem_of_cons in Hx as [->|Hx].
  - destruct Hr as [e He]. congruence.
  - destruct (IH Hx Hr) as [e ->]. by eexists.
Qed.

Lemma mapM_returns {A B} (f : A → result B) (l : list A) :
  (∀ x, x ∈ l → returns (f x)) → returns (mapM f l).
Proof.
  induction l as [|y l IH]; intros Hl; simpl; [by eexists|].
  destruct (Hl y) as [b ->]; [left|]. simpl.
  destruct IH as [k ->]; [|by eexists].
  intros x Hx. apply Hl. by right.
Qed.

Lemma returns_not_raises {A} (m : result A) : returns m → ¬ raises m.
Proof. intros [a ->] [e ?]. done. Qed.

(** * Dictionaries *)

Section dict_lemmas.
Context {V : Type}.
Implicit Types (d : dict V) (k : string) (v : V).

Lemma dict_get_Some_elem d k v : dict_get k d = Some v → (k, v) ∈ d.
Proof.
  induction d as [|[k' v'] d IH]; simpl; [done|].
  case_decide; [intros [= ->]; subst; left | right; auto].
Qed.

Lemma dict_get_None d k : dict_get k d = None ↔ k ∉ dict_keys d.
Proof.
  unfold dict_keys. induction d as [|[k' v'] d IH]; simpl.
  - split; [intros _; apply not_elem_of_nil | done].
  - rewrite not_elem_of_cons. case_decide; naive_solver.
Qed.

Lemma dict_get_NoDup d k v : NoDup d.*1 → (k, v) ∈ d → dict_get k d = Some v.
Proof.
  induction d as [|[k' v'] d IH]; simpl; [by inversion 2|].
  rewrite NoDup_cons. intros [Hk' Hd] [[= -> ->]|Hin]%elem_of_cons.
  - by rewrite decide_True.
  - rewrite decide_False; [by auto|].
    intros ->. apply Hk'. apply list_elem_of_fmap. by exists (k, v).
Qed.

Lemma dict_get_del_eq d k : dict_get k (dict_del k d) = None.
Proof.
  unfold dict_del. induction d as [|[k' v'] d IH]; [done|].
  rewrite filter_cons. simpl. case_decide; simpl; [|done].
  by rewrite decide_False.
Qed.

Lemma dict_get_del_ne d k k' :
  k ≠ k' → dict_get k' (dict_del k d) = dict_get k' d.
Proof.
  intros Hne. unfold dict_del.
  induction d as [|[k0 v0] d IH]; [done|].
  rewrite filter_cons. simpl. case_decide as Hk0; simpl.
  - by rewrite IH.
  - subst. by rewrite decide_False.
Qed.

Lemma dict_del_elem d k k' v : (k', v) ∈ dict_del k d → (k', v) ∈ d.
Proof. unfold dict_del. by intros [_ ?]%list_elem_of_filter. Qed.

Lemma dict_del_length d k : length (dict_del k d) ≤ length d.
Proof. apply length_filter. Qed.

Lemma dict_get_set_eq d k v : dict_get k (dict_set k v d) = Some v.
Proof.
  induction d as [|[k0 v0] d IH]; simpl.
  - by rewrite decide_True.
  - case_decide; simpl; [by rewrite decide_True | by rewrite decide_False].
Qed.

Lemma dict_get_set_ne d k k' v :
  k ≠ k' → dict_get k' (dict_set k v d) = dict_get k' d.
Proof.
  intros Hne. induction d as [|[k0 v0] d IH]; simpl.
  - by rewrite decide_False.
  - case_decide; simpl.
    + subst. by rewrite !decide_False.
    + by rewrite IH.
Qed.

Lemma dict_set_elem d k v k' v' :
  (k', v') ∈ dict_set k v d → (k', v') ∈ d ∨ (k' = k ∧ v' = v).
Proof.
  induction d as [|[k0 v0] d IH]; simpl.
  - intros [= -> ->]%list_elem_of_singleton. auto.
  - case_decide.
    + intros [[= -> ->]|?]%elem_of_cons; [by right | left; by right].
    + intros [Heq|Hin]%elem_of_cons.
      * left. rewrite Heq. by left.
      * destruct (IH Hin) as [?|?]; [left; by right | by right].
Qed.

Lemma dict_set_length_present d k v v0 :
  dict_get k d = Some v0 → length (dict_set k v d) = length d.
Proof.
  induction d as [|[k1 v1] d IH]; simpl; [done|].
  case_decide; simpl; [done|]. intros ?. by rewrite IH.
Qed.

Lemma dict_set_absent d k v :
  dict_get k d = None → dict_set k v d = d ++ [(k, v)].
Proof.
  induction d as [|[k1 v1] d IH]; simpl; [done|].
  case_decide; [done|]. intros ?. by rewrite IH.
Qed.

Lemma dict_set_keys_present d k v v0 :
  dict_get k d = Some v0 → dict_keys (dict_set k v d) = dict_keys d.
Proof.
  unfold dict_keys. induction d as [|[k1 v1] d IH]; simpl; [done|].
  case_decide; [by subst|]. intros ?. rewrite fmap_cons. simpl. f_equal. by apply IH.
Qed.

Lemma dict_del_NoDup d k : NoDup d.*1 → NoDup (dict_del k d).*1.
Proof.
  unfold dict_del. induction d as [|[k0 v0] d IH]; [done|].
  rewrite fmap_cons, NoDup_cons. intros [Hk0 Hd]. rewrite filter_cons.
  case_decide; simpl; [|by auto].
  apply NoDup_cons. split; [|by auto].
  intros ((k1 & v1) & Hk1 & [_ ?]%list_elem_of_filter)%list_elem_of_fmap.
  simpl in *. subst. apply Hk0. apply list_elem_of_fmap. by exists (k1, v1).
Qed.
End dict_lemmas.

(** * The two rules, by cases on the key *)

Lemma drop_long_pattern_unfold d :
  drop_long_pattern d =
  match dict_get "pattern" d with
  | Some p =>
      n ← len p;
      mret (if (50 <? n)%nat then dict_del "pattern" d else d)
  | None => mret d
  end.
Proof.
  unfold drop_long_pattern, dict_mem, dict_get_or.
  destruct (dict_get "pattern" d) as [p|]; [|done].
  destruct (len p) as [n|e]; [|done]. simpl. by destruct (50 <? n)%nat.
Qed.

Lemma truncate_anyOf_unfold d :
  truncate_anyOf d =
  match dict_get "anyOf" d with
  | Some a =>
      n ← len a;
      if (5 <? n)%nat
      then a' ← slice_to 3 a; mret (dict_set "anyOf" a' d)
      else mret d
  | None => mret d
  end.
Proof.
  unfold truncate_anyOf, dict_mem, dict_getitem.
  by destruct (dict_get "anyOf" d) as [a|].
Qed.

(** * The recursion of [simplify_schema_for_llm] is well founded *)

Lemma size_pos x : 0 < size x.
Proof. destruct x; simpl; lia. Qed.

Lemma sum_list_elem {A} (f : A → nat) (l : list A) (x : A) :
  x ∈ l → f x ≤ sum_list (f <$> l).
Proof.
  induction l as [|y l IH]; [by inversion 1|].
  intros [->|Hx%IH]%elem_of_cons; csimpl; lia.
Qed.

Lemma sum_list_take {A} (f : A → nat) (n : nat) (l : list A) :
  sum_list (f <$> take n l) ≤ sum_list (f <$> l).
Proof.
  revert n. induction l as [|y l IH]; intros [|n]; csimpl; try lia.
  specialize (IH n). lia.
Qed.

Lemma size_elem_arr l x : x ∈ l → size x < size (JArr l).
Proof. intros Hx%(sum_list_elem size). simpl. lia. Qed.

Lemma size_elem_obj d k v : (k, v) ∈ d → size v < size (JObj d).
Proof. intros Hx%(sum_list_elem (λ kv, size kv.2)). simpl in *. lia. Qed.

Lemma slice_to_size n x y : slice_to n x = Ok y → size y ≤ size x.
Proof.
  destruct x; simpl; intros [= <-]; simpl; [lia|].
  pose proof (sum_list_take size n l). lia.
Qed.

Lemma drop_long_pattern_elem d d1 k v :
  drop_long_pattern d = Ok d1 → (k, v) ∈ d1 → (k, v) ∈ d.
Proof.
  rewrite drop_long_pattern_unfold. destruct (dict_get "pattern" d) as [p|].
  - intros (n & _ & [= <-])%bind_Ok. case_match; [|done].
    apply dict_del_elem.
  - by intros [= <-].
Qed.

Lemma truncate_anyOf_elem d1 d2 k v :
  truncate_anyOf d1 = Ok d2 → (k, v) ∈ d2 →
  ∃ v0, (k, v0) ∈ d1 ∧ size v ≤ size v0.
Proof.
  rewrite truncate_anyOf_unfold. destruct (dict_get "anyOf" d1) as [a|] eqn:Ha.
  - intros (n & _ & Hd2)%bind_Ok. case_match.
    + apply bind_Ok in Hd2 as (a' & Ha' & [= <-]).
      intros [?|[-> ->]]%dict_set_elem; [by eauto|].
      exists a. split; [by apply dict_get_Some_elem|].
      by eapply slice_to_size.
    + injection Hd2 as <-. eauto.
  - intros [= <-]. eauto.
Qed.

Lemma simplify_value_ext rec1 rec2 v :
  (∀ y, size y ≤ size v → rec1 y = rec2 y) →
  simplify_value rec1 v = simplify_value rec2 v.
Proof.
  intros Hrec. destruct v as [| | | | |l|d]; simpl; try done.
  - f_equal. apply mapM_ext_in. intros item Hitem%size_elem_arr.
    destruct item; simpl; try done. apply Hrec. lia.
  - by apply Hrec.
Qed.

Lemma simplify_body_ext rec1 rec2 x :
  (∀ y, size y < size x → rec1 y = rec2 y) →
  simplify_body rec1 x = simplify_body rec2 x.
Proof.
  intros Hrec. destruct x as [| | | | |l|d]; simpl; try done.
  destruct (drop_long_pattern d) as [d1|] eqn:Hd1; simpl; [|done].
  destruct (truncate_anyOf d1) as [d2|] eqn:Hd2; simpl; [|done].
  unfold simplify_entries. erewrite mapM_ext_in; [done|].
  intros [k v] Hkv. simpl.
  destruct (truncate_anyOf_elem _ _ _ _ Hd2 Hkv) as (v0 & Hv0 & Hle).
  apply (drop_long_pattern_elem _ _ _ _ Hd1), size_elem_obj in Hv0.
  erewrite simplify_value_ext; [done|].
  intros y Hy. apply Hrec. simpl in *. lia.
Qed.

Lemma simplify_upto_irrel n m x :
  size x ≤ n → size x ≤ m → simplify_upto n x = simplify_upto m x.
Proof.
  revert m x. induction n as [|n IH]; intros m x Hn Hm.
  { pose proof (size_pos x). lia. }
  destruct m as [|m]; [pose proof (size_pos x); lia|]. simpl.
  apply simplify_body_ext. intros y Hy. apply IH; lia.
Qed.

(* A stack with room for the nodes of the document is as good as any
   deeper one. *)
Lemma simplify_upto_enough n x :
  size x ≤ n → simplify_upto n x = simplify_schema_for_llm x.
Proof. intros. by apply simplify_upto_irrel. Qed.

(* The function satisfies the equation its source text reads as. *)
Lemma simplify_schema_for_llm_eq x :
  simplify_schema_for_llm x = simplify_body simplify_schema_for_llm x.
Proof.
  unfold simplify_schema_for_llm at 1.
  destruct (size x) as [|n] eqn:Hn; [pose proof (size_pos x); lia|].
  simpl. apply simplify_body_ext. intros y Hy.
  apply simplify_upto_enough. lia.
Qed.

Lemma simplify_obj d :
  simplify_schema_for_llm (JObj d) =
  d1 ← drop_long_pattern d;
  d2 ← truncate_anyOf d1;
  d3 ← simplify_entries simplify_schema_for_llm d2;
  mret (JObj d3).
Proof. by rewrite simplify_schema_for_llm_eq. Qed.

Lemma simplify_not_obj x :
  (∀ d, x ≠ JObj d) → simplify_schema_for_llm x = Ok x.
Proof. rewrite simplify_schema_for_llm_eq. destruct x; naive_solver. Qed.

(** * The two rules at one mapping *)

Lemma drop_long_pattern_inv d d1 :
  drop_long_pattern d = Ok d1 →
  (dict_get "pattern" d = None ∧ d1 = d) ∨
  (∃ p n, dict_get "pattern" d = Some p ∧ len p = Ok n ∧
          d1 = if (50 <? n)%nat then dict_del "pattern" d else d).
Proof.
  rewrite drop_long_pattern_unfold. destruct (dict_get "pattern" d) as [p|].
  - intros (n & Hn & [= <-])%bind_Ok. right. by exists p, n.
  - intros [= <-]. by left.
Qed.

Lemma truncate_anyOf_inv d1 d2 :
  truncate_anyOf d1 = Ok d2 →
  (dict_get "anyOf" d1 = None ∧ d2 = d1) ∨
  (∃ a n, dict_get "anyOf" d1 = Some a ∧ len a = Ok n ∧ n ≤ 5 ∧ d2 = d1) ∨
  (∃ a n a', dict_get "anyOf" d1 = Some a ∧ len a = Ok n ∧ 5 < n ∧
             slice_to 3 a = Ok a' ∧ d2 = dict_set "anyOf" a' d1).
Proof.
  rewrite truncate_anyOf_unfold. destruct (dict_get "anyOf" d1) as [a|].
  - intros (n & Hn & Hd2)%bind_Ok. right.
    destruct (5 <? n)%nat eqn:Hlt.
    + apply Nat.ltb_lt in Hlt.
      apply bind_Ok in Hd2 as (a' & Ha' & [= <-]). right. by exists a, n, a'.
    + apply Nat.ltb_ge in Hlt. injection Hd2 as <-. left. by exists a, n.
  - intros [= <-]. by left.
Qed.

Lemma drop_long_pattern_get_ne d d1 k :
  k ≠ "pattern" → drop_long_pattern d = Ok d1 →
  dict_get k d1 = dict_get k d.
Proof.
  intros Hk [[_ ->]|(p & n & _ & _ & ->)]%drop_long_pattern_inv; [done|].
  case_match; [|done]. by apply dict_get_del_ne.
Qed.

Lemma truncate_anyOf_get_ne d1 d2 k :
  k ≠ "anyOf" → truncate_anyOf d1 = Ok d2 →
  dict_get k d2 = dict_get k d1.
Proof.
  intros Hk Hd2. apply truncate_anyOf_inv in Hd2
    as [[_ ->]|[(a & n & _ & _ & _ & ->)|(a & n & a' & _ & _ & _ & _ & ->)]];
    try done.
  by apply dict_get_set_ne.
Qed.

(* What is under 'pattern' once rule 1 has run. *)
Lemma drop_long_pattern_get d d1 :
  drop_long_pattern d = Ok d1 →
  match dict_get "pattern" d with
  | None => dict_get "pattern" d1 = None
  | Some p => ∃ n, len p = Ok n ∧
      dict_get "pattern" d1 = if (50 <? n)%nat then None else Some p
  end.
Proof.
  intros [[Hp ->]|(p & n & Hp & Hn & ->)]%drop_long_pattern_inv;
    rewrite Hp; [done|].
  exists n. split; [done|]. case_match; [apply dict_get_del_eq | done].
Qed.

(* What is under 'anyOf' once rule 2 has run. *)
Lemma truncate_anyOf_get d1 d2 :
  truncate_anyOf d1 = Ok d2 →
  match dict_get "anyOf" d1 with
  | None => dict_get "anyOf" d2 = None
  | Some a => ∃ n, len a = Ok n ∧
      if (5 <? n)%nat
      then ∃ a', slice_to 3 a = Ok a' ∧ dict_get "anyOf" d2 = Some a'
      else dict_get "anyOf" d2 = Some a
  end.
Proof.
  intros Hd2. apply truncate_anyOf_inv in Hd2
    as [[Ha ->]|[(a & n & Ha & Hn & Hle & ->)
                |(a & n & a' & Ha & Hn & Hlt & Ha' & ->)]];
    rewrite Ha; [done| |].
  - exists n. split; [done|]. by rewrite (proj2 (Nat.ltb_ge _ _) Hle).
  - exists n. split; [done|]. rewrite (proj2 (Nat.ltb_lt _ _) Hlt).
    exists a'. split; [done|]. apply dict_get_set_eq.
Qed.

Lemma slice_to_len n x y :
  slice_to n x = Ok y → ∃ m, len y = Ok m ∧ m ≤ n.
Proof.
  destruct x; simpl; intros [= <-]; simpl; eexists; (split; [done|]).
  - clear. revert n. induction s as [|c s IH]; intros [|n]; simpl; try lia.
    rewrite <- Nat.succ_le_mono. apply IH.
  - rewrite length_take. lia.
Qed.

(** * The loop over the entries *)

Section entries.
Variable rec : json → result json.

Lemma simplify_entries_Ok d2 d3 :
  simplify_entries rec d2 = Ok d3 ↔
  Forall2 (λ kv kv', kv'.1 = kv.1 ∧ simplify_value rec kv.2 = Ok kv'.2)
          d2 d3.
Proof.
  unfold simplify_entries. rewrite mapM_Ok.
  split; intros H; eapply Forall2_impl; try exact H;
    intros [k v] [k' v']; simpl.
  - by intros (v'' & ? & [= <- <-])%bind_Ok.
  - intros [-> Hv]. by rewrite Hv.
Qed.

Lemma simplify_entries_keys d2 d3 :
  simplify_entries rec d2 = Ok d3 → d3.*1 = d2.*1.
Proof.
  rewrite simplify_entries_Ok. induction 1 as [|?????? IH]; [done|].
  rewrite !fmap_cons. f_equal; [naive_solver | done].
Qed.

Lemma simplify_entries_length d2 d3 :
  simplify_entries rec d2 = Ok d3 → length d3 = length d2.
Proof. rewrite simplify_entries_Ok. intros H. by apply Forall2_length in H. Qed.

Lemma simplify_entries_get d2 d3 k :
  simplify_entries rec d2 = Ok d3 →
  match dict_get k d2 with
  | None => dict_get k d3 = None
  | Some v => ∃ v', simplify_value rec v = Ok v' ∧ dict_get k d3 = Some v'
  end.
Proof.
  rewrite simplify_entries_Ok.
  induction 1 as [|[k2 v2] [k3 v3] d2 d3 [Hk Hv] _ IH]; simpl; [done|].
  simpl in *. subst k3. case_decide; [by eauto | done].
Qed.
End entries.

Lemma simplify_item_eq item :
  simplify_item simplify_schema_for_llm item = simplify_schema_for_llm item.
Proof.
  destruct item; simpl; try done; by rewrite simplify_not_obj.
Qed.

Lemma simplify_obj_inv d y :
  simplify_schema_for_llm (JObj d) = Ok y →
  ∃ d1 d2 d3,
    drop_long_pattern d = Ok d1 ∧ truncate_anyOf d1 = Ok d2 ∧
    simplify_entries simplify_schema_for_llm d2 = Ok d3 ∧ y = JObj d3.
Proof.
  rewrite simplify_obj.
  intros (d1 & ? & (d2 & ? & (d3 & ? & [= <-])%bind_Ok)%bind_Ok)%bind_Ok.
  by exists d1, d2, d3.
Qed.

(* The value under a key of a simplified mapping comes from the value the
   input has under that key: possibly cut by rule 2 first, then handed to
   the loop. *)
Lemma simplify_obj_get d d' k v' :
  simplify_schema_for_llm (JObj d) = Ok (JObj d') →
  dict_get k d' = Some v' →
  ∃ v v2, dict_get k d = Some v ∧
          (v2 = v ∨ (k = "anyOf" ∧ slice_to 3 v = Ok v2)) ∧
          simplify_value simplify_schema_for_llm v2 = Ok v'.
Proof.
  intros (d1 & d2 & d3 & Hd1 & Hd2 & Hd3 & [= <-])%simplify_obj_inv Hv'.
  pose proof (simplify_entries_get _ _ _ k Hd3) as H3. rewrite Hv' in H3.
  destruct (dict_get k d2) as [v2|] eqn:Hv2; [|done].
  destruct H3 as (v'' & Hv'' & [= <-]).
  destruct (decide (k = "anyOf")) as [->|Hk].
  - pose proof (truncate_anyOf_get _ _ Hd2) as H2.
    rewrite (drop_long_pattern_get_ne d d1) in H2 by done.
    destruct (dict_get "anyOf" d) as [a|] eqn:Ha; [|congruence].
    destruct H2 as (n & Hn & H2). exists a, v2. split; [done|].
    split; [|done]. case_match.
    + destruct H2 as (a' & Ha' & ?). right. split; [done|]. congruence.
    + left. congruence.
  - rewrite (truncate_anyOf_get_ne d1 d2) in Hv2 by done.
    exists v2, v2. split; [|by auto].
    destruct (decide (k = "pattern")) as [->|Hk'].
    + pose proof (drop_long_pattern_get _ _ Hd1) as H1.
      destruct (dict_get "pattern" d) as [p|]; [|congruence].
      destruct H1 as (n & _ & H1). rewrite Hv2 in H1. by case_match.
    + by rewrite <- (drop_long_pattern_get_ne d d1).
Qed.

(** * Lengths never grow *)

Lemma drop_long_pattern_length d d1 :
  drop_long_pattern d = Ok d1 → length d1 ≤ length d.
Proof.
  intros [[_ ->]|(p & n & _ & _ & ->)]%drop_long_pattern_inv; [done|].
  case_match; [apply dict_del_length | done].
Qed.

Lemma truncate_anyOf_length d1 d2 :
  truncate_anyOf d1 = Ok d2 → length d2 = length d1.
Proof.
  intros Hd2. apply truncate_anyOf_inv in Hd2
    as [[_ ->]|[(a & n & _ & _ & _ & ->)|(a & n & a' & Ha & _ & _ & _ & ->)]];
    try done.
  by eapply dict_set_length_present.
Qed.

Lemma simplify_len x y n :
  simplify_schema_for_llm x = Ok y → len x = Ok n →
  ∃ n', len y = Ok n' ∧ n' ≤ n.
Proof.
  destruct x as [| | | |s|l|d]; try done.
  - rewrite simplify_not_obj by done. intros [= <-] ?. eauto.
  - rewrite simplify_not_obj by done. intros [= <-] ?. eauto.
  - intros (d1 & d2 & d3 & Hd1 & Hd2 & Hd3 & ->)%simplify_obj_inv [= <-].
    simpl. eexists. split; [done|].
    apply drop_long_pattern_length in Hd1.
    apply truncate_anyOf_length in Hd2.
    apply simplify_entries_length in Hd3. lia.
Qed.

Lemma simplify_value_len v v' n :
  simplify_value simplify_schema_for_llm v = Ok v' → len v = Ok n →
  ∃ n', len v' = Ok n' ∧ n' ≤ n.
Proof.
  destruct v as [| | | |s|l|d]; try done.
  - intros [= <-] ?. eauto.
  - simpl. intros (l' & Hl'%mapM_Ok%Forall2_length & ->)%fmap_Ok [= <-].
    simpl. eexists. split; [done|]. lia.
  - apply simplify_len.
Qed.

(** * Idempotence *)

Lemma mapM_fixed {A} (f : A → result A) (l : list A) :
  Forall (λ x, f x = Ok x) l → mapM f l = Ok l.
Proof. intros H. apply mapM_Ok. by apply Forall_Forall2_diag. Qed.

Lemma Forall2_elem_r {A B} (P : A → B → Prop) (l : list A) (k : list B) y :
  Forall2 P l k → y ∈ k → ∃ x, x ∈ l ∧ P x y.
Proof.
  intros HF (i & Hi)%list_elem_of_lookup.
  destruct (Forall2_lookup_r _ _ _ _ _ HF Hi) as (x & Hx & HP).
  exists x. split; [|done]. by eapply list_elem_of_lookup_2.
Qed.

Lemma simplify_item_fixed item item' :
  (∀ y, simplify_schema_for_llm item = Ok y →
        simplify_schema_for_llm y = Ok y) →
  simplify_item simplify_schema_for_llm item = Ok item' →
  simplify_item simplify_schema_for_llm item' = Ok item'.
Proof.
  rewrite !simplify_item_eq. auto.
Qed.

(* Once the loop has run over a value, running it again changes nothing,
   provided this holds of the recursive calls on the parts of the value. *)
Lemma simplify_value_fixed v v' :
  (∀ x y, size x ≤ size v → simplify_schema_for_llm x = Ok y →
          simplify_schema_for_llm y = Ok y) →
  simplify_value simplify_schema_for_llm v = Ok v' →
  simplify_value simplify_schema_for_llm v' = Ok v'.
Proof.
  intros IH. destruct v as [| | | |s|l|d]; try by intros [= <-].
  - simpl. intros (l' & Hl'%mapM_Ok & ->)%fmap_Ok. simpl.
    rewrite mapM_fixed; [done|].
    apply Forall_forall. intros item' Hitem'.
    destruct (Forall2_elem_r _ _ _ _ Hl' Hitem') as (item & Hitem & Hs).
    apply (simplify_item_fixed item); [|done].
    intros y. apply IH. apply size_elem_arr in Hitem. lia.
  - simpl. intros Hv'.
    pose proof (simplify_obj_inv _ _ Hv') as (? & ? & d3 & _ & _ & _ & ->).
    simpl. by eapply IH.
Qed.

Lemma simplify_fixed_aux n :
  ∀ x y, size x ≤ n → simplify_schema_for_llm x = Ok y →
         simplify_schema_for_llm y = Ok y.
Proof.
  induction n as [|n IH]; intros x y Hn.
  { pose proof (size_pos x). lia. }
  destruct x as [| | | | | |d];
    try (rewrite simplify_not_obj by done; intros [= <-];
         by rewrite simplify_not_obj).
  intros Hy.
  pose proof (simplify_obj_inv _ _ Hy) as (d1 & d2 & d3 & Hd1 & Hd2 & Hd3 & ->).
  rewrite simplify_obj.
  (* rule 1 finds nothing to delete *)
  assert (drop_long_pattern d3 = Ok d3) as ->.
  { rewrite drop_long_pattern_unfold.
    pose proof (simplify_entries_get _ _ _ "pattern" Hd3) as H3.
    rewrite (truncate_anyOf_get_ne d1 d2) in H3 by done.
    pose proof (drop_long_pattern_get _ _ Hd1) as H1.
    destruct (dict_get "pattern" d1) as [p|] eqn:Hp; [|by rewrite H3].
    destruct H3 as (p' & Hp' & ->).
    destruct (dict_get "pattern" d) as [p0|]; [|done].
    destruct H1 as (n0 & Hn0 & H1).
    destruct (50 <? n0)%nat eqn:Hlt; [done|]. injection H1 as ->.
    apply Nat.ltb_ge in Hlt.
    destruct (simplify_value_len _ _ _ Hp' Hn0) as (n' & -> & Hle). simpl.
    by rewrite (proj2 (Nat.ltb_ge 50 n')) by lia. }
  simpl.
  (* rule 2 finds nothing to cut *)
  assert (truncate_anyOf d3 = Ok d3) as ->.
  { rewrite truncate_anyOf_unfold.
    pose proof (simplify_entries_get _ _ _ "anyOf" Hd3) as H3.
    pose proof (truncate_anyOf_get _ _ Hd2) as H2.
    destruct (dict_get "anyOf" d2) as [a2|] eqn:Ha2; [|by rewrite H3].
    destruct H3 as (a3 & Ha3 & ->).
    assert (∃ m, len a2 = Ok m ∧ m ≤ 5) as (m & Hm & Hle).
    { destruct (dict_get "anyOf" d1) as [a|]; [|done].
      destruct H2 as (n0 & Hn0 & H2).
      destruct (5 <? n0)%nat eqn:Hlt.
      - destruct H2 as (a' & Ha' & [= ->]).
        destruct (slice_to_len _ _ _ Ha') as (m & ? & ?).
        exists m. split; [done|lia].
      - injection H2 as ->. apply Nat.ltb_ge in Hlt. eauto. }
    destruct (simplify_value_len _ _ _ Ha3 Hm) as (n' & -> & Hle'). simpl.
    by rewrite (proj2 (Nat.ltb_ge 5 n')) by lia. }
  simpl.
  (* the loop finds every entry already simplified *)
  assert (simplify_entries simplify_schema_for_llm d3 = Ok d3) as ->; [|done].
  apply simplify_entries_Ok, Forall_Forall2_diag, Forall_forall.
  intros [k v3] Hkv3. split; [done|]. simpl.
  apply simplify_entries_Ok in Hd3.
  destruct (Forall2_elem_r _ _ _ _ Hd3 Hkv3) as ([k2 v2] & Hkv2 & _ & Hv3).
  simpl in *. apply (simplify_value_fixed v2); [|done].
  intros x y Hx. apply IH.
  destruct (truncate_anyOf_elem _ _ _ _ Hd2 Hkv2) as (v0 & Hv0 & Hle).
  apply (drop_long_pattern_elem _ _ _ _ Hd1), size_elem_obj in Hv0.
  simpl in *. lia.
Qed.

Lemma simplify_fixed x y :
  simplify_schema_for_llm x = Ok y → simplify_schema_for_llm y = Ok y.
Proof. by apply (simplify_fixed_aux (size x)). Qed.

(** C3.  [simplify_schema_for_llm] is idempotent: for every input schema,
    applying the transform twice yields the same result as applying it
    once.  The second application is chained on the outcome of the first,
    so the statement covers the inputs on which the transform raises: the
    exception of the first application is the outcome of both sides. *)
Theorem simplify_idempotent (schema : json) :
  simplify_schema_for_llm schema ≫= simplify_schema_for_llm
  = simplify_schema_for_llm schema.
Proof.
  destruct (simplify_schema_for_llm schema) as [y|e] eqn:Hy; [|done].
  simpl. by eapply simplify_fixed.
Qed.

(** * From the root to the nodes *)

(* The document and its image, read at the same position.  At a position
   the recursion can get to, the node of the image is the simplified node
   of the document; elsewhere it is the node of the document itself. *)
Lemma node_at_related p :
  (∀ a b a' b',
     simplify_schema_for_llm a = Ok b →
     node_at p a = Some a' → node_at p b = Some b' →
     if reached_from true p
     then ∀ d, a' = JObj d → simplify_schema_for_llm a' = Ok b'
     else a' = b') ∧
  (∀ a b v2 a' b',
     v2 = a ∨ slice_to 3 a = Ok v2 →
     simplify_value simplify_schema_for_llm v2 = Ok b →
     node_at p a = Some a' → node_at p b = Some b' →
     if reached_from false p
     then ∀ d, a' = JObj d → simplify_schema_for_llm a' = Ok b'
     else a' = b').
Proof.
  induction p as [|[k|i] p [IHn IHv]].
  - split.
    + simpl. intros a b a' b' Hab [= <-] [= <-]. auto.
    + simpl. intros a b v2 a' b' Hv2 Hb [= <-] [= <-] d ->.
      destruct Hv2 as [->|?]; [done | done].
  - assert (∀ a b a' b',
      simplify_schema_for_llm a = Ok b →
      node_at (Key k :: p) a = Some a' → node_at (Key k :: p) b = Some b' →
      if reached_from false p
      then ∀ d, a' = JObj d → simplify_schema_for_llm a' = Ok b'
      else a' = b') as Hnode.
    { intros a b a' b' Hab Ha' Hb'. simpl in Ha', Hb'.
      destruct a as [| | | | | |d]; try done.
      pose proof (simplify_obj_inv _ _ Hab) as (? & ? & d3 & _ & _ & _ & ->).
      destruct (dict_get k d) as [v|] eqn:Hv; [|done].
      destruct (dict_get k d3) as [v3|] eqn:Hv3; [|done]. simpl in *.
      destruct (simplify_obj_get _ _ _ _ Hab Hv3)
        as (v0 & v2 & Hv0 & Hv2 & Hs).
      assert (v0 = v) as -> by congruence.
      eapply (IHv v v3 v2); try done. naive_solver. }
    split; [exact Hnode|].
    intros a b v2 a' b' Hv2 Hb Ha' Hb'.
    destruct a as [| | | | | |d]; try done.
    destruct Hv2 as [->|?]; [|done].
    by eapply Hnode.
  - split.
    + intros a b a' b' Hab Ha' Hb'. simpl.
      destruct a as [| | | | |l|]; try done.
      rewrite simplify_not_obj in Hab by done. injection Hab as <-.
      congruence.
    + intros a b v2 a' b' Hv2 Hb Ha' Hb'. simpl in *.
      destruct a as [| | | | |l|]; try done.
      destruct (l !! i) as [item|] eqn:Hitem; [|done]. simpl in *.
      assert (∃ l2, v2 = JArr l2 ∧ ∀ item2, l2 !! i = Some item2 → item2 = item)
        as (l2 & -> & Hl2).
      { destruct Hv2 as [->|[= <-]].
        - exists l. split; [done|]. congruence.
        - exists (take 3 l). split; [done|].
          intros item2 [? _]%lookup_take_Some. congruence. }
      simpl in Hb. apply fmap_Ok in Hb as (l3 & Hl3%mapM_Ok & ->).
      destruct (l3 !! i) as [item3|] eqn:Hitem3; [|done]. simpl in *.
      destruct (Forall2_lookup_r _ _ _ _ _ Hl3 Hitem3) as (item2 & Hi2 & Hs).
      apply Hl2 in Hi2 as ->. rewrite simplify_item_eq in Hs.
      by eapply IHn.
Qed.

Lemma simplify_node_at x y p d b :
  simplify_schema_for_llm x = Ok y →
  node_at p x = Some (JObj d) → node_at p y = Some b →
  if reached p then simplify_schema_for_llm (JObj d) = Ok b else b = JObj d.
Proof.
  intros Hxy Hd Hb. unfold reached.
  pose proof (proj1 (node_at_related p) _ _ _ _ Hxy Hd Hb) as H.
  destruct (reached_from true p); [by eapply H | done].
Qed.

(** * Rule 1 *)

Lemma simplify_pattern_str d b s :
  simplify_schema_for_llm (JObj d) = Ok b →
  dict_get "pattern" d = Some (JStr s) →
  ∃ d', b = JObj d' ∧
    dict_get "pattern" d' =
      if (50 <? String.length s)%nat then None else Some (JStr s).
Proof.
  intros (d1 & d2 & d3 & Hd1 & Hd2 & Hd3 & ->)%simplify_obj_inv Hs.
  exists d3. split; [done|].
  pose proof (simplify_entries_get _ _ _ "pattern" Hd3) as H3.
  rewrite (truncate_anyOf_get_ne d1 d2) in H3 by done.
  pose proof (drop_long_pattern_get _ _ Hd1) as H1. rewrite Hs in H1.
  destruct H1 as (n & [= <-] & H1). rewrite H1 in H3.
  case_match; [done|]. by destruct H3 as (v' & [= <-] & ->).
Qed.

(** C1 (amended).  At every mapping node the recursion gets to -- the root
    mapping, a mapping held under a key of such a node, or a mapping that
    is a direct element of a list held under a key of such a node -- a
    'pattern' string longer than 50 characters is gone from the output
    node, and a 'pattern' string of 50 characters or less is retained
    unchanged.  A mapping node the recursion does not get to (it lies in a
    list that is itself an element of a list, or in a list given as the
    whole input) is returned as it is, its 'pattern' key with it, whatever
    the length.  Nodes are compared at the same position of input and
    output. *)
Theorem pattern_rule_at_nodes x y p d s b :
  simplify_schema_for_llm x = Ok y →
  node_at p x = Some (JObj d) →
  dict_get "pattern" d = Some (JStr s) →
  node_at p y = Some b →
  ∃ d', b = JObj d' ∧
    dict_get "pattern" d' =
      if reached p && (50 <? String.length s)%nat
      then None else Some (JStr s).
Proof.
  intros Hxy Hd Hs Hb.
  pose proof (simplify_node_at _ _ _ _ _ Hxy Hd Hb) as H.
  destruct (reached p); simpl.
  - by eapply simplify_pattern_str.
  - subst b. by exists d.
Qed.

Lemma pattern_rule_at_nodes_witness :
  let x := JObj [("items", JObj [("pattern", JStr a60)])] in
  let y := JObj [("items", JObj [])] in
  let p := [Key "items"] in
  simplify_schema_for_llm x = Ok y ∧
  node_at p x = Some (JObj [("pattern", JStr a60)]) ∧
  dict_get "pattern" [("pattern", JStr a60)] = Some (JStr a60) ∧
  node_at p y = Some (JObj []) ∧
  ∃ d', JObj [] = JObj d' ∧
    dict_get "pattern" d' =
      if reached p && (50 <? String.length a60)%nat
      then None else Some (JStr a60).
Proof.
  do 4 (split; [reflexivity|]).
  apply (pattern_rule_at_nodes
           (JObj [("items", JObj [("pattern", JStr a60)])])
           (JObj [("items", JObj [])])
           [Key "items"] [("pattern", JStr a60)] a60 (JObj []));
    reflexivity.
Defined.

(* C1 as the specification words it, for every mapping node of the input,
   fails where the recursion does not go: the node below has a 'pattern' string
   of 60 characters, and the output node at the same position still has
   it. *)
Lemma long_pattern_kept_in_nested_list :
  let d := [("pattern", JStr a60)] in
  let x := JObj [("examples", JArr [JArr [JObj d]])] in
  let y := x in
  let p := [Key "examples"; Idx 0; Idx 0] in
  simplify_schema_for_llm x = Ok y ∧
  node_at p x = Some (JObj d) ∧
  dict_get "pattern" d = Some (JStr a60) ∧
  (50 < String.length a60)%nat ∧
  node_at p y = Some (JObj d) ∧
  dict_get "pattern" d ≠ None.
Proof.
  repeat split; [vm_compute; lia | done].
Qed.

(** * Rule 2 and the lists it leaves alone *)

(* The list under a key of a mapping, after the call: the list the loop was
   given, element by element. *)
Lemma simplify_list_under_key d b k l :
  simplify_schema_for_llm (JObj d) = Ok b →
  dict_get k d = Some (JArr l) → k ≠ "pattern" →
  ∃ d' l', b = JObj d' ∧ dict_get k d' = Some (JArr l') ∧
    Forall2 (λ a a', simplify_schema_for_llm a = Ok a')
      (if bool_decide (k = "anyOf") && (5 <? length l)%nat
       then take 3 l else l) l'.
Proof.
  intros Hb Hl Hk.
  pose proof (simplify_obj_inv _ _ Hb) as (d1 & d2 & d3 & Hd1 & Hd2 & Hd3 & ->).
  exists d3.
  pose proof (simplify_entries_get _ _ _ k Hd3) as H3.
  assert (dict_get k d2 =
          Some (JArr (if bool_decide (k = "anyOf") && (5 <? length l)%nat
                      then take 3 l else l))) as Hd2k.
  { case_bool_decide as Hany; simpl.
    - subst k. pose proof (truncate_anyOf_get _ _ Hd2) as H2.
      rewrite (drop_long_pattern_get_ne d d1), Hl in H2 by done.
      destruct H2 as (n & [= <-] & H2).
      case_match; [|done]. by destruct H2 as (a' & [= <-] & ->).
    - rewrite (truncate_anyOf_get_ne d1 d2) by done.
      by rewrite (drop_long_pattern_get_ne d d1). }
  rewrite Hd2k in H3. destruct H3 as (v' & Hv' & Hk3). simpl in Hv'.
  apply fmap_Ok in Hv' as (l' & Hl'%mapM_Ok & ->).
  exists l'. split; [done|]. split; [done|].
  eapply Forall2_impl; [exact Hl'|]. intros a a' Ha. simpl in Ha.
  by rewrite <- simplify_item_eq.
Qed.

(** C2 (amended).  At every mapping node the recursion gets to whose
    'anyOf' key holds a list of more than 5 alternatives, the output list
    has exactly 3 entries: they are the original first three, each handed
    to the transform (a mapping entry is recursively simplified, any other
    entry is unchanged).  An 'anyOf' list of 5 or fewer alternatives is not
    truncated: the output list has the same length, its entries handed to
    the transform likewise.  At a mapping node the recursion does not get
    to, the 'anyOf' list is returned as it is, whatever its length. *)
Theorem anyOf_rule_at_nodes x y p d l b :
  simplify_schema_for_llm x = Ok y →
  node_at p x = Some (JObj d) →
  dict_get "anyOf" d = Some (JArr l) →
  node_at p y = Some b →
  ∃ d' l', b = JObj d' ∧ dict_get "anyOf" d' = Some (JArr l') ∧
    if reached p
    then Forall2 (λ a a', simplify_schema_for_llm a = Ok a')
           (if (5 <? length l)%nat then take 3 l else l) l' ∧
         length l' = (if (5 <? length l)%nat then 3 else length l)
    else l' = l.
Proof.
  intros Hxy Hd Hl Hb.
  pose proof (simplify_node_at _ _ _ _ _ Hxy Hd Hb) as H.
  destruct (reached p).
  - destruct (simplify_list_under_key _ _ _ _ H Hl)
      as (d' & l' & -> & Hl' & HF); [done|].
    exists d', l'. rewrite bool_decide_eq_true_2 in HF by done. simpl in HF.
    do 3 (split; [done|]).
    apply Forall2_length in HF. rewrite <- HF.
    destruct (5 <? length l)%nat eqn:Hlt; [|done].
    apply Nat.ltb_lt in Hlt. rewrite length_take. lia.
  - subst b. by exists d, l.
Qed.

Lemma anyOf_rule_at_nodes_witness :
  let x := JObj [("anyOf", JArr six_alternatives)] in
  let y := JObj [("anyOf", JArr [JObj []; JNull; JNull])] in
  simplify_schema_for_llm x = Ok y ∧
  node_at [] x = Some x ∧
  dict_get "anyOf" [("anyOf", JArr six_alternatives)]
    = Some (JArr six_alternatives) ∧
  node_at [] y = Some y ∧
  ∃ d' l', y = JObj d' ∧ dict_get "anyOf" d' = Some (JArr l') ∧
    if reached []
    then Forall2 (λ a a', simplify_schema_for_llm a = Ok a')
           (if (5 <? length six_alternatives)%nat
            then take 3 six_alternatives else six_alternatives) l' ∧
         length l' = (if (5 <? length six_alternatives)%nat
                      then 3 else length six_alternatives)
    else l' = six_alternatives.
Proof.
  do 4 (split; [reflexivity|]).
  apply (anyOf_rule_at_nodes
           (JObj [("anyOf", JArr six_alternatives)])
           (JObj [("anyOf", JArr [JObj []; JNull; JNull])])
           [] [("anyOf", JArr six_alternatives)] six_alternatives);
    reflexivity.
Defined.

(* C2 as the specification words it fails at the root of this document: the list
   is cut to three entries, but they are not the original first three. *)
Lemma truncated_entries_are_simplified :
  let x := JObj [("anyOf", JArr six_alternatives)] in
  ∃ l', simplify_schema_for_llm x = Ok (JObj [("anyOf", JArr l')]) ∧
        (5 < length six_alternatives)%nat ∧
        length l' = 3 ∧
        l' = [JObj []; JNull; JNull] ∧
        l' ≠ take 3 six_alternatives.
Proof.
  exists [JObj []; JNull; JNull].
  repeat split; [vm_compute; lia | discriminate].
Qed.




(** * The scenario of the specification *)

(** C4 (amended).  For any sub-schemas s1..s7 and any string p of 60
    characters, the transform applied to
    {"pattern": p, "anyOf": [s1..s7]} removes the pattern key and cuts the
    union to its first 3 entries, each of them handed to the transform: the
    outcome is {"anyOf": [s1', s2', s3']} where si' is si recursively
    simplified (si itself when si is not a mapping), or the exception
    raised by simplifying s1, s2 or s3.  It is exactly
    {"anyOf": [s1, s2, s3]} when the transform leaves s1, s2 and s3
    unchanged.  s4..s7 are never looked at. *)
Theorem scenario_pattern_and_union p s1 s2 s3 s4 s5 s6 s7 :
  String.length p = 60 →
  simplify_schema_for_llm
    (JObj [("pattern", JStr p); ("anyOf", JArr [s1; s2; s3; s4; s5; s6; s7])])
  = (l' ← mapM simplify_schema_for_llm [s1; s2; s3];
     mret (JObj [("anyOf", JArr l')])) ∧
  (simplify_schema_for_llm s1 = Ok s1 →
   simplify_schema_for_llm s2 = Ok s2 →
   simplify_schema_for_llm s3 = Ok s3 →
   simplify_schema_for_llm
     (JObj [("pattern", JStr p); ("anyOf", JArr [s1; s2; s3; s4; s5; s6; s7])])
   = Ok (JObj [("anyOf", JArr [s1; s2; s3])])).
Proof.
  intros Hp.
  assert (simplify_schema_for_llm
    (JObj [("pattern", JStr p); ("anyOf", JArr [s1; s2; s3; s4; s5; s6; s7])])
  = (l' ← mapM simplify_schema_for_llm [s1; s2; s3];
     mret (JObj [("anyOf", JArr l')]))) as Heq.
  { rewrite simplify_obj. rewrite drop_long_pattern_unfold. simpl. rewrite Hp. simpl.
    rewrite !simplify_item_eq.
    destruct (simplify_schema_for_llm s1); simpl; [|done].
    destruct (simplify_schema_for_llm s2); simpl; [|done].
    by destruct (simplify_schema_for_llm s3). }
  split; [done|]. intros H1 H2 H3. rewrite Heq. simpl.
  by rewrite H1, H2, H3.
Qed.

Lemma scenario_pattern_and_union_witness :
  String.length a60 = 60 ∧
  simplify_schema_for_llm
    (JObj [("pattern", JStr a60);
           ("anyOf", JArr [JInt 1; JInt 2; JInt 3; JInt 4; JInt 5; JInt 6; JInt 7])])
  = Ok (JObj [("anyOf", JArr [JInt 1; JInt 2; JInt 3])]).
Proof.
  split; [reflexivity|].
  apply (scenario_pattern_and_union a60
           (JInt 1) (JInt 2) (JInt 3) (JInt 4) (JInt 5) (JInt 6) (JInt 7));
    reflexivity.
Defined.

(* C4 as the specification words it, for any sub-schemas, fails when one of the
   first three is changed by the transform. *)
Lemma scenario_entries_not_unchanged :
  let s1 := JObj [("pattern", JStr a60)] in
  String.length a60 = 60 ∧
  simplify_schema_for_llm
    (JObj [("pattern", JStr a60);
           ("anyOf", JArr [s1; JNull; JNull; JNull; JNull; JNull; JNull])])
  = Ok (JObj [("anyOf", JArr [JObj []; JNull; JNull])]) ∧
  simplify_schema_for_llm
    (JObj [("pattern", JStr a60);
           ("anyOf", JArr [s1; JNull; JNull; JNull; JNull; JNull; JNull])])
  ≠ Ok (JObj [("anyOf", JArr [s1; JNull; JNull])]).
Proof.
  split; [reflexivity|]. split; [reflexivity|]. vm_compute. discriminate.
Qed.

(** * Exceptions and totality *)

Lemma len_Raise v e : len v = Raise e → e = TypeError_no_len.
Proof. destruct v; simpl; congruence. Qed.

Lemma simplify_pattern_no_len d v e :
  dict_get "pattern" d = Some v → len v = Raise e →
  simplify_schema_for_llm (JObj d) = Raise TypeError_no_len.
Proof.
  intros Hv He. rewrite simplify_obj. rewrite drop_long_pattern_unfold.
  rewrite Hv, He. simpl. by rewrite (len_Raise _ _ He).
Qed.

Lemma simplify_anyOf_no_len d v e :
  dict_get "anyOf" d = Some v → len v = Raise e →
  raises (simplify_schema_for_llm (JObj d)).
Proof.
  intros Hv He. rewrite simplify_obj.
  destruct (drop_long_pattern d) as [d1|e1] eqn:Hd1; [|by eexists].
  simpl. rewrite truncate_anyOf_unfold.
  rewrite (drop_long_pattern_get_ne d d1), Hv, He by done. by eexists.
Qed.

Lemma simplify_anyOf_mapping d a :
  dict_get "anyOf" d = Some (JObj a) → (5 < length a)%nat →
  raises (simplify_schema_for_llm (JObj d)).
Proof.
  intros Hv Hlt. rewrite simplify_obj.
  destruct (drop_long_pattern d) as [d1|e1] eqn:Hd1; [|by eexists].
  simpl. rewrite truncate_anyOf_unfold.
  rewrite (drop_long_pattern_get_ne d d1), Hv by done. simpl.
  rewrite (proj2 (Nat.ltb_lt _ _) Hlt). by eexists.
Qed.

Lemma bind_raises {A B} (m : result A) (f : A → result B) :
  raises m → raises (m ≫= f).
Proof. intros [e ->]. by eexists. Qed.

(* An exception at a node the recursion arrives at is an exception of the
   whole run (that one or an earlier one). *)
Lemma visits_raises x n :
  visits x n → raises (simplify_schema_for_llm n) →
  raises (simplify_schema_for_llm x).
Proof.
  induction 1 as [x|d d1 d2 k e n Hd1 Hd2 Hin _ IH
                   |d d1 d2 k l e n Hd1 Hd2 Hin He _ IH]; intros Hn; [done| |].
  - rewrite simplify_obj, Hd1. simpl. rewrite Hd2. simpl.
    apply bind_raises. unfold simplify_entries.
    eapply mapM_raises; [exact Hin|]. simpl. apply bind_raises. by apply IH.
  - rewrite simplify_obj, Hd1. simpl. rewrite Hd2. simpl.
    apply bind_raises. unfold simplify_entries.
    eapply mapM_raises; [exact Hin|]. simpl. apply bind_raises.
    destruct (mapM_raises (simplify_item simplify_schema_for_llm) l (JObj e))
      as [e' ->]; [done| |by eexists].
    simpl. by apply IH.
Qed.

Lemma simplify_long_pattern_deleted d v n b :
  dict_get "pattern" d = Some v → len v = Ok n → (50 < n)%nat →
  simplify_schema_for_llm (JObj d) = Ok b →
  ∃ d', b = JObj d' ∧ dict_get "pattern" d' = None.
Proof.
  intros Hv Hn Hlt (d1 & d2 & d3 & Hd1 & Hd2 & Hd3 & ->)%simplify_obj_inv.
  exists d3. split; [done|].
  pose proof (simplify_entries_get _ _ _ "pattern" Hd3) as H3.
  rewrite (truncate_anyOf_get_ne d1 d2) in H3 by done.
  pose proof (drop_long_pattern_get _ _ Hd1) as H1. rewrite Hv in H1.
  destruct H1 as (n' & Hn' & H1). assert (n' = n) as -> by congruence.
  rewrite (proj2 (Nat.ltb_lt _ _) Hlt) in H1. by rewrite H1 in H3.
Qed.

Lemma forallb_elem {A} (f : A → bool) (l : list A) :
  forallb f l = true ↔ ∀ x, x ∈ l → f x = true.
Proof.
  rewrite forallb_forall. by setoid_rewrite list_elem_of_In.
Qed.

Lemma well_typed_obj d :
  well_typed (JObj d) = true ↔
  is_str_or_absent (dict_get "pattern" d) = true ∧
  is_list_or_absent (dict_get "anyOf" d) = true ∧
  ∀ k v, (k, v) ∈ d → well_typed v = true.
Proof.
  simpl. rewrite !andb_true_iff, forallb_elem. split.
  - intros [[Hp Ha] Hd]. repeat split; try done.
    intros k v Hkv. by apply (Hd (k, v)).
  - intros (Hp & Ha & Hd). repeat split; try done. intros [k v]. apply Hd.
Qed.

Lemma truncate_anyOf_elem_inv d1 d2 k v :
  truncate_anyOf d1 = Ok d2 → (k, v) ∈ d2 →
  (k, v) ∈ d1 ∨ ∃ a, dict_get "anyOf" d1 = Some a ∧ slice_to 3 a = Ok v.
Proof.
  intros Hd2 Hkv. apply truncate_anyOf_inv in Hd2
    as [[_ ->]|[(a & n & _ & _ & _ & ->)|(a & n & a' & Ha & _ & _ & Ha' & ->)]];
    try by left.
  apply dict_set_elem in Hkv as [?|[-> ->]]; [by left|]. right. eauto.
Qed.

Lemma well_typed_returns_aux n :
  ∀ x, size x ≤ n → well_typed x = true →
       returns (simplify_schema_for_llm x).
Proof.
  induction n as [|n IH]; intros x Hn Hx.
  { pose proof (size_pos x). lia. }
  destruct x as [| | | | | |d];
    try (rewrite simplify_not_obj by done; by eexists).
  apply well_typed_obj in Hx as (Hp & Ha & Hd).
  rewrite simplify_obj.
  assert (∃ d1, drop_long_pattern d = Ok d1) as [d1 Hd1].
  { rewrite drop_long_pattern_unfold.
    destruct (dict_get "pattern" d) as [[]|]; try done; by eexists. }
  rewrite Hd1. simpl.
  assert (∃ d2, truncate_anyOf d1 = Ok d2) as [d2 Hd2].
  { rewrite truncate_anyOf_unfold. rewrite (drop_long_pattern_get_ne d d1) by done.
    destruct (dict_get "anyOf" d) as [[]|]; try done; simpl;
      try case_match; by eexists. }
  rewrite Hd2. simpl.
  assert (returns (simplify_entries simplify_schema_for_llm d2)) as [d3 ->];
    [|by eexists].
  apply mapM_returns. intros [k v] Hkv. simpl.
  assert (well_typed v = true ∧ size v < size (JObj d)) as [Hv Hsz].
  { split.
    - destruct (truncate_anyOf_elem_inv _ _ _ _ Hd2 Hkv)
        as [Hin|(a & Ha1 & Hs)].
      + eapply Hd, drop_long_pattern_elem; done.
      + rewrite (drop_long_pattern_get_ne d d1) in Ha1 by done.
        pose proof (Hd _ _ (dict_get_Some_elem _ _ _ Ha1)) as Hwa.
        destruct a; try done; injection Hs as <-; [done|].
        simpl in *. rewrite forallb_elem in *.
        intros x (i & Hi%list_elem_of_lookup_2 & _)%elem_of_take. auto.
    - destruct (truncate_anyOf_elem _ _ _ _ Hd2 Hkv) as (v0 & Hv0 & Hle).
      apply (drop_long_pattern_elem _ _ _ _ Hd1), size_elem_obj in Hv0. lia. }
  assert (returns (simplify_value simplify_schema_for_llm v)) as [v' ->];
    [|by eexists].
  destruct v as [| | | | |l|e]; try by eexists.
  - simpl.
    assert (returns (mapM (simplify_item simplify_schema_for_llm) l))
      as [l' ->]; [|by eexists].
    apply mapM_returns. intros item Hitem. rewrite simplify_item_eq.
    apply IH.
    + apply size_elem_arr in Hitem. simpl in *. lia.
    + simpl in Hv. rewrite forallb_elem in Hv. auto.
  - simpl. apply IH; [simpl in *; lia | done].
Qed.

Lemma well_typed_returns x :
  well_typed x = true → returns (simplify_schema_for_llm x).
Proof. by apply (well_typed_returns_aux (size x)). Qed.

Lemma mapM_Raise {A B} (f : A → result B) (l : list A) (e : exn) :
  mapM f l = Raise e → ∃ x, x ∈ l ∧ f x = Raise e.
Proof.
  induction l as [|y l IH]; [done|]. simpl.
  destruct (f y) as [b|e'] eqn:Hy; simpl.
  - destruct (mapM f l) as [k|e'] eqn:Hl; [done|]. intros [= ->].
    destruct IH as (x & Hx & Hfx); [done|]. exists x. split; [by right | done].
  - intros [= ->]. exists y. split; [by left | done].
Qed.

(* The only exceptions of the transform are those of len and of the slice
   of a mapping: in particular the bound on the call stack that the
   definition of [simplify_schema_for_llm] goes through is never hit. *)
Lemma simplify_exceptions_aux n :
  ∀ x e, size x ≤ n → simplify_schema_for_llm x = Raise e →
         e = TypeError_no_len ∨ e = Slice_of_dict.
Proof.
  induction n as [|n IH]; intros x e Hn.
  { pose proof (size_pos x). lia. }
  destruct x as [| | | | | |d]; try by rewrite simplify_not_obj.
  rewrite simplify_obj.
  destruct (drop_long_pattern d) as [d1|e1] eqn:Hd1; simpl.
  2:{ intros [= <-]. left. rewrite drop_long_pattern_unfold in Hd1.
      destruct (dict_get "pattern" d) as [p|]; [|done].
      destruct (len p) eqn:Hp; [done|]. injection Hd1 as <-.
      by eapply len_Raise. }
  destruct (truncate_anyOf d1) as [d2|e2] eqn:Hd2; simpl.
  2:{ intros [= <-]. rewrite truncate_anyOf_unfold in Hd2.
      destruct (dict_get "anyOf" d1) as [a|]; [|done].
      destruct (len a) as [m|] eqn:Ha; simpl in Hd2.
      - destruct (5 <? m)%nat; [|done].
        destruct a; try done. simpl in Hd2. injection Hd2 as <-. by right.
      - injection Hd2 as <-. left. by eapply len_Raise. }
  destruct (simplify_entries simplify_schema_for_llm d2) as [d3|e3] eqn:Hd3;
    [done|]. simpl. intros [= <-].
  apply mapM_Raise in Hd3 as ([k v] & Hkv & Hv). simpl in Hv.
  destruct (simplify_value simplify_schema_for_llm v) as [v'|e'] eqn:Hv';
    [done|]. injection Hv as <-.
  assert (size v < size (JObj d)) as Hsz.
  { destruct (truncate_anyOf_elem _ _ _ _ Hd2 Hkv) as (v0 & Hv0 & Hle).
    apply (drop_long_pattern_elem _ _ _ _ Hd1), size_elem_obj in Hv0. lia. }
  destruct v as [| | | | |l|e0]; try done.
  - simpl in Hv'.
    destruct (mapM (simplify_item simplify_schema_for_llm) l) eqn:Hl; [done|].
    injection Hv' as <-. apply mapM_Raise in Hl as (item & Hitem & Hi).
    rewrite simplify_item_eq in Hi. eapply IH; [|done].
    apply size_elem_arr in Hitem. simpl in *. lia.
  - simpl in Hv'. eapply IH; [|done]. simpl in *. lia.
Qed.

Lemma simplify_exceptions x e :
  simplify_schema_for_llm x = Raise e →
  e = TypeError_no_len ∨ e = Slice_of_dict.
Proof. by apply (simplify_exceptions_aux (size x)). Qed.

Lemma simplify_never_overflows x :
  simplify_schema_for_llm x ≠ Raise RecursionError.
Proof. by intros [?|?]%simplify_exceptions. Qed.

(** * Mappings keep pairwise distinct keys *)

Lemma wf_json_arr l : wf_json (JArr l) ↔ ∀ x, x ∈ l → wf_json x.
Proof.
  simpl. induction l as [|y l IH]; simpl.
  - split; [intros _ x Hx; by apply elem_of_nil in Hx | done].
  - rewrite IH. setoid_rewrite elem_of_cons. naive_solver.
Qed.

Lemma wf_json_obj d :
  wf_json (JObj d) ↔ NoDup d.*1 ∧ ∀ k v, (k, v) ∈ d → wf_json v.
Proof.
  simpl. apply and_iff_compat_l. induction d as [|[k0 v0] d IH]; simpl.
  - split; [intros _ k v Hx; by apply elem_of_nil in Hx | done].
  - rewrite IH. setoid_rewrite elem_of_cons. naive_solver.
Qed.

Lemma slice_to_wf n x y : wf_json x → slice_to n x = Ok y → wf_json y.
Proof.
  destruct x; try done; simpl; intros Hx [= <-]; [done|].
  apply wf_json_arr. intros x (i & Hi%list_elem_of_lookup_2 & _)%elem_of_take.
  by apply (proj1 (wf_json_arr l)).
Qed.

Lemma simplify_wf_aux n :
  ∀ x y, size x ≤ n → wf_json x → simplify_schema_for_llm x = Ok y →
         wf_json y.
Proof.
  induction n as [|n IH]; intros x y Hn Hx.
  { pose proof (size_pos x). lia. }
  destruct x as [| | | | | |d];
    try (rewrite simplify_not_obj by done; by intros [= <-]).
  intros Hy.
  pose proof (simplify_obj_inv _ _ Hy) as (d1 & d2 & d3 & Hd1 & Hd2 & Hd3 & ->).
  apply wf_json_obj in Hx as [Hkeys Hvals]. apply wf_json_obj. split.
  - rewrite (simplify_entries_keys _ _ _ Hd3).
    assert (NoDup d1.*1) as Hk1.
    { apply drop_long_pattern_inv in Hd1 as [[_ ->]|(p & m & _ & _ & ->)];
        [done|]. case_match; [by apply dict_del_NoDup | done]. }
    apply truncate_anyOf_inv in Hd2
      as [[_ ->]|[(a & m & _ & _ & _ & ->)|(a & m & a' & Ha & _ & _ & _ & ->)]];
      try done.
    pose proof (dict_set_keys_present d1 "anyOf" a' a Ha) as Hset.
    unfold dict_keys in Hset. by rewrite Hset.
  - intros k v3 Hkv3. apply simplify_entries_Ok in Hd3.
    destruct (Forall2_elem_r _ _ _ _ Hd3 Hkv3) as ([k2 v2] & Hkv2 & _ & Hv3).
    simpl in Hv3.
    assert (wf_json v2 ∧ size v2 < size (JObj d)) as [Hwf2 Hsz].
    { split.
      - destruct (truncate_anyOf_elem_inv _ _ _ _ Hd2 Hkv2)
          as [Hin|(a & Ha & Hs)].
        + eapply Hvals, drop_long_pattern_elem; done.
        + rewrite (drop_long_pattern_get_ne d d1) in Ha by done.
          eapply slice_to_wf; [|done].
          eapply Hvals, dict_get_Some_elem; done.
      - destruct (truncate_anyOf_elem _ _ _ _ Hd2 Hkv2) as (v0 & Hv0 & Hle).
        apply (drop_long_pattern_elem _ _ _ _ Hd1), size_elem_obj in Hv0.
        lia. }
    destruct v2 as [| | | | |l|e]; try by injection Hv3 as <-.
    + simpl in Hv3. apply fmap_Ok in Hv3 as (l' & Hl'%mapM_Ok & ->).
      apply wf_json_arr. intros item' Hitem'.
      destruct (Forall2_elem_r _ _ _ _ Hl' Hitem') as (item & Hitem & Hs).
      rewrite simplify_item_eq in Hs. eapply (IH item); [|by apply (proj1 (wf_json_arr l))|done].
      apply size_elem_arr in Hitem. simpl in *. lia.
    + simpl in Hv3. eapply (IH (JObj e)); [|done..]. simpl in *. lia.
Qed.

(* The image of a document whose mappings have pairwise distinct keys is
   such a document. *)
Lemma simplify_wf x y :
  wf_json x → simplify_schema_for_llm x = Ok y → wf_json y.
Proof. by apply (simplify_wf_aux (size x)). Qed.

(** * Where the transform raises and where it cannot *)

(** C10 (amended).  [simplify_schema_for_llm] is not total over arbitrary
    JSON-like inputs.  When the recursion arrives at a mapping node whose
    'pattern' key holds a value without a length (a number, a boolean or
    null), the call on that node raises a TypeError and the transform
    raises; the transform also raises when the 'anyOf' key of such a node
    holds a value without a length or a mapping with more than 5 keys.  If
    the 'pattern' key of a node the recursion gets to holds any sized value
    (a string, but also a list or a mapping) with more than 50 elements,
    that key is deleted.  Under the precondition that every 'pattern' value
    is a string and every 'anyOf' value is a list, the transform is
    total. *)
Theorem simplify_partial :
  (∀ x d v,
     visits x (JObj d) →
     dict_get "pattern" d = Some v → len v = Raise TypeError_no_len →
     simplify_schema_for_llm (JObj d) = Raise TypeError_no_len ∧
     raises (simplify_schema_for_llm x)) ∧
  (∀ x d v,
     visits x (JObj d) →
     dict_get "anyOf" d = Some v →
     (len v = Raise TypeError_no_len ∨ ∃ a, v = JObj a ∧ (5 < length a)%nat) →
     raises (simplify_schema_for_llm x)) ∧
  (∀ x y p d b v n,
     simplify_schema_for_llm x = Ok y → reached p = true →
     node_at p x = Some (JObj d) → node_at p y = Some b →
     dict_get "pattern" d = Some v → len v = Ok n → (50 < n)%nat →
     ∃ d', b = JObj d' ∧ dict_get "pattern" d' = None) ∧
  (∀ x, well_typed x = true → returns (simplify_schema_for_llm x)).
Proof.
  repeat apply conj.
  - intros x d v Hvis Hv Hlen.
    pose proof (simplify_pattern_no_len _ _ _ Hv Hlen) as Hd.
    split; [done|]. eapply visits_raises; [done|]. by eexists.
  - intros x d v Hvis Hv Hbad. eapply visits_raises; [done|].
    destruct Hbad as [Hlen|(a & -> & Hlt)].
    + by eapply simplify_anyOf_no_len.
    + by eapply simplify_anyOf_mapping.
  - intros x y p d b v n Hxy Hp Hd Hb Hv Hn Hlt.
    pose proof (simplify_node_at _ _ _ _ _ Hxy Hd Hb) as H.
    rewrite Hp in H. by eapply simplify_long_pattern_deleted.
  - apply well_typed_returns.
Qed.

Lemma simplify_partial_witness :
  (* a 'pattern' that is null, in an element of a list under a key *)
  raises (simplify_schema_for_llm
            (JObj [("allOf", JArr [JObj [("pattern", JNull)]])])) ∧
  (* an 'anyOf' that is a mapping of six keys *)
  raises (simplify_schema_for_llm
            (JObj [("anyOf", JObj [("a", JNull); ("b", JNull); ("c", JNull);
                                   ("d", JNull); ("e", JNull); ("f", JNull)])])) ∧
  (* a 'pattern' that is a list of 51 elements *)
  (∃ d', JObj [] = JObj d' ∧ dict_get "pattern" d' = None) ∧
  (* a well-typed document *)
  returns (simplify_schema_for_llm
             (JObj [("pattern", JStr a60); ("anyOf", JArr six_alternatives)])).
Proof.
  destruct simplify_partial as (Hpattern & HanyOf & Hsized & Htotal).
  repeat apply conj.
  - apply (Hpattern _ [("pattern", JNull)] JNull); [|reflexivity..].
    apply (visits_item [("allOf", JArr [JObj [("pattern", JNull)]])]
             [("allOf", JArr [JObj [("pattern", JNull)]])]
             [("allOf", JArr [JObj [("pattern", JNull)]])]
             "allOf" [JObj [("pattern", JNull)]] [("pattern", JNull)]);
      [reflexivity | reflexivity | by apply list_elem_of_singleton
      | by apply list_elem_of_singleton | apply visits_here].
  - eapply (HanyOf _ _ _ (visits_here _)); [done|]. right.
    eexists. split; [done|]. simpl. lia.
  - apply (Hsized (JObj [("pattern", JArr fifty_one_nulls)]) (JObj []) []
             [("pattern", JArr fifty_one_nulls)] (JObj [])
             (JArr fifty_one_nulls) 51%nat); try reflexivity.
    vm_compute. lia.
  - by apply Htotal.
Defined.

(* C10 as the specification words it fails twice.  A document all of whose
   'pattern' values are strings can still make the transform raise; and a
   'pattern' without a length does no harm in a mapping node the recursion
   never arrives at. *)
Lemma simplify_partial_counterexample :
  (patterns_are_strings (JObj [("anyOf", JInt 5)]) = true ∧
   simplify_schema_for_llm (JObj [("anyOf", JInt 5)])
   = Raise TypeError_no_len) ∧
  (let node := JObj [("pattern", JNull)] in
   let x := JObj [("anyOf", JArr [JNull; JNull; JNull; JNull; JNull; node])] in
   node_at [Key "anyOf"; Idx 5] x = Some node ∧
   len JNull = Raise TypeError_no_len ∧
   simplify_schema_for_llm x = Ok (JObj [("anyOf", JArr [JNull; JNull; JNull])])).
Proof. repeat split. Qed.

(** * Runs *)

Lemma run_outcome {A} (r : world * result A) (a : A) :
  r.2 = Ok a → r = (r.1, Ok a).
Proof. destruct r as [w o]. simpl. by intros ->. Qed.

Lemma world_eta w : {| files := files w; console := console w |} = w.
Proof. by destruct w. Qed.

(** * What stdout takes *)

Lemma printable_error_check E name e :
  printable E (Msg_error name e) = true →
  printable E (Msg_extracted name) = true.
Proof. unfold printable. by destruct (stdout_marks E). Qed.

Lemma print_run E l w :
  print E l w =
  if printable E l
  then ({| files := files w; console := console w ++ [l] |}, Ok ())
  else (w, Raise UnicodeEncodeError).
Proof. reflexivity. Qed.

(** * One turn of the loop of [extract_schemas] *)

Lemma extract_one_run E name m w d :
  extract_one E name m (w, d) =
  (({| files := match file_effect E name m with
                | Some c => <[schema_file name := c]> (files w)
                | None => files w
                end;
       console := if turn_passes E (name, m)
                  then console w ++ [report E name m] else console w |},
    match attempt E name m with
    | Ok x => dict_set name x d
    | Raise _ => d
    end),
   if turn_passes E (name, m) then Ok () else Raise UnicodeEncodeError).
Proof.
  destruct w as [fs co].
  unfold extract_one, try_except, turn_passes, report, attempt, file_effect,
    lift, outside, store, write_json, print, printable.
  unfold mbind, st_bind. cbn [fst snd files console].
  destruct (model_json_schema E m) as [schema|e]; simpl.
  - destruct (simplify_schema_for_llm schema) as [x|e]; simpl.
    + destruct (dump E (schema_file name) x) as [|e|e]; simpl.
      * destruct (stdout_marks E); simpl; try done.
      * destruct (has_cross (stdout_marks E)); simpl; [|done].
        by destruct (stdout_text E (Msg_error name e)).
      * destruct (has_cross (stdout_marks E)); simpl; [|done].
        by destruct (stdout_text E (Msg_error name e)).
    + destruct (has_cross (stdout_marks E)); simpl; [|done].
      by destruct (stdout_text E (Msg_error name e)).
  - destruct (has_cross (stdout_marks E)); simpl; [|done].
    by destruct (stdout_text E (Msg_error name e)).
Qed.

(** * The loop of [extract_schemas] *)

Lemma extract_loop_run E ms :
  ∀ w d,
    extract_loop E ms (w, d) =
    (({| files := loop_files E ms (files w);
         console := console w ++ loop_lines E ms |}, loop_dict E ms d),
     if loop_completes E ms then Ok () else Raise UnicodeEncodeError).
Proof.
  induction ms as [|[name m] ms IH]; intros w d.
  { simpl. by rewrite app_nil_r, world_eta. }
  cbn [extract_loop]. unfold mbind, st_bind. rewrite extract_one_run.
  cbn [loop_files loop_lines loop_dict loop_completes forallb fst snd].
  destruct (turn_passes E (name, m)); cbn [andb].
  - rewrite IH. cbn [files console]. by rewrite <- app_assoc.
  - by rewrite app_nil_r.
Qed.

Lemma loop_completes_spec E ms :
  loop_completes E ms = true ↔
  ∀ nm, nm ∈ ms → printable E (report E nm.1 nm.2) = true.
Proof. unfold loop_completes. by rewrite forallb_elem. Qed.

Lemma loop_lines_complete E ms :
  loop_completes E ms = true →
  loop_lines E ms = (λ nm, report E nm.1 nm.2) <$> ms.
Proof.
  unfold loop_completes. induction ms as [|nm ms IH]; [done|].
  cbn [forallb loop_lines]. intros [-> Hms]%andb_true_iff.
  by rewrite fmap_cons, IH.
Qed.

Lemma loop_dict_complete E ms :
  ∀ d, loop_completes E ms = true →
  loop_dict E ms d
  = foldl (λ ex nm, match attempt E nm.1 nm.2 with
                    | Ok x => dict_set nm.1 x ex
                    | Raise _ => ex
                    end) d ms.
Proof.
  unfold loop_completes. induction ms as [|nm ms IH]; intros d; [done|].
  cbn [forallb loop_dict foldl]. intros [-> Hms]%andb_true_iff.
  by rewrite IH.
Qed.

Lemma entered_complete E ms :
  loop_completes E ms = true → entered E ms = ms.
Proof.
  unfold loop_completes. induction ms as [|nm ms IH]; [done|].
  cbn [forallb entered]. intros [-> Hms]%andb_true_iff. by rewrite IH.
Qed.

Lemma entered_elem E ms nm : nm ∈ entered E ms → nm ∈ ms.
Proof.
  induction ms as [|nm0 ms IH]; [done|]. cbn [entered].
  intros [->|Hin]%elem_of_cons; [by left|]. right.
  destruct (turn_passes E nm0); [by apply IH | by apply elem_of_nil in Hin].
Qed.

Lemma loop_files_frame E ms :
  ∀ fs f, (∀ nm, nm ∈ ms → schema_file nm.1 ≠ f) →
  loop_files E ms fs !! f = fs !! f.
Proof.
  induction ms as [|nm ms IH]; intros fs f Hf; [done|].
  cbn [loop_files].
  assert (match file_effect E nm.1 nm.2 with
          | Some c => <[schema_file nm.1 := c]> fs
          | None => fs
          end !! f = fs !! f) as Hhead.
  { destruct (file_effect E nm.1 nm.2); [|done].
    rewrite lookup_insert_ne; [done|]. apply Hf. by left. }
  destruct (turn_passes E nm); [|done].
  rewrite IH; [done|]. intros nm' Hnm'. apply Hf. by right.
Qed.

Lemma loop_files_lookup E ms :
  NoDup ((λ nm : string * model, schema_file nm.1) <$> ms) →
  ∀ fs nm, nm ∈ ms →
  loop_files E ms fs !! schema_file nm.1 =
  if decide (nm ∈ entered E ms)
  then match file_effect E nm.1 nm.2 with
       | Some c => Some c
       | None => fs !! schema_file nm.1
       end
  else fs !! schema_file nm.1.
Proof.
  induction ms as [|nm0 ms IH]; intros Hnd fs nm Hnm.
  { by apply elem_of_nil in Hnm. }
  rewrite fmap_cons, NoDup_cons in Hnd. destruct Hnd as [Hnm0 Hnd].
  cbn [loop_files entered].
  apply elem_of_cons in Hnm as [->|Hnm].
  - rewrite decide_True by left.
    assert (loop_files E ms
              match file_effect E nm0.1 nm0.2 with
              | Some c => <[schema_file nm0.1 := c]> fs
              | None => fs
              end !! schema_file nm0.1
            = match file_effect E nm0.1 nm0.2 with
              | Some c => <[schema_file nm0.1 := c]> fs
              | None => fs
              end !! schema_file nm0.1) as Hrest.
    { apply loop_files_frame. intros nm' Hnm' Heq. apply Hnm0.
      rewrite <- Heq. by apply (list_elem_of_fmap_2 (λ nm, schema_file nm.1)). }
    destruct (turn_passes E nm0); [rewrite Hrest|];
      destruct (file_effect E nm0.1 nm0.2); by rewrite ?lookup_insert_eq.
  - assert (schema_file nm0.1 ≠ schema_file nm.1) as Hne.
    { intros Heq. apply Hnm0. rewrite Heq.
      by apply (list_elem_of_fmap_2 (λ nm, schema_file nm.1)). }
    assert (nm ≠ nm0) as Hne' by (by intros ->).
    assert (match file_effect E nm0.1 nm0.2 with
            | Some c => <[schema_file nm0.1 := c]> fs
            | None => fs
            end !! schema_file nm.1 = fs !! schema_file nm.1) as Hhead.
    { destruct (file_effect E nm0.1 nm0.2); [|done].
      by rewrite lookup_insert_ne. }
    destruct (turn_passes E nm0).
    + rewrite (IH Hnd _ nm Hnm), Hhead.
      destruct (decide (nm ∈ entered E ms)) as [Hin|Hout].
      * by rewrite decide_True by by right.
      * rewrite decide_False; [done|].
        by intros [?|?]%elem_of_cons.
    + rewrite Hhead, decide_False; [done|].
      intros [?|Hin]%elem_of_cons; [done|]. by apply elem_of_nil in Hin.
Qed.

Lemma foldl_successes E ms :
  ∀ ex, NoDup ms.*1 → (∀ nm, nm ∈ ms → nm.1 ∉ dict_keys ex) →
  foldl (λ ex nm, match attempt E nm.1 nm.2 with
                  | Ok x => dict_set nm.1 x ex
                  | Raise _ => ex
                  end) ex ms
  = ex ++ successes E ms.
Proof.
  induction ms as [|[name m] ms IH]; intros ex Hnodup Hfresh.
  { simpl. by rewrite app_nil_r. }
  rewrite fmap_cons, NoDup_cons in Hnodup. destruct Hnodup as [Hname Hnodup].
  simpl in *. unfold successes. simpl.
  destruct (attempt E name m) as [x|e] eqn:Hx.
  - rewrite IH.
    + rewrite dict_set_absent.
      * by rewrite <- app_assoc.
      * apply dict_get_None. apply (Hfresh (name, m)). by left.
    + done.
    + intros nm Hnm. rewrite dict_set_absent.
      * unfold dict_keys. rewrite fmap_app, not_elem_of_app. split.
        -- apply Hfresh. by right.
        -- simpl. rewrite list_elem_of_singleton. intros Heq.
           apply Hname. rewrite <- Heq. by apply list_elem_of_fmap_2.
      * apply dict_get_None. apply (Hfresh (name, m)). by left.
  - apply IH; [done|]. intros nm Hnm. apply Hfresh. by right.
Qed.

Lemma loop_dict_successes E ms :
  NoDup ms.*1 → loop_completes E ms = true →
  loop_dict E ms [] = successes E ms.
Proof.
  intros Hnd Hall. rewrite loop_dict_complete, foldl_successes; try done.
  intros nm _. apply not_elem_of_nil.
Qed.

(** * The schemas the loop stores *)

Lemma successes_elem E ms name x :
  (name, x) ∈ successes E ms ↔
  ∃ m, (name, m) ∈ ms ∧ attempt E name m = Ok x.
Proof.
  unfold successes. rewrite list_elem_of_omap. split.
  - intros ([n m] & Hnm & Hx). simpl in Hx.
    destruct (attempt E n m) eqn:Ha; [|done]. injection Hx as <- <-. eauto.
  - intros (m & Hm & Hx). exists (name, m). simpl. by rewrite Hx.
Qed.

Lemma successes_keys_sublist E ms :
  sublist (dict_keys (successes E ms)) ms.*1.
Proof.
  unfold dict_keys, successes. induction ms as [|[name m] ms IH]; [done|].
  simpl. destruct (attempt E name m); simpl.
  - by apply sublist_skip.
  - by apply sublist_cons.
Qed.

Lemma successes_NoDup E ms :
  NoDup ms.*1 → NoDup (dict_keys (successes E ms)).
Proof.
  intros H. eapply sublist_NoDup; [exact H|]. apply successes_keys_sublist.
Qed.

Lemma successes_keys E ms name :
  name ∈ dict_keys (successes E ms) ↔
  ∃ m, (name, m) ∈ ms ∧ returns (attempt E name m).
Proof.
  unfold dict_keys. rewrite list_elem_of_fmap. split.
  - intros ([n x] & -> & (m & ? & ?)%successes_elem). exists m.
    split; [done|]. by exists x.
  - intros (m & Hm & [x Hx]). exists (name, x). split; [done|].
    apply successes_elem. eauto.
Qed.

Lemma successes_get E ms name x :
  NoDup ms.*1 →
  dict_get name (successes E ms) = Some x ↔
  ∃ m, (name, m) ∈ ms ∧ attempt E name m = Ok x.
Proof.
  intros Hnodup. rewrite <- successes_elem. split.
  - apply dict_get_Some_elem.
  - apply dict_get_NoDup. by apply successes_NoDup.
Qed.

Lemma successes_all E ms :
  (∀ nm, nm ∈ ms → returns (attempt E nm.1 nm.2)) →
  length (successes E ms) = length ms.
Proof.
  unfold successes. induction ms as [|[name m] ms IH]; intros Hall; [done|].
  simpl. destruct (Hall (name, m)) as [x Hx]; [by left|]. simpl in Hx.
  rewrite Hx. simpl. f_equal. apply IH. intros nm Hnm. apply Hall. by right.
Qed.

Lemma successes_all_but_one E ms name m :
  NoDup ms.*1 → (name, m) ∈ ms → raises (attempt E name m) →
  (∀ nm, nm ∈ ms → nm.1 ≠ name → returns (attempt E nm.1 nm.2)) →
  S (length (successes E ms)) = length ms.
Proof.
  intros Hnodup (l1 & l2 & ->)%list_elem_of_split [e He] Hothers.
  rewrite fmap_app, fmap_cons in Hnodup. simpl in Hnodup.
  apply NoDup_app in Hnodup as (_ & Hl1 & [Hl2 _]%NoDup_cons).
  assert (successes E (l1 ++ (name, m) :: l2)
          = successes E l1 ++ successes E l2) as ->.
  { unfold successes. rewrite omap_app. simpl. by rewrite He. }
  rewrite !length_app. simpl.
  rewrite !successes_all; [lia| |].
  - intros nm Hnm. apply Hothers; [set_solver|].
    intros Heq. apply Hl2. rewrite <- Heq. by apply list_elem_of_fmap_2.
  - intros nm Hnm. apply Hothers; [set_solver|].
    intros Heq. apply (Hl1 nm.1); [by apply list_elem_of_fmap_2|].
    rewrite Heq. by left.
Qed.

(** * The registry *)

Lemma models_schema_files_NoDup :
  NoDup ((λ nm : string * model, schema_file nm.1) <$> models).
Proof. apply (bool_decide_unpack _). vm_compute. exact I. Qed.

Lemma models_NoDup : NoDup models.*1.
Proof. apply (bool_decide_unpack _). vm_compute. exact I. Qed.

Lemma models_files_distinct :
  Forall (λ nm : string * model,
            schema_file nm.1 ≠ combined_file ∧ schema_file nm.1 ≠ summary_file)
         models.
Proof. apply (bool_decide_unpack _). vm_compute. exact I. Qed.

Lemma models_length : length models = 18.
Proof. reflexivity. Qed.

Lemma file_locations_fresh names :
  ∀ acc, NoDup names → (∀ name, name ∈ names → name ∉ dict_keys acc) →
  foldl (λ d name, dict_set name (JStr (schema_file name)) d) acc names
  = acc ++ ((λ name, (name, JStr (schema_file name))) <$> names).
Proof.
  induction names as [|name names IH]; intros acc Hnodup Hfresh.
  { simpl. by rewrite app_nil_r. }
  apply NoDup_cons in Hnodup as [Hname Hnodup]. simpl.
  rewrite dict_set_absent by (apply dict_get_None, Hfresh; by left).
  rewrite IH; [by rewrite <- app_assoc | done |].
  intros n Hn. unfold dict_keys. rewrite fmap_app, not_elem_of_app. split.
  - apply Hfresh. by right.
  - simpl. rewrite list_elem_of_singleton. by intros ->.
Qed.

Lemma file_locations_NoDup names :
  NoDup names →
  file_locations names = (λ name, (name, JStr (schema_file name))) <$> names.
Proof.
  intros H. unfold file_locations. rewrite file_locations_fresh; try done.
  intros name _. apply not_elem_of_nil.
Qed.

Lemma summary_eq E extracted :
  NoDup (dict_keys extracted) →
  summary E extracted =
  JObj [("extracted_at", JStr (now_isoformat E));
        ("total_schemas", JInt (Z.of_nat (length (dict_keys extracted))));
        ("schema_names", JArr (JStr <$> dict_keys extracted));
        ("file_locations",
         JObj ((λ name, (name, JStr (schema_file name)))
               <$> dict_keys extracted))].
Proof.
  intros Hnodup. unfold summary. rewrite file_locations_NoDup by done.
  unfold dict_keys. by rewrite length_fmap.
Qed.


Lemma dict_get_named {A} (f : string → string) (ms : list (string * A)) name m :
  (name, m) ∈ ms →
  dict_get name ((λ nm : string * A, (nm.1, f nm.1)) <$> ms) = Some (f name).
Proof.
  induction ms as [|[n a] ms IH]; [by intros ?%elem_of_nil|].
  rewrite fmap_cons. simpl. intros Hin. case_decide as Hn; [by subst|].
  apply elem_of_cons in Hin as [[= -> ->]|Hin]; [done | by apply IH].
Qed.

(* The code names the 18 individual files as the specification does. *)
Lemma models_lowercased_file_names :
  (λ nm : string * model, (nm.1, schema_file nm.1)) <$> models
  = lowercased_file_names.
Proof. vm_compute. reflexivity. Qed.

Lemma schema_file_lowercased name m :
  (name, m) ∈ models →
  dict_get name lowercased_file_names = Some (schema_file name).
Proof.
  intros Hin. rewrite <- models_lowercased_file_names.
  by eapply dict_get_named.
Qed.

(** * The statements after the loop *)

Lemma after_loop_run E ex w :
  after_loop E ex w =
  match dump E combined_file (JObj ex) with
  | Not_opened e => (w, Raise e)
  | Interrupted e =>
      ({| files := <[combined_file := Unfinished]> (files w);
          console := console w |}, Raise e)
  | Written =>
      let fs := <[combined_file := Document (JObj ex)]> (files w) in
      if printable E (Msg_total (length ex)) then
        if printable E Msg_combined then
          let co := console w ++ [Msg_total (length ex); Msg_combined] in
          match dump E summary_file (summary E ex) with
          | Written =>
              ({| files := <[summary_file := Document (summary E ex)]> fs;
                  console := co |}, Ok ex)
          | Not_opened e => ({| files := fs; console := co |}, Raise e)
          | Interrupted e =>
              ({| files := <[summary_file := Unfinished]> fs;
                  console := co |}, Raise e)
          end
        else ({| files := fs;
                 console := console w ++ [Msg_total (length ex)] |},
              Raise UnicodeEncodeError)
      else ({| files := fs; console := console w |}, Raise UnicodeEncodeError)
  end.
Proof.
  unfold after_loop, write_json, print, mbind, st_bind, mret, st_ret.
  destruct (dump E combined_file (JObj ex)); cbn [files console]; try done.
  destruct (printable E (Msg_total (length ex))); [|done].
  cbn [files console].
  destruct (printable E Msg_combined); [|done].
  cbn [files console]. rewrite <- app_assoc. simpl.
  by destruct (dump E summary_file (summary E ex)).
Qed.

Lemma extract_schemas_of_unfold E ms w :
  extract_schemas_of E ms w =
  match mkdir E with
  | Raise e => (w, Raise e)
  | Ok _ =>
      let w1 := {| files := loop_files E ms (files w);
                   console := console w ++ loop_lines E ms |} in
      if loop_completes E ms
      then after_loop E (loop_dict E ms []) w1
      else (w1, Raise UnicodeEncodeError)
  end.
Proof.
  unfold extract_schemas_of, lift, mbind, st_bind.
  destruct (mkdir E) as [[]|e]; [|done].
  rewrite extract_loop_run. cbv zeta.
  destruct (loop_completes E ms); [|done].
  unfold current, outside, after_loop, mbind, st_bind, mret, st_ret.
  cbn [fst snd].
  destruct (write_json E combined_file _ _) as [w2 [[]|e]]; [|done].
  cbn [fst snd].
  destruct (print E (Msg_total _) w2) as [w3 [[]|e]]; [|done].
  cbn [fst snd].
  destruct (print E Msg_combined w3) as [w4 [[]|e]]; [|done].
  cbn [fst snd].
  by destruct (write_json E summary_file _ w4) as [w5 [[]|e]].
Qed.

Lemma after_loop_files E ex w f :
  f ≠ summary_file →
  files (after_loop E ex w).1 !! f =
  if decide (f = combined_file)
  then match write_effect (dump E combined_file (JObj ex)) (JObj ex) with
       | Some c => Some c
       | None => files w !! f
       end
  else files w !! f.
Proof.
  intros Hs. rewrite after_loop_run. cbv zeta.
  assert (∀ (c : content) (fs : gmap string content),
            <[combined_file := c]> fs !! f
            = if decide (f = combined_file) then Some c else fs !! f)
    as Hins.
  { intros c fs. case_decide; [subst; apply lookup_insert_eq|].
    by rewrite lookup_insert_ne. }
  destruct (dump E combined_file (JObj ex)); cbn [write_effect fst files].
  - destruct (printable E (Msg_total (length ex)));
      [|cbn [fst files]; by rewrite Hins].
    destruct (printable E Msg_combined); [|cbn [fst files]; by rewrite Hins].
    destruct (dump E summary_file (summary E ex)); cbn [fst files];
      rewrite ?(lookup_insert_ne _ summary_file) by done; by rewrite Hins.
  - by case_decide.
  - by rewrite Hins.
Qed.

Lemma after_loop_console E ex w :
  ∃ lines,
    console (after_loop E ex w).1 = console w ++ lines ∧
    (lines = [] ∨ lines = [Msg_total (length ex)] ∨
     lines = [Msg_total (length ex); Msg_combined]).
Proof.
  rewrite after_loop_run. cbv zeta.
  destruct (dump E combined_file (JObj ex)); cbn [fst console].
  - destruct (printable E (Msg_total (length ex))).
    + destruct (printable E Msg_combined).
      * exists [Msg_total (length ex); Msg_combined].
        split; [|by right; right].
        by destruct (dump E summary_file (summary E ex)).
      * exists [Msg_total (length ex)]. split; [done | by right; left].
    + exists []. split; [by rewrite app_nil_r | by left].
  - exists []. split; [by rewrite app_nil_r | by left].
  - exists []. split; [by rewrite app_nil_r | by left].
Qed.

Lemma after_loop_returns E ex w w' ex' :
  after_loop E ex w = (w', Ok ex') ↔
  dump E combined_file (JObj ex) = Written ∧
  printable E (Msg_total (length ex)) = true ∧
  printable E Msg_combined = true ∧
  dump E summary_file (summary E ex) = Written ∧
  ex' = ex ∧
  w' = {| files := <[summary_file := Document (summary E ex)]>
                     (<[combined_file := Document (JObj ex)]> (files w));
          console := console w ++ [Msg_total (length ex); Msg_combined] |}.
Proof.
  rewrite after_loop_run. cbv zeta.
  destruct (dump E combined_file (JObj ex)); [|naive_solver..].
  destruct (printable E (Msg_total (length ex))); [|naive_solver].
  destruct (printable E Msg_combined); [|naive_solver].
  destruct (dump E summary_file (summary E ex)); naive_solver.
Qed.

(** * The try statement of one model *)

Lemma attempt_file_effect E name m x :
  attempt E name m = Ok x → file_effect E name m = Some (Document x).
Proof.
  unfold attempt, file_effect.
  destruct (model_json_schema E m) as [schema|]; simpl; [|done].
  destruct (simplify_schema_for_llm schema) as [y|]; simpl; [|done].
  destruct (dump E (schema_file name) y); simpl; [|done..]. by intros [= ->].
Qed.

Lemma file_effect_attempt E name m x :
  file_effect E name m = Some (Document x) → attempt E name m = Ok x.
Proof.
  unfold attempt, file_effect.
  destruct (model_json_schema E m) as [schema|]; simpl; [|done].
  destruct (simplify_schema_for_llm schema) as [y|]; simpl; [|done].
  destruct (dump E (schema_file name) y); simpl; [|done..].
  by intros [= ->].
Qed.

Lemma file_effect_export_raises E name m e :
  model_json_schema E m ≫= simplify_schema_for_llm = Raise e →
  file_effect E name m = None.
Proof. unfold file_effect. by intros ->. Qed.

Lemma attempt_simplified E name m x :
  attempt E name m = Ok x →
  ∃ schema, model_json_schema E m = Ok schema ∧
            simplify_schema_for_llm schema = Ok x.
Proof.
  unfold attempt.
  destruct (model_json_schema E m) as [schema|]; simpl; [|done].
  destruct (simplify_schema_for_llm schema) as [y|] eqn:Hy; simpl; [|done].
  destruct (dump E (schema_file name) y); [|done..].
  intros [= ->]. by exists schema.
Qed.

Lemma attempt_interrupted E name m x e :
  model_json_schema E m ≫= simplify_schema_for_llm = Ok x →
  dump E (schema_file name) x = Interrupted e →
  attempt E name m = Raise e ∧ file_effect E name m = Some Unfinished.
Proof.
  unfold attempt, file_effect.
  destruct (model_json_schema E m) as [schema|]; simpl; [|done].
  destruct (simplify_schema_for_llm schema) as [y|]; simpl; [|done].
  intros [= ->] ->. done.
Qed.

(** * A run of [extract_schemas] *)

(* What a run has done, for any registry whose file names are pairwise
   distinct and distinct from those of the two final files. *)
Section run.
Variables (E : env) (ms : list (string * model)).
Hypothesis files_NoDup : NoDup ((λ nm : string * model, schema_file nm.1) <$> ms).
Hypothesis files_distinct :
  Forall (λ nm : string * model,
            schema_file nm.1 ≠ combined_file ∧ schema_file nm.1 ≠ summary_file)
         ms.

Lemma names_NoDup : NoDup ms.*1.
Proof.
  clear files_distinct. induction ms as [|nm l IH]; [constructor|].
  rewrite fmap_cons, NoDup_cons in files_NoDup.
  destruct files_NoDup as [Hnm Hl].
  rewrite fmap_cons, NoDup_cons. split; [|by apply IH].
  intros ((n & m) & Heq & Hin)%list_elem_of_fmap. apply Hnm.
  rewrite Heq. by apply (list_elem_of_fmap_2 (λ nm, schema_file nm.1) _ (n, m)).
Qed.

(* Whether a run returns is decided by the directory, by the two final
   writes and by what stdout takes of the lines the run prints. *)
Lemma extract_schemas_of_returns_iff w :
  (∃ w' extracted, extract_schemas_of E ms w = (w', Ok extracted)) ↔
  mkdir E = Ok () ∧
  (∀ nm, nm ∈ ms → printable E (report E nm.1 nm.2) = true) ∧
  dump E combined_file (JObj (successes E ms)) = Written ∧
  printable E (Msg_total (length (successes E ms))) = true ∧
  printable E Msg_combined = true ∧
  dump E summary_file (summary E (successes E ms)) = Written.
Proof.
  rewrite extract_schemas_of_unfold, <- loop_completes_spec. cbv zeta.
  destruct (mkdir E) as [[]|e]; [|naive_solver].
  destruct (loop_completes E ms) eqn:Hall; [|naive_solver].
  rewrite (loop_dict_successes E ms names_NoDup Hall). split.
  - intros (w' & ex & H%after_loop_returns). naive_solver.
  - intros (_ & _ & Hd1 & Hp1 & Hp2 & Hd2). eexists _, _.
    apply after_loop_returns. naive_solver.
Qed.

Lemma extract_schemas_of_returns w w' extracted :
  extract_schemas_of E ms w = (w', Ok extracted) →
  mkdir E = Ok () ∧
  extracted = successes E ms ∧
  dump E combined_file (JObj extracted) = Written ∧
  dump E summary_file (summary E extracted) = Written ∧
  files w' !! combined_file = Some (Document (JObj extracted)) ∧
  files w' !! summary_file = Some (Document (summary E extracted)) ∧
  (∀ name m x, (name, m) ∈ ms → attempt E name m = Ok x →
               files w' !! schema_file name = Some (Document x)) ∧
  console w' = console w ++ ((λ nm, report E nm.1 nm.2) <$> ms)
                         ++ [Msg_total (length extracted); Msg_combined].
Proof.
  rewrite extract_schemas_of_unfold. cbv zeta.
  destruct (mkdir E) as [[]|e]; [|done].
  destruct (loop_completes E ms) eqn:Hall; [|done].
  rewrite (loop_dict_successes E ms names_NoDup Hall).
  intros (Hd1 & _ & _ & Hd2 & -> & ->)%after_loop_returns.
  cbn [files console].
  split; [done|]. split; [done|]. split; [done|]. split; [done|].
  split; [|split; [|split]].
  - rewrite lookup_insert_ne by discriminate. apply lookup_insert_eq.
  - apply lookup_insert_eq.
  - intros name m x Hnm Hx.
    destruct (proj1 (Forall_forall _ _) files_distinct _ Hnm) as [Hne1 Hne2].
    cbn [fst] in Hne1, Hne2.
    rewrite lookup_insert_ne by (intros Heq; by apply Hne2).
    rewrite lookup_insert_ne by (intros Heq; by apply Hne1).
    pose proof (loop_files_lookup E ms files_NoDup (files w) (name, m) Hnm)
      as Hfile.
    cbn [fst snd] in Hfile.
    rewrite Hfile, (entered_complete E ms Hall), decide_True by done.
    by rewrite (attempt_file_effect _ _ _ _ Hx).
  - by rewrite (loop_lines_complete E ms Hall), <- app_assoc.
Qed.

(* The lines of the loop are on the console when stdout takes them. *)
Lemma extract_schemas_of_reports w name m :
  mkdir E = Ok () →
  (∀ nm, nm ∈ ms → printable E (report E nm.1 nm.2) = true) →
  (name, m) ∈ ms →
  report E name m ∈ console (extract_schemas_of E ms w).1.
Proof.
  intros Hmk Hall%loop_completes_spec Hnm.
  rewrite extract_schemas_of_unfold, Hmk, Hall. cbv zeta.
  destruct (after_loop_console E (loop_dict E ms [])
              {| files := loop_files E ms (files w);
                 console := console w ++ loop_lines E ms |})
    as (lines & -> & _).
  cbn [console]. rewrite (loop_lines_complete E ms Hall), !elem_of_app.
  left. right.
  by apply (list_elem_of_fmap_2 (λ nm, report E nm.1 nm.2) _ (name, m)).
Qed.

(* A run that stops in the loop. *)
Lemma extract_schemas_of_stops w :
  mkdir E = Ok () → loop_completes E ms = false →
  extract_schemas_of E ms w =
  ({| files := loop_files E ms (files w);
      console := console w ++ loop_lines E ms |}, Raise UnicodeEncodeError).
Proof.
  intros Hmk Hstop. by rewrite extract_schemas_of_unfold, Hmk, Hstop.
Qed.

(* The files of any run, returning or not. *)
Lemma run_frame w f :
  (∀ nm, nm ∈ ms → schema_file nm.1 ≠ f) →
  f ≠ combined_file → f ≠ summary_file →
  files (extract_schemas_of E ms w).1 !! f = files w !! f.
Proof.
  intros Hf Hc Hs. rewrite extract_schemas_of_unfold. cbv zeta.
  destruct (mkdir E) as [[]|e]; [|done].
  destruct (loop_completes E ms).
  - rewrite after_loop_files, decide_False by done. cbn [files].
    by apply loop_files_frame.
  - cbn [fst files]. by apply loop_files_frame.
Qed.

Lemma run_model_file w nm :
  nm ∈ ms →
  files (extract_schemas_of E ms w).1 !! schema_file nm.1 =
  match mkdir E with
  | Ok _ =>
      if decide (nm ∈ entered E ms)
      then match file_effect E nm.1 nm.2 with
           | Some c => Some c
           | None => files w !! schema_file nm.1
           end
      else files w !! schema_file nm.1
  | Raise _ => files w !! schema_file nm.1
  end.
Proof.
  intros Hnm. rewrite extract_schemas_of_unfold. cbv zeta.
  destruct (mkdir E) as [[]|e]; [|done].
  destruct (proj1 (Forall_forall _ _) files_distinct _ Hnm) as [Hne1 Hne2].
  destruct (loop_completes E ms).
  - rewrite after_loop_files, decide_False by done. cbn [files].
    by apply loop_files_lookup.
  - cbn [fst files]. by apply loop_files_lookup.
Qed.

Lemma run_combined_file w :
  files (extract_schemas_of E ms w).1 !! combined_file =
  match mkdir E with
  | Ok _ =>
      if loop_completes E ms
      then match write_effect (dump E combined_file (JObj (successes E ms)))
                   (JObj (successes E ms)) with
           | Some c => Some c
           | None => files w !! combined_file
           end
      else files w !! combined_file
  | Raise _ => files w !! combined_file
  end.
Proof.
  rewrite extract_schemas_of_unfold. cbv zeta.
  destruct (mkdir E) as [[]|e]; [|done].
  assert (loop_files E ms (files w) !! combined_file
          = files w !! combined_file) as Hloop.
  { apply loop_files_frame. intros nm Hnm.
    by destruct (proj1 (Forall_forall _ _) files_distinct _ Hnm). }
  destruct (loop_completes E ms) eqn:Hall.
  - rewrite after_loop_files, decide_True by done. cbn [files].
    by rewrite (loop_dict_successes E ms names_NoDup Hall), Hloop.
  - done.
Qed.

(* The lines of any run. *)
Lemma run_console w :
  ∃ lines,
    console (extract_schemas_of E ms w).1 = console w ++ lines ∧
    Msg_complete ∉ lines.
Proof.
  rewrite extract_schemas_of_unfold. cbv zeta.
  destruct (mkdir E) as [[]|e].
  2:{ exists []. split; [by rewrite app_nil_r | apply not_elem_of_nil]. }
  assert (Msg_complete ∉ loop_lines E ms) as Hloop.
  { clear. induction ms as [|[n m] l IH]; [apply not_elem_of_nil|].
    cbn [loop_lines]. destruct (turn_passes E (n, m));
      [|apply not_elem_of_nil].
    apply not_elem_of_cons. split; [|done].
    unfold report. cbn [fst snd]. by destruct (attempt E n m). }
  destruct (loop_completes E ms); [|by exists (loop_lines E ms)].
  destruct (after_loop_console E (loop_dict E ms [])
              {| files := loop_files E ms (files w);
                 console := console w ++ loop_lines E ms |})
    as (lines & -> & Hlines).
  exists (loop_lines E ms ++ lines). cbn [console].
  split; [by rewrite app_assoc|].
  rewrite not_elem_of_app. split; [done|].
  destruct Hlines as [->|[->| ->]]; set_solver.
Qed.
End run.

Lemma extract_schemas_returns E w w' extracted :
  extract_schemas E w = (w', Ok extracted) →
  mkdir E = Ok () ∧
  extracted = successes E models ∧
  dump E combined_file (JObj extracted) = Written ∧
  dump E summary_file (summary E extracted) = Written ∧
  files w' !! combined_file = Some (Document (JObj extracted)) ∧
  files w' !! summary_file = Some (Document (summary E extracted)) ∧
  (∀ name m x, (name, m) ∈ models → attempt E name m = Ok x →
               files w' !! schema_file name = Some (Document x)) ∧
  console w' = console w ++ ((λ nm, report E nm.1 nm.2) <$> models)
                         ++ [Msg_total (length extracted); Msg_combined].
Proof.
  apply extract_schemas_of_returns.
  - apply models_schema_files_NoDup.
  - apply models_files_distinct.
Qed.

Lemma extract_schemas_returns_iff E w :
  (∃ w' extracted, extract_schemas E w = (w', Ok extracted)) ↔
  mkdir E = Ok () ∧
  (∀ nm, nm ∈ models → printable E (report E nm.1 nm.2) = true) ∧
  dump E combined_file (JObj (successes E models)) = Written ∧
  printable E (Msg_total (length (successes E models))) = true ∧
  printable E Msg_combined = true ∧
  dump E summary_file (summary E (successes E models)) = Written.
Proof.
  apply extract_schemas_of_returns_iff, models_schema_files_NoDup.
Qed.

Lemma extract_schemas_returns_completes E w w' extracted :
  extract_schemas E w = (w', Ok extracted) →
  ∀ nm, nm ∈ models → printable E (report E nm.1 nm.2) = true.
Proof.
  intros Hrun.
  assert (∃ w' extracted, extract_schemas E w = (w', Ok extracted)) as H
    by by eexists _, _.
  by apply extract_schemas_returns_iff in H as (_ & Hall & _).
Qed.

(** * The files of a run *)

Lemma dict_get_fmap_key {A} (f : string → A) (names : list string) name :
  name ∈ names →
  dict_get name ((λ n, (n, f n)) <$> names) = Some (f name).
Proof.
  induction names as [|n names IH]; [by intros ?%elem_of_nil|].
  rewrite fmap_cons. simpl. intros Hin. case_decide as Hn; [by subst|].
  apply elem_of_cons in Hin as [->|Hin]; [done | by apply IH].
Qed.

(** C7.  In the summary written by [extract_schemas], total_schemas equals
    the number of keys in all_schemas.json, schema_names is exactly that
    key set, in registry iteration order (the keys are pairwise distinct, a
    sublist of the names of the registry, and a name is among them exactly
    when the try statement of its model stored its schema), and
    file_locations has those keys and maps each of them to the string
    '<lowercased-name>.schema.json', as the table [lowercased_file_names]
    writes it out. *)
Theorem summary_agrees_with_combined E w w' extracted :
  extract_schemas E w = (w', Ok extracted) →
  ∃ all names locations,
    files w' !! combined_file = Some (Document (JObj all)) ∧
    names = dict_keys all ∧
    files w' !! summary_file =
      Some (Document
        (JObj [("extracted_at", JStr (now_isoformat E));
               ("total_schemas", JInt (Z.of_nat (length names)));
               ("schema_names", JArr (JStr <$> names));
               ("file_locations", JObj locations)])) ∧
    dict_keys locations = names ∧
    (∀ name, name ∈ names →
       ∃ file, dict_get name lowercased_file_names = Some file ∧
               dict_get name locations = Some (JStr file)) ∧
    NoDup names ∧
    sublist names (dict_keys models) ∧
    (∀ name, name ∈ names ↔
             ∃ m, (name, m) ∈ models ∧ returns (attempt E name m)).
Proof.
  intros (_ & Hex & _ & _ & Hall & Hsum & _)%extract_schemas_returns.
  assert (NoDup (dict_keys extracted)) as Hnodup.
  { rewrite Hex. apply successes_NoDup, models_NoDup. }
  exists extracted, (dict_keys extracted),
    ((λ name, (name, JStr (schema_file name))) <$> dict_keys extracted).
  rewrite <- summary_eq by done.
  split; [done|]. split; [done|]. split; [done|].
  split; [|split; [|split; [done|split]]].
  - unfold dict_keys at 1. rewrite <- list_fmap_compose.
    apply list_fmap_id.
  - intros name Hname. exists (schema_file name). split.
    + rewrite Hex in Hname. apply successes_keys in Hname as (m & Hm & _).
      by eapply schema_file_lowercased.
    + by apply (dict_get_fmap_key (λ n, JStr (schema_file n))).
  - rewrite Hex. apply successes_keys_sublist.
  - intros name. rewrite Hex. apply successes_keys.
Qed.

Lemma summary_agrees_with_combined_witness :
  let w' := (extract_schemas env_person_fails empty_world).1 in
  let extracted := successes env_person_fails models in
  extract_schemas env_person_fails empty_world = (w', Ok extracted) ∧
  ∃ all names locations,
    files w' !! combined_file = Some (Document (JObj all)) ∧
    names = dict_keys all ∧
    files w' !! summary_file =
      Some (Document
        (JObj [("extracted_at", JStr (now_isoformat env_person_fails));
               ("total_schemas", JInt (Z.of_nat (length names)));
               ("schema_names", JArr (JStr <$> names));
               ("file_locations", JObj locations)])) ∧
    dict_keys locations = names ∧
    (∀ name, name ∈ names →
       ∃ file, dict_get name lowercased_file_names = Some file ∧
               dict_get name locations = Some (JStr file)) ∧
    NoDup names ∧
    sublist names (dict_keys models) ∧
    (∀ name, name ∈ names ↔
             ∃ m, (name, m) ∈ models ∧
                  returns (attempt env_person_fails name m)).
Proof.
  assert (extract_schemas env_person_fails empty_world
          = ((extract_schemas env_person_fails empty_world).1,
             Ok (successes env_person_fails models))) as Hrun.
  { apply run_outcome. vm_compute. reflexivity. }
  split; [exact Hrun|].
  exact (summary_agrees_with_combined env_person_fails empty_world
           (extract_schemas env_person_fails empty_world).1
           (successes env_person_fails models) Hrun).
Defined.

(** C6.  For every model successfully exported by [extract_schemas] -- its
    try statement stored its schema, which is in the result of the run --
    the content of its individual on-disk schema file, named
    '<lowercased-name>.schema.json' as the table [lowercased_file_names]
    writes it out, equals, when parsed, the entry stored under that
    model's name in all_schemas.json. *)
Theorem individual_file_agrees_with_combined E w w' extracted name x :
  extract_schemas E w = (w', Ok extracted) →
  dict_get name extracted = Some x →
  ∃ file,
    dict_get name lowercased_file_names = Some file ∧
    files w' !! file = Some (Document x) ∧
    ∃ all, files w' !! combined_file = Some (Document (JObj all)) ∧
           dict_get name all = Some x.
Proof.
  intros (_ & Hex & _ & _ & Hall & _ & Hfiles & _)%extract_schemas_returns Hx.
  rewrite Hex in Hx. apply successes_get in Hx as (m & Hm & Hx);
    [|apply models_NoDup].
  exists (schema_file name). split; [by eapply schema_file_lowercased|].
  split; [by eapply Hfiles|].
  exists extracted. split; [done|]. rewrite Hex.
  apply successes_get; [apply models_NoDup | by eauto].
Qed.

Lemma individual_file_agrees_with_combined_witness :
  let w' := (extract_schemas env_person_fails empty_world).1 in
  let extracted := successes env_person_fails models in
  let x := JObj [("title", JStr "T")] in
  extract_schemas env_person_fails empty_world = (w', Ok extracted) ∧
  dict_get "BareAsset" extracted = Some x ∧
  files w' !! "bareasset.schema.json" = Some (Document x) ∧
  ∃ all, files w' !! combined_file = Some (Document (JObj all)) ∧
         dict_get "BareAsset" all = Some x.
Proof.
  assert (extract_schemas env_person_fails empty_world
          = ((extract_schemas env_person_fails empty_world).1,
             Ok (successes env_person_fails models))) as Hrun.
  { apply run_outcome. vm_compute. reflexivity. }
  assert (dict_get "BareAsset" (successes env_person_fails models)
          = Some (JObj [("title", JStr "T")])) as Hget.
  { vm_compute. reflexivity. }
  split; [exact Hrun|]. split; [exact Hget|].
  destruct (individual_file_agrees_with_combined env_person_fails empty_world
              (extract_schemas env_person_fails empty_world).1
              (successes env_person_fails models) "BareAsset"
              (JObj [("title", JStr "T")]) Hrun Hget)
    as (file & Hfile & Hdoc & Hall).
  assert (file = "bareasset.schema.json") as Heq.
  { vm_compute in Hfile. by injection Hfile as <-. }
  rewrite Heq in Hdoc. split; [exact Hdoc | exact Hall].
Defined.

(** C5 (amended).  If the schema export or the file write for one model of
    the registry raises (or its simplification does: all three are inside
    the try statement), [extract_schemas] prints a diagnostic and continues
    with the remaining models, as long as stdout takes the lines the loop
    prints: the diagnostic is then on the console as soon as the loop is
    run.  When stdout cannot take the diagnostic (its encoding lacks
    U+2717) the print of the except clause raises in turn and the run does
    not return.  In a run that returns, the failing model is absent from
    the Extraction Result Set, from the combined file and from the summary,
    while every other model whose try statement completes is in the result
    set and in the summary and has its file written; if it is the only one
    of the 18 models that raises, 17 schemas are extracted and the summary
    lists 17 names. *)
Theorem failing_model_is_skipped E w name m e :
  (name, m) ∈ models →
  attempt E name m = Raise e →
  (mkdir E = Ok () →
   (∀ nm, nm ∈ models → printable E (report E nm.1 nm.2) = true) →
   Msg_error name e ∈ console (extract_schemas E w).1) ∧
  (printable E (Msg_error name e) = false →
   raises (extract_schemas E w).2) ∧
  (∀ w' extracted,
    extract_schemas E w = (w', Ok extracted) →
    Msg_error name e ∈ console w' ∧
    (name ∉ dict_keys extracted) ∧
    files w' !! combined_file = Some (Document (JObj extracted)) ∧
    files w' !! summary_file =
      Some (Document
        (JObj [("extracted_at", JStr (now_isoformat E));
               ("total_schemas",
                JInt (Z.of_nat (length (dict_keys extracted))));
               ("schema_names", JArr (JStr <$> dict_keys extracted));
               ("file_locations",
                JObj ((λ name, (name, JStr (schema_file name)))
                      <$> dict_keys extracted))])) ∧
    (∀ name' m' x,
       (name', m') ∈ models → attempt E name' m' = Ok x →
       dict_get name' extracted = Some x ∧
       name' ∈ dict_keys extracted ∧
       files w' !! schema_file name' = Some (Document x) ∧
       Msg_extracted name' ∈ console w') ∧
    ((∀ name' m', (name', m') ∈ models → name' ≠ name →
                  returns (attempt E name' m')) →
     length (dict_keys extracted) = 17)).
Proof.
  intros Hnm He.
  assert (report E name m = Msg_error name e) as Hreport.
  { unfold report. by rewrite He. }
  assert (mkdir E = Ok () →
          (∀ nm, nm ∈ models → printable E (report E nm.1 nm.2) = true) →
          Msg_error name e ∈ console (extract_schemas E w).1)
    as Hdiag.
  { intros Hmk Hall. rewrite <- Hreport.
    by apply extract_schemas_of_reports. }
  split; [done|]. split.
  { intros Hno. destruct (extract_schemas E w) as [w' [extracted|e']] eqn:Hrun;
      [|by eexists].
    pose proof (extract_schemas_returns_completes _ _ _ _ Hrun (name, m) Hnm)
      as Hyes.
    cbn [fst snd] in Hyes. congruence. }
  intros w' extracted Hrun.
  pose proof (extract_schemas_returns _ _ _ _ Hrun)
    as (Hmk & Hex & _ & _ & Hall & Hsum & Hfiles & Hc).
  pose proof (extract_schemas_returns_completes _ _ _ _ Hrun) as Hprint.
  assert (NoDup (dict_keys extracted)) as Hnodup.
  { rewrite Hex. apply successes_NoDup, models_NoDup. }
  split; [|split; [|split; [|split; [|split]]]].
  - specialize (Hdiag Hmk Hprint). by rewrite Hrun in Hdiag.
  - rewrite Hex. intros (m' & Hm' & [x Hx])%successes_keys.
    assert (m' = m) as ->.
    { pose proof models_NoDup as Hnd.
      apply (dict_get_NoDup models) in Hm'; [|done].
      apply (dict_get_NoDup models) in Hnm; [|done]. congruence. }
    congruence.
  - done.
  - by rewrite <- summary_eq.
  - intros name' m' x Hnm' Hx.
    assert (dict_get name' extracted = Some x) as Hget.
    { rewrite Hex. apply (proj2 (successes_get E models name' x models_NoDup)).
      eauto. }
    split; [done|]. split; [|split].
    + unfold dict_keys. apply list_elem_of_fmap. exists (name', x).
      split; [done|]. by apply dict_get_Some_elem.
    + by eapply Hfiles.
    + rewrite Hc, !elem_of_app. right. left.
      apply list_elem_of_fmap. exists (name', m'). split; [|done].
      unfold report. simpl. by rewrite Hx.
  - intros Hothers. unfold dict_keys. rewrite length_fmap, Hex.
    pose proof (successes_all_but_one E models name m models_NoDup Hnm) as H.
    rewrite models_length in H. apply eq_add_S, H; [by eexists|].
    intros [n' m'] Hin Hne. by eapply Hothers.
Qed.

Lemma failing_model_is_skipped_witness :
  let E := env_person_fails in
  let e := LibraryError "no schema" in
  let w' := (extract_schemas E empty_world).1 in
  let extracted := successes E models in
  ("Person", Person) ∈ models ∧
  attempt E "Person" Person = Raise e ∧
  mkdir E = Ok () ∧
  (∀ nm, nm ∈ models → printable E (report E nm.1 nm.2) = true) ∧
  extract_schemas E empty_world = (w', Ok extracted) ∧
  Msg_error "Person" e ∈ console (extract_schemas E empty_world).1 ∧
  Msg_error "Person" e ∈ console w' ∧
  ("Person" ∉ dict_keys extracted) ∧
  files w' !! combined_file = Some (Document (JObj extracted)).
Proof.
  assert (("Person", Person) ∈ models) as Hin.
  { right. left. }
  assert (∀ nm, nm ∈ models →
            printable env_person_fails (report env_person_fails nm.1 nm.2)
            = true) as Hprint.
  { intros nm _. by destruct (report env_person_fails nm.1 nm.2). }
  assert (extract_schemas env_person_fails empty_world
          = ((extract_schemas env_person_fails empty_world).1,
             Ok (successes env_person_fails models))) as Hrun.
  { apply run_outcome. vm_compute. reflexivity. }
  split; [exact Hin|]. split; [reflexivity|]. split; [reflexivity|].
  split; [exact Hprint|]. split; [exact Hrun|].
  destruct (failing_model_is_skipped env_person_fails empty_world
              "Person" Person (LibraryError "no schema") Hin eq_refl)
    as (Hdiag & _ & H).
  split; [exact (Hdiag eq_refl Hprint)|].
  destruct (H _ _ Hrun) as (H1 & H2 & H3 & _).
  split; [exact H1|]. split; [exact H2 | exact H3].
Defined.

(* C5 as the specification words it fails on a stdout that cannot take the
   line of the diagnostic.  On a stdout with U+2713 and without U+2717 the
   export of Person raises, the print of the except clause raises
   UnicodeEncodeError, and the run ends there: no diagnostic, and none of
   the 16 models after Person is written.  On a stdout with neither mark
   the run ends in the turn of the first model. *)
Lemma failing_model_stops_run :
  ("Person", Person) ∈ models ∧
  (let E := env_person_fails_jis in
   attempt E "Person" Person = Raise (LibraryError "no schema") ∧
   (extract_schemas E empty_world).2 = Raise UnicodeEncodeError ∧
   console (extract_schemas E empty_world).1 = [Msg_extracted "Dandiset"] ∧
   files (extract_schemas E empty_world).1 !! "dandiset.schema.json"
   = Some (Document (JObj [("title", JStr "T")])) ∧
   files (extract_schemas E empty_world).1 !! "organization.schema.json"
   = None ∧
   files (extract_schemas E empty_world).1 !! combined_file = None ∧
   files (extract_schemas E empty_world).1 !! summary_file = None) ∧
  (let E := env_person_fails_cp1252 in
   attempt E "Person" Person = Raise (LibraryError "no schema") ∧
   (extract_schemas E empty_world).2 = Raise UnicodeEncodeError ∧
   console (extract_schemas E empty_world).1 = [] ∧
   files (extract_schemas E empty_world).1 !! "dandiset.schema.json"
   = Some (Document (JObj [("title", JStr "T")])) ∧
   files (extract_schemas E empty_world).1 !! "organization.schema.json"
   = None ∧
   files (extract_schemas E empty_world).1 !! combined_file = None).
Proof.
  split; [by right; left|]. split; vm_compute; repeat split.
Qed.

(** * The exit status *)



Lemma script_imported E w :
  import_error E = None →
  script E w =
  let w2 := {| files := files w;
               console := (console w ++ [Msg_imported]) ++ [Msg_extracting] |} in
  match extract_schemas E w2 with
  | (w3, Ok _) =>
      ({| files := files w3; console := console w3 ++ [Msg_complete] |},
       exit_code E 0)
  | (w3, Raise e) =>
      ({| files := files w3; console := console w3 ++ [Msg_traceback e] |},
       exit_code E 1)
  end.
Proof.
  intros Himp. unfold script. rewrite Himp.
  unfold mbind, st_bind, print, traceback. cbn [printable files console].
  by destruct (extract_schemas E _) as [w3 [ex|e]].
Qed.

Lemma script_not_imported E w e :
  import_error E = Some e →
  files (script E w).1 = files w ∧ (script E w).2 = exit_code E 1.
Proof.
  intros Himp. unfold script. rewrite Himp.
  unfold mbind, st_bind, print, traceback. cbn [printable].
  by destruct (stdout_text E (Msg_import_error e)).
Qed.



(** * The documents the transform leaves as they are *)

Lemma Forall2_diag_elem {A} (R : A → A → Prop) (l : list A) x :
  Forall2 R l l → x ∈ l → R x x.
Proof.
  intros HF (i & Hi)%list_elem_of_lookup.
  by apply (Forall2_lookup_lr _ _ _ _ _ _ HF Hi Hi).
Qed.

Lemma settled_obj d :
  settled (JObj d) = true ↔
  len_at_most 50 (dict_get "pattern" d) = true ∧
  len_at_most 5 (dict_get "anyOf" d) = true ∧
  ∀ k v, (k, v) ∈ d →
    match v with
    | JObj _ => settled v = true
    | JArr l => ∀ item, item ∈ l →
                  match item with JObj _ => settled item = true | _ => True end
    | _ => True
    end.
Proof.
  simpl. rewrite !andb_true_iff, forallb_elem.
  split.
  - intros [[Hp Ha] Hd]. split; [done|]. split; [done|].
    intros k v Hkv. specialize (Hd (k, v) Hkv). simpl in Hd.
    destruct v; try done. rewrite forallb_elem in Hd. intros item Hitem.
    specialize (Hd item Hitem). by destruct item.
  - intros (Hp & Ha & Hd). split; [done|]. intros [k v] Hkv.
    specialize (Hd k v Hkv). simpl. destruct v; try done.
    rewrite forallb_elem. intros item Hitem. specialize (Hd item Hitem).
    by destruct item.
Qed.

Lemma len_at_most_spec n o :
  len_at_most n o = true ↔
  o = None ∨ ∃ x m, o = Some x ∧ len x = Ok m ∧ m ≤ n.
Proof.
  unfold len_at_most. destruct o as [x|]; [|naive_solver].
  destruct (len x) as [m|e] eqn:Hx.
  - rewrite Nat.leb_le. split; [by eauto 10|].
    intros [?|(x' & m' & [= <-] & Hm & ?)]; [done|]. congruence.
  - split; [done|]. intros [?|(x' & m' & [= <-] & Hm & ?)]; [done|]. congruence.
Qed.

Lemma settled_fixed_aux n :
  ∀ x, size x ≤ n → settled x = true → simplify_schema_for_llm x = Ok x.
Proof.
  induction n as [|n IH]; intros x Hn Hx.
  { pose proof (size_pos x). lia. }
  destruct x as [| | | | | |d]; try by rewrite simplify_not_obj.
  apply settled_obj in Hx as (Hp & Ha & Hd).
  rewrite simplify_obj.
  assert (drop_long_pattern d = Ok d) as ->.
  { rewrite drop_long_pattern_unfold.
    apply len_at_most_spec in Hp as [->|(p & m & -> & -> & Hm)]; [done|].
    simpl. by rewrite (proj2 (Nat.ltb_ge _ _) Hm). }
  simpl.
  assert (truncate_anyOf d = Ok d) as ->.
  { rewrite truncate_anyOf_unfold.
    apply len_at_most_spec in Ha as [->|(a & m & -> & -> & Hm)]; [done|].
    simpl. by rewrite (proj2 (Nat.ltb_ge _ _) Hm). }
  simpl.
  assert (simplify_entries simplify_schema_for_llm d = Ok d) as ->; [|done].
  apply simplify_entries_Ok, Forall_Forall2_diag, Forall_forall.
  intros [k v] Hkv. split; [done|]. simpl.
  pose proof (Hd k v Hkv) as Hv. pose proof (size_elem_obj _ _ _ Hkv) as Hsz.
  destruct v as [| | | | |l|e]; try done.
  - simpl. rewrite mapM_fixed; [done|]. apply Forall_forall.
    intros item Hitem. specialize (Hv item Hitem).
    pose proof (size_elem_arr _ _ Hitem).
    destruct item; try done. simpl. apply IH; [simpl in *; lia | done].
  - simpl. apply IH; [simpl in *; lia | done].
Qed.

Lemma fixed_settled_aux n :
  ∀ x, size x ≤ n → simplify_schema_for_llm x = Ok x → settled x = true.
Proof.
  induction n as [|n IH]; intros x Hn Hx.
  { pose proof (size_pos x). lia. }
  destruct x as [| | | | | |d]; try done.
  pose proof (simplify_obj_inv _ _ Hx) as (d1 & d2 & d3 & Hd1 & Hd2 & Hd3 & Heq).
  injection Heq as <-.
  (* rule 1 did not fire *)
  assert (len_at_most 50 (dict_get "pattern" d) = true ∧ d1 = d) as [Hp ->].
  { pose proof (drop_long_pattern_get _ _ Hd1) as H1.
    pose proof (simplify_entries_get _ _ _ "pattern" Hd3) as H3.
    rewrite (truncate_anyOf_get_ne d1 d2) in H3 by done.
    apply drop_long_pattern_inv in Hd1 as [[Hnone ->]|(p & m & Hsome & Hm & ->)].
    - by rewrite Hnone.
    - rewrite Hsome in H1. destruct H1 as (m' & Hm' & H1).
      assert (m' = m) as -> by congruence.
      destruct (50 <? m)%nat eqn:Hlt.
      + rewrite H1 in H3. congruence.
      + apply Nat.ltb_ge in Hlt. split; [|done].
        apply len_at_most_spec. right. by exists p, m. }
  (* rule 2 did not fire *)
  assert (len_at_most 5 (dict_get "anyOf" d) = true ∧ d2 = d) as [Ha ->].
  { pose proof (simplify_entries_get _ _ _ "anyOf" Hd3) as H3.
    pose proof (truncate_anyOf_get _ _ Hd2) as H2.
    apply truncate_anyOf_inv in Hd2
      as [[Hnone ->]|[(a & m & Hsome & Hm & Hle & ->)
                     |(a & m & a' & Hsome & Hm & Hlt & Ha' & ->)]].
    - by rewrite Hnone.
    - split; [|done]. apply len_at_most_spec. right. by exists a, m.
    - exfalso. rewrite Hsome in H2. destruct H2 as (m' & Hm' & H2).
      assert (m' = m) as -> by congruence.
      rewrite (proj2 (Nat.ltb_lt _ _) Hlt) in H2.
      destruct H2 as (a'' & Ha'' & Hget2).
      rewrite Hget2 in H3. destruct H3 as (v3 & Hv3 & Hget3).
      rewrite Hsome in Hget3. injection Hget3 as <-.
      destruct (slice_to_len _ _ _ Ha'') as (k1 & Hk1 & ?).
      destruct (simplify_value_len _ _ _ Hv3 Hk1) as (k2 & Hk2 & ?).
      assert (k2 = m) by congruence. lia. }
  apply settled_obj. split; [done|]. split; [done|].
  intros k v Hkv. apply simplify_entries_Ok in Hd3.
  pose proof (Forall2_diag_elem _ _ _ Hd3 Hkv) as [_ Hv]. simpl in Hv.
  pose proof (size_elem_obj _ _ _ Hkv) as Hsz.
  destruct v as [| | | | |l|e]; try done.
  - simpl in Hv. apply fmap_Ok in Hv as (l' & Hl' & [= <-]).
    apply mapM_Ok in Hl'. intros item Hitem.
    pose proof (Forall2_diag_elem _ _ _ Hl' Hitem) as Hi.
    pose proof (size_elem_arr _ _ Hitem).
    destruct item; try done. simpl in Hi. apply IH; [simpl in *; lia | done].
  - simpl in Hv. apply IH; [simpl in *; lia | done].
Qed.

(** X1.  The documents the transform returns unchanged are exactly those
    within the thresholds at every mapping the recursion arrives at: what
    is under 'pattern' has a length of at most 50, what is under 'anyOf' a
    length of at most 5. *)
Theorem unchanged_iff_settled x :
  simplify_schema_for_llm x = Ok x ↔ settled x = true.
Proof.
  split.
  - by apply (fixed_settled_aux (size x)).
  - by apply (settled_fixed_aux (size x)).
Qed.

(** X2.  Whatever the transform returns is within the thresholds: no
    mapping the recursion arrives at in the output has more than 50
    elements under 'pattern' or more than 5 under 'anyOf'. *)
Theorem simplified_is_settled x y :
  simplify_schema_for_llm x = Ok y → settled y = true.
Proof.
  intros Hxy. apply (fixed_settled_aux (size y)); [done|].
  by eapply simplify_fixed.
Qed.

Lemma simplified_is_settled_witness :
  simplify_schema_for_llm (JObj [("anyOf", JArr six_alternatives)])
  = Ok (JObj [("anyOf", JArr [JObj []; JNull; JNull])]) ∧
  settled (JObj [("anyOf", JArr six_alternatives)]) = false ∧
  settled (JObj [("anyOf", JArr [JObj []; JNull; JNull])]) = true.
Proof.
  split; [reflexivity|]. split; [reflexivity|].
  apply (simplified_is_settled (JObj [("anyOf", JArr six_alternatives)])).
  reflexivity.
Defined.

(** * What the transform does to the keys and to the plain values *)

Lemma dict_del_keys {V} (k : string) (d : list (string * V)) :
  dict_keys (dict_del k d) = filter (λ k', k' ≠ k) (dict_keys d).
Proof.
  unfold dict_keys, dict_del. induction d as [|[k0 v0] d IH]; [done|].
  rewrite fmap_cons, !filter_cons. simpl.
  case_decide; [rewrite fmap_cons|]; by rewrite IH.
Qed.

(** X3.  The transform never adds, renames or reorders the keys of the
    mapping it is given; the only key it can take away is 'pattern', and it
    does so exactly when what is under that key has more than 50
    elements. *)
Theorem simplify_keeps_keys d b :
  simplify_schema_for_llm (JObj d) = Ok b →
  ∃ d', b = JObj d' ∧
    dict_keys d' =
      if len_at_most 50 (dict_get "pattern" d)
      then dict_keys d
      else filter (λ k, k ≠ "pattern") (dict_keys d).
Proof.
  intros (d1 & d2 & d3 & Hd1 & Hd2 & Hd3 & ->)%simplify_obj_inv.
  exists d3. split; [done|].
  unfold dict_keys at 1. rewrite (simplify_entries_keys _ _ _ Hd3).
  assert (d2.*1 = d1.*1) as ->.
  { apply truncate_anyOf_inv in Hd2
      as [[_ ->]|[(a & m & _ & _ & _ & ->)|(a & m & a' & Ha & _ & _ & _ & ->)]];
      try done.
    apply (dict_set_keys_present d1 "anyOf" a' a Ha). }
  apply drop_long_pattern_inv in Hd1 as [[Hnone ->]|(p & m & Hp & Hm & ->)].
  - by rewrite Hnone.
  - rewrite Hp. unfold len_at_most. rewrite Hm.
    destruct (50 <? m)%nat eqn:Hlt.
    + apply Nat.ltb_lt in Hlt. rewrite (proj2 (Nat.leb_gt _ _) Hlt).
      apply dict_del_keys.
    + apply Nat.ltb_ge in Hlt. by rewrite (proj2 (Nat.leb_le _ _) Hlt).
Qed.

Lemma simplify_keeps_keys_witness :
  let d := [("title", JStr "T"); ("pattern", JStr a60); ("type", JStr "string")] in
  simplify_schema_for_llm (JObj d)
  = Ok (JObj [("title", JStr "T"); ("type", JStr "string")]) ∧
  ∃ d', JObj [("title", JStr "T"); ("type", JStr "string")] = JObj d' ∧
    dict_keys d' =
      if len_at_most 50 (dict_get "pattern" d)
      then dict_keys d
      else filter (λ k, k ≠ "pattern") (dict_keys d).
Proof.
  split; [reflexivity|].
  apply (simplify_keeps_keys
           [("title", JStr "T"); ("pattern", JStr a60); ("type", JStr "string")]).
  reflexivity.
Defined.

Lemma simplify_plain_value d b k v :
  simplify_schema_for_llm (JObj d) = Ok b →
  dict_get k d = Some v → is_plain v = true →
  k ≠ "pattern" → k ≠ "anyOf" →
  ∃ d', b = JObj d' ∧ dict_get k d' = Some v.
Proof.
  intros (d1 & d2 & d3 & Hd1 & Hd2 & Hd3 & ->)%simplify_obj_inv Hv Hplain Hk1 Hk2.
  exists d3. split; [done|].
  pose proof (simplify_entries_get _ _ _ k Hd3) as H3.
  rewrite (truncate_anyOf_get_ne d1 d2), (drop_long_pattern_get_ne d d1), Hv
    in H3 by done.
  destruct H3 as (v' & Hv' & ->). destruct v; try done; by injection Hv' as <-.
Qed.

(** X4.  A value that is neither a mapping nor a list (a title, a type, a
    description, a number, a flag) under a key other than 'pattern' and
    'anyOf' is never changed, at whatever mapping node of the document it
    sits, reached by the recursion or not. *)
Theorem plain_values_untouched x y p d k v b :
  simplify_schema_for_llm x = Ok y →
  node_at p x = Some (JObj d) →
  dict_get k d = Some v → is_plain v = true →
  k ≠ "pattern" → k ≠ "anyOf" →
  node_at p y = Some b →
  ∃ d', b = JObj d' ∧ dict_get k d' = Some v.
Proof.
  intros Hxy Hd Hv Hplain Hk1 Hk2 Hb.
  pose proof (simplify_node_at _ _ _ _ _ Hxy Hd Hb) as H.
  destruct (reached p).
  - by eapply simplify_plain_value.
  - subst b. by exists d.
Qed.

Lemma plain_values_untouched_witness :
  let x := JObj [("properties",
                  JObj [("name", JObj [("description", JStr "The name");
                                       ("pattern", JStr a60)])])] in
  let y := JObj [("properties",
                  JObj [("name", JObj [("description", JStr "The name")])])] in
  simplify_schema_for_llm x = Ok y ∧
  ∃ d', JObj [("description", JStr "The name")] = JObj d' ∧
        dict_get "description" d' = Some (JStr "The name").
Proof.
  split; [reflexivity|].
  apply (plain_values_untouched
           (JObj [("properties",
                   JObj [("name", JObj [("description", JStr "The name");
                                        ("pattern", JStr a60)])])])
           (JObj [("properties",
                   JObj [("name", JObj [("description", JStr "The name")])])])
           [Key "properties"; Key "name"]
           [("description", JStr "The name"); ("pattern", JStr a60)]
           "description" (JStr "The name")
           (JObj [("description", JStr "The name")]));
    (reflexivity || discriminate).
Defined.

(** X5.  The transform raises nothing but the TypeError of len on a value
    without a length and the error of slicing a mapping: schema['anyOf'] is
    only subscripted behind the test 'anyOf' in schema, so there is no
    KeyError, and the recursion ends on every document. *)
Theorem simplify_raises_only x e :
  simplify_schema_for_llm x = Raise e →
  e = TypeError_no_len ∨ e = Slice_of_dict.
Proof. by apply (simplify_exceptions_aux (size x)). Qed.

Lemma simplify_raises_only_witness :
  simplify_schema_for_llm (JObj [("anyOf", JInt 5)]) = Raise TypeError_no_len ∧
  (TypeError_no_len = TypeError_no_len ∨ TypeError_no_len = Slice_of_dict).
Proof.
  split; [reflexivity|].
  apply (simplify_raises_only (JObj [("anyOf", JInt 5)])). reflexivity.
Defined.

(** X6.  Rule 2 does not look at the type of what is under 'anyOf': a
    string of more than 5 characters there is cut to its first 3
    characters, a shorter one is kept. *)
Theorem anyOf_string_is_cut d b s :
  simplify_schema_for_llm (JObj d) = Ok b →
  dict_get "anyOf" d = Some (JStr s) →
  ∃ d', b = JObj d' ∧
    dict_get "anyOf" d' =
      Some (JStr (if (5 <? String.length s)%nat
                  then String.substring 0 3 s else s)).
Proof.
  intros (d1 & d2 & d3 & Hd1 & Hd2 & Hd3 & ->)%simplify_obj_inv Hs.
  exists d3. split; [done|].
  pose proof (simplify_entries_get _ _ _ "anyOf" Hd3) as H3.
  pose proof (truncate_anyOf_get _ _ Hd2) as H2.
  rewrite (drop_long_pattern_get_ne d d1), Hs in H2 by done.
  destruct H2 as (n & [= <-] & H2).
  destruct (5 <? String.length s)%nat.
  - destruct H2 as (a' & [= <-] & Ha'). rewrite Ha' in H3.
    by destruct H3 as (v' & [= <-] & ->).
  - rewrite H2 in H3. by destruct H3 as (v' & [= <-] & ->).
Qed.

Lemma anyOf_string_is_cut_witness :
  simplify_schema_for_llm (JObj [("anyOf", JStr "string")])
  = Ok (JObj [("anyOf", JStr "str")]) ∧
  ∃ d', JObj [("anyOf", JStr "str")] = JObj d' ∧
    dict_get "anyOf" d' =
      Some (JStr (if (5 <? String.length "string")%nat
                  then String.substring 0 3 "string" else "string")).
Proof.
  split; [reflexivity|].
  apply (anyOf_string_is_cut [("anyOf", JStr "string")]); reflexivity.
Defined.

(** * The cut comes before the recursion *)

Lemma dict_del_set_comm {V} (k k' : string) (v : V) (d : list (string * V)) :
  k ≠ k' → dict_del k (dict_set k' v d) = dict_set k' v (dict_del k d).
Proof.
  intros Hne. unfold dict_del. induction d as [|[k0 v0] d IH]; simpl.
  - rewrite filter_cons. simpl. by rewrite decide_True by done.
  - destruct (decide (k0 = k')) as [->|Hk0].
    + rewrite !filter_cons. simpl. rewrite !decide_True by done. simpl.
      by rewrite decide_True.
    + rewrite !filter_cons. simpl. case_decide; [|done]. simpl.
      rewrite decide_False by done. by rewrite IH.
Qed.

Lemma dict_set_set {V} (k : string) (v v' : V) (d : list (string * V)) :
  dict_set k v (dict_set k v' d) = dict_set k v d.
Proof.
  induction d as [|[k0 v0] d IH]; simpl.
  - by rewrite decide_True.
  - case_decide; simpl; [by rewrite decide_True|].
    rewrite decide_False by done. by rewrite IH.
Qed.

(** X7.  The alternatives of a long 'anyOf' list beyond the third are never
    looked at: on a mapping whose 'anyOf' list has more than 5
    alternatives the transform does, exceptions included, what it does
    when the list is cut to its first 3 alternatives beforehand. *)
Theorem alternatives_beyond_third_ignored d l :
  dict_get "anyOf" d = Some (JArr l) → (5 < length l)%nat →
  simplify_schema_for_llm (JObj d)
  = simplify_schema_for_llm (JObj (dict_set "anyOf" (JArr (take 3 l)) d)).
Proof.
  intros Hl Hlt. rewrite !simplify_obj.
  assert (drop_long_pattern (dict_set "anyOf" (JArr (take 3 l)) d)
          = dict_set "anyOf" (JArr (take 3 l)) <$> drop_long_pattern d) as ->.
  { rewrite !drop_long_pattern_unfold, dict_get_set_ne by done.
    destruct (dict_get "pattern" d) as [p|]; [|done].
    destruct (len p) as [n|e]; [|done]. simpl.
    destruct (50 <? n)%nat; [|done]. by rewrite dict_del_set_comm. }
  destruct (drop_long_pattern d) as [d1|e] eqn:Hd1; [|done]. simpl.
  assert (dict_get "anyOf" d1 = Some (JArr l)) as Hl1.
  { by rewrite (drop_long_pattern_get_ne d d1). }
  assert (truncate_anyOf d1 = Ok (dict_set "anyOf" (JArr (take 3 l)) d1)) as ->.
  { rewrite truncate_anyOf_unfold, Hl1. simpl.
    by rewrite (proj2 (Nat.ltb_lt _ _) Hlt). }
  assert (truncate_anyOf (dict_set "anyOf" (JArr (take 3 l)) d1)
          = Ok (dict_set "anyOf" (JArr (take 3 l)) d1)) as ->; [|done].
  rewrite truncate_anyOf_unfold, dict_get_set_eq. simpl.
  rewrite length_take. by rewrite (proj2 (Nat.ltb_ge 5 (3 `min` length l))) by lia.
Qed.

Lemma alternatives_beyond_third_ignored_witness :
  let l := [JNull; JNull; JNull; JNull; JNull; JObj [("pattern", JNull)]] in
  dict_get "anyOf" [("anyOf", JArr l)] = Some (JArr l) ∧
  (5 < length l)%nat ∧
  simplify_schema_for_llm (JObj [("anyOf", JArr l)])
  = simplify_schema_for_llm
      (JObj (dict_set "anyOf" (JArr (take 3 l)) [("anyOf", JArr l)])).
Proof.
  split; [reflexivity|]. split; [vm_compute; lia|].
  apply (alternatives_beyond_third_ignored
           [("anyOf", JArr [JNull; JNull; JNull; JNull; JNull;
                            JObj [("pattern", JNull)]])]);
    [reflexivity | vm_compute; lia].
Defined.

(** * The transform never enlarges a document *)

Lemma sum_list_filter_le {A} (f : A → nat) (P : A → Prop)
    `{∀ x, Decision (P x)} (l : list A) :
  sum_list (f <$> filter P l) ≤ sum_list (f <$> l).
Proof.
  induction l as [|y l IH]; [done|]. rewrite filter_cons.
  case_decide; csimpl; lia.
Qed.

Lemma sum_list_Forall2_le {A B} (f : A → nat) (g : B → nat)
    (l : list A) (k : list B) :
  Forall2 (λ x y, g y ≤ f x) l k → sum_list (g <$> k) ≤ sum_list (f <$> l).
Proof. induction 1; csimpl; lia. Qed.

Lemma sum_list_dict_set_le (d : list (string * json)) k a a' :
  dict_get k d = Some a → size a' ≤ size a →
  sum_list ((λ kv, size kv.2) <$> dict_set k a' d)
  ≤ sum_list ((λ kv : string * json, size kv.2) <$> d).
Proof.
  intros Ha Hle. induction d as [|[k0 v0] d IH]; [done|]. simpl in *.
  case_decide; csimpl.
  - injection Ha as ->. lia.
  - specialize (IH Ha). lia.
Qed.

Lemma simplify_size_aux n :
  ∀ x y, size x ≤ n → simplify_schema_for_llm x = Ok y → size y ≤ size x.
Proof.
  induction n as [|n IH]; intros x y Hn.
  { pose proof (size_pos x). lia. }
  destruct x as [| | | | | |d];
    try (rewrite simplify_not_obj by done; by intros [= <-]).
  intros (d1 & d2 & d3 & Hd1 & Hd2 & Hd3 & ->)%simplify_obj_inv.
  assert (sum_list ((λ kv, size kv.2) <$> d1)
          ≤ sum_list ((λ kv : string * json, size kv.2) <$> d)) as H1.
  { apply drop_long_pattern_inv in Hd1 as [[_ ->]|(p & m & _ & _ & ->)];
      [done|]. case_match; [|done]. apply sum_list_filter_le. }
  assert (sum_list ((λ kv, size kv.2) <$> d2)
          ≤ sum_list ((λ kv : string * json, size kv.2) <$> d1)) as H2.
  { pose proof Hd2 as Hd2'. apply truncate_anyOf_inv in Hd2'
      as [[_ ->]|[(a & m & _ & _ & _ & ->)|(a & m & a' & Ha & _ & _ & Ha' & ->)]];
      try done.
    apply (sum_list_dict_set_le _ _ a); [done|]. by eapply slice_to_size. }
  assert (sum_list ((λ kv, size kv.2) <$> d3)
          ≤ sum_list ((λ kv : string * json, size kv.2) <$> d2)) as H3.
  { apply sum_list_Forall2_le. apply simplify_entries_Ok in Hd3 as HF.
    apply Forall2_same_length_lookup_2; [by eapply Forall2_length|].
    intros i [k2 v2] [k3 v3] Hi2 Hi3.
    destruct (Forall2_lookup_lr _ _ _ _ _ _ HF Hi2 Hi3) as [_ Hv]. simpl in *.
    assert (size v2 < size (JObj d)) as Hsz.
    { apply list_elem_of_lookup_2 in Hi2.
      destruct (truncate_anyOf_elem _ _ _ _ Hd2 Hi2) as (v0 & Hv0 & Hle).
      apply (drop_long_pattern_elem _ _ _ _ Hd1), size_elem_obj in Hv0. lia. }
    destruct v2 as [| | | | |l|e]; try by injection Hv as <-.
    - simpl in Hv. apply fmap_Ok in Hv as (l' & Hl'%mapM_Ok & ->). simpl.
      apply le_n_S, sum_list_Forall2_le.
      apply Forall2_same_length_lookup_2; [by eapply Forall2_length|].
      intros j item item' Hj Hj'.
      pose proof (Forall2_lookup_lr _ _ _ _ _ _ Hl' Hj Hj') as Hs.
      simpl in Hs. rewrite simplify_item_eq in Hs. apply (IH item); [|done].
      apply list_elem_of_lookup_2, size_elem_arr in Hj. simpl in *. lia.
    - simpl in Hv. apply (IH (JObj e)); [simpl in *; lia | done]. }
  simpl. lia.
Qed.

(** X8.  The transform never enlarges a document: what it returns has at
    most as many nodes (mappings, lists and plain values) as what it was
    given. *)
Theorem simplify_never_enlarges x y :
  simplify_schema_for_llm x = Ok y → size y ≤ size x.
Proof. by apply (simplify_size_aux (size x)). Qed.

Lemma simplify_never_enlarges_witness :
  simplify_schema_for_llm (JObj [("anyOf", JArr six_alternatives)])
  = Ok (JObj [("anyOf", JArr [JObj []; JNull; JNull])]) ∧
  size (JObj [("anyOf", JArr [JObj []; JNull; JNull])])
  ≤ size (JObj [("anyOf", JArr six_alternatives)]).
Proof.
  split; [reflexivity|].
  apply (simplify_never_enlarges (JObj [("anyOf", JArr six_alternatives)])).
  reflexivity.
Defined.


(** * What a run leaves on disk *)

Lemma script_files E w :
  files (script E w).1 =
  match import_error E with
  | Some _ => files w
  | None =>
      files (extract_schemas E
               {| files := files w;
                  console := (console w ++ [Msg_imported])
                             ++ [Msg_extracting] |}).1
  end.
Proof.
  destruct (import_error E) as [e|] eqn:Himp.
  - by destruct (script_not_imported E w e Himp) as [-> _].
  - rewrite (script_imported _ _ Himp). cbv zeta.
    by destruct (extract_schemas E _) as [w3 [ex|e]].
Qed.

Lemma models_file_names f :
  f ∉ schema_file <$> dict_keys models →
  ∀ nm : string * model, nm ∈ models → schema_file nm.1 ≠ f.
Proof.
  intros Hf nm Hnm <-. apply Hf. unfold dict_keys.
  by apply list_elem_of_fmap_2, list_elem_of_fmap_2.
Qed.

(** X9.  A run of the script writes to no file but the 18 individual schema
    files, all_schemas.json and schema_summary.json: every other file of
    the schemas directory is after the run what it was before, whether the
    run returns or not. *)
Theorem other_files_untouched E w f :
  f ∉ schema_file <$> dict_keys models →
  f ≠ combined_file → f ≠ summary_file →
  files (extract_schemas E w).1 !! f = files w !! f ∧
  files (script E w).1 !! f = files w !! f.
Proof.
  intros Hf Hc Hs.
  assert (∀ w, files (extract_schemas E w).1 !! f = files w !! f) as Hrun.
  { intros w0. unfold extract_schemas. apply run_frame; try done.
    by apply models_file_names. }
  split; [done|]. rewrite script_files.
  destruct (import_error E); [done|]. by rewrite Hrun.
Qed.

Lemma other_files_untouched_witness :
  ("notes.txt" ∉ schema_file <$> dict_keys models) ∧
  files (extract_schemas env_person_fails used_world).1 !! "notes.txt"
  = Some (Document (JStr "keep")).
Proof.
  assert ("notes.txt" ∉ schema_file <$> dict_keys models) as Hf.
  { apply (bool_decide_unpack _). vm_compute. exact I. }
  split; [exact Hf|].
  destruct (other_files_untouched env_person_fails used_world "notes.txt" Hf)
    as [H _]; [discriminate | discriminate |].
  rewrite H. vm_compute. reflexivity.
Defined.

(** X10.  When the export of a model raises, or the simplification of its
    schema does, the individual file of that model is not touched: a file
    left there by an earlier run stays on disk as it was, although the new
    summary does not list the model. *)
Theorem failed_export_leaves_old_file E w name m e :
  (name, m) ∈ models →
  model_json_schema E m ≫= simplify_schema_for_llm = Raise e →
  files (extract_schemas E w).1 !! schema_file name
  = files w !! schema_file name.
Proof.
  intros Hnm Hraise. unfold extract_schemas.
  pose proof (run_model_file E models models_schema_files_NoDup
                models_files_distinct w (name, m) Hnm) as Hfile.
  cbn [fst snd] in Hfile. rewrite Hfile.
  rewrite (file_effect_export_raises _ _ _ _ Hraise).
  destruct (mkdir E) as [[]|]; [|done]. by case_decide.
Qed.

Lemma failed_export_leaves_old_file_witness :
  ("Person", Person) ∈ models ∧
  model_json_schema env_person_fails Person ≫= simplify_schema_for_llm
  = Raise (LibraryError "no schema") ∧
  files (extract_schemas env_person_fails used_world).1
    !! schema_file "Person"
  = Some (Document (JObj [("title", JStr "old")])).
Proof.
  assert (("Person", Person) ∈ models) as Hin.
  { right. left. }
  split; [exact Hin|]. split; [reflexivity|].
  rewrite (failed_export_leaves_old_file env_person_fails used_world
             "Person" Person (LibraryError "no schema") Hin eq_refl).
  vm_compute. reflexivity.
Defined.

Lemma at_time_mkdir t E : mkdir (at_time t E) = mkdir E.
Proof. reflexivity. Qed.

Lemma at_time_dump t E : dump (at_time t E) = dump E.
Proof. reflexivity. Qed.

Lemma at_time_successes t E ms : successes (at_time t E) ms = successes E ms.
Proof. reflexivity. Qed.

Lemma at_time_file_effect t E name m :
  file_effect (at_time t E) name m = file_effect E name m.
Proof. reflexivity. Qed.

Lemma at_time_entered t E ms : entered (at_time t E) ms = entered E ms.
Proof.
  induction ms as [|nm ms IH]; [done|]. cbn [entered]. rewrite IH.
  reflexivity.
Qed.

Lemma at_time_loop_completes t E ms :
  loop_completes (at_time t E) ms = loop_completes E ms.
Proof. reflexivity. Qed.

(** X11.  Running the script again in the same surroundings, at whatever
    time of day, reproduces the directory: every file other than
    schema_summary.json (which holds the time) is after the second run
    what it was after the first, the individual files and
    all_schemas.json included. *)
Theorem rerun_reproduces_files E t w f :
  f ≠ summary_file →
  files (extract_schemas (at_time t E) (extract_schemas E w).1).1 !! f
  = files (extract_schemas E w).1 !! f.
Proof.
  intros Hs. unfold extract_schemas.
  pose proof models_schema_files_NoDup as Hnd.
  pose proof models_files_distinct as Hdist.
  destruct (decide (f = combined_file)) as [->|Hc].
  - rewrite !run_combined_file by done.
    rewrite at_time_mkdir, at_time_dump, at_time_successes,
      at_time_loop_completes.
    destruct (mkdir E) as [[]|]; [|done].
    destruct (loop_completes E models); [|done].
    by destruct (write_effect _ _).
  - destruct (decide (f ∈ (λ nm : string * model, schema_file nm.1) <$> models))
      as [Hin|Hout].
    + apply list_elem_of_fmap in Hin as (nm & -> & Hnm).
      rewrite !run_model_file by done.
      rewrite at_time_mkdir, at_time_file_effect, at_time_entered.
      destruct (mkdir E) as [[]|]; [|done].
      case_decide; [|done].
      by destruct (file_effect E nm.1 nm.2).
    + rewrite !run_frame; try done.
      * intros nm Hnm Heq. apply Hout. rewrite <- Heq.
        by apply (list_elem_of_fmap_2 (λ nm, schema_file nm.1)).
      * intros nm Hnm Heq. apply Hout. rewrite <- Heq.
        by apply (list_elem_of_fmap_2 (λ nm, schema_file nm.1)).
Qed.

Lemma rerun_reproduces_files_witness :
  combined_file ≠ summary_file ∧
  files (extract_schemas (at_time "2025-06-01T12:00:00" env_person_fails)
           (extract_schemas env_person_fails used_world).1).1 !! combined_file
  = files (extract_schemas env_person_fails used_world).1 !! combined_file.
Proof.
  split; [discriminate|].
  apply (rerun_reproduces_files env_person_fails "2025-06-01T12:00:00"
           used_world combined_file).
  discriminate.
Defined.

(** * What a run prints *)

Lemma extracted_lines_count E ms :
  length (filter (λ l, is_extracted_line l = true)
            ((λ nm : string * model, report E nm.1 nm.2) <$> ms))
  = length (successes E ms).
Proof.
  induction ms as [|[name m] ms IH]; [done|].
  unfold successes in *. rewrite fmap_cons, filter_cons.
  cbn [omap list_omap fst snd].
  case_decide as Hd; unfold report in Hd;
    destruct (attempt E name m); simpl in Hd; try done;
    simpl; by rewrite <- IH.
Qed.

Lemma extracted_line_iff E ms name :
  Msg_extracted name ∈ (λ nm : string * model, report E nm.1 nm.2) <$> ms ↔
  name ∈ dict_keys (successes E ms).
Proof.
  rewrite successes_keys, list_elem_of_fmap. split.
  - intros ([n m] & Heq & Hin). simpl in Heq. unfold report in Heq.
    destruct (attempt E n m) as [x|e] eqn:Ha; [|done].
    injection Heq as ->. exists m. split; [done|]. by exists x.
  - intros (m & Hin & [x Hx]). exists (name, m). split; [|done].
    simpl. unfold report. by rewrite Hx.
Qed.

Lemma report_lines_shape E ms :
  Forall2 (λ (nm : string * model) l,
             l = Msg_extracted nm.1 ∨ ∃ e, l = Msg_error nm.1 e)
          ms ((λ nm, report E nm.1 nm.2) <$> ms).
Proof.
  induction ms as [|[name m] ms IH]; [constructor|].
  rewrite fmap_cons. constructor; [|exact IH].
  simpl. unfold report. destruct (attempt E name m); eauto.
Qed.

(** X12.  A run of [extract_schemas] that returns has printed exactly one
    line for every model of the registry, in the order of the registry --
    the line of success or the line of failure of that model -- followed by
    the line of the total and the line of the combined file.  A model has
    a line of success exactly when it is a key of the returned result set,
    and the total printed is the number of lines of success. *)
Theorem console_of_returning_run E w w' extracted :
  extract_schemas E w = (w', Ok extracted) →
  ∃ lines,
    console w'
    = console w ++ lines ++ [Msg_total (length extracted); Msg_combined] ∧
    Forall2 (λ (nm : string * model) l,
               l = Msg_extracted nm.1 ∨ ∃ e, l = Msg_error nm.1 e)
            models lines ∧
    (∀ name, Msg_extracted name ∈ lines ↔ name ∈ dict_keys extracted) ∧
    length (filter (λ l, is_extracted_line l = true) lines)
    = length extracted.
Proof.
  intros Hrun.
  apply extract_schemas_returns in Hrun
    as (_ & -> & _ & _ & _ & _ & _ & Hcon).
  exists ((λ nm, report E nm.1 nm.2) <$> models).
  split; [exact Hcon|]. split; [apply report_lines_shape|].
  split; [intros name; apply extracted_line_iff|].
  apply extracted_lines_count.
Qed.

Lemma console_of_returning_run_witness :
  let w' := (extract_schemas env_person_fails empty_world).1 in
  let extracted := successes env_person_fails models in
  extract_schemas env_person_fails empty_world = (w', Ok extracted) ∧
  ∃ lines,
    console w'
    = console empty_world ++ lines
      ++ [Msg_total (length extracted); Msg_combined] ∧
    Forall2 (λ (nm : string * model) l,
               l = Msg_extracted nm.1 ∨ ∃ e, l = Msg_error nm.1 e)
            models lines ∧
    (∀ name, Msg_extracted name ∈ lines ↔ name ∈ dict_keys extracted) ∧
    length (filter (λ l, is_extracted_line l = true) lines)
    = length extracted.
Proof.
  assert (extract_schemas env_person_fails empty_world
          = ((extract_schemas env_person_fails empty_world).1,
             Ok (successes env_person_fails models))) as Hrun.
  { apply run_outcome. vm_compute. reflexivity. }
  split; [exact Hrun|].
  exact (console_of_returning_run env_person_fails empty_world
           (extract_schemas env_person_fails empty_world).1
           (successes env_person_fails models) Hrun).
Defined.


Lemma script_completes E w :
  Msg_complete ∉ console w →
  (Msg_complete ∈ console (script E w).1 ∧ (script E w).2 = exit_code E 0) ∨
  ((Msg_complete ∉ console (script E w).1) ∧
   (script E w).2 = exit_code E 1).
Proof.
  intros Hw. destruct (import_error E) as [e|] eqn:Himp.
  - right. unfold script. rewrite Himp.
    unfold mbind, st_bind, print, traceback. cbn [printable].
    destruct (stdout_text E (Msg_import_error e)); cbn [fst snd console];
      (split; [|done]);
      rewrite !elem_of_app, !list_elem_of_singleton; naive_solver.
  - rewrite (script_imported _ _ Himp). cbv zeta.
    destruct (run_console E models models_schema_files_NoDup
                models_files_distinct
                {| files := files w;
                   console := (console w ++ [Msg_imported])
                              ++ [Msg_extracting] |})
      as (lines & Hcon & Hlines).
    fold (extract_schemas E) in Hcon.
    destruct (extract_schemas E _) as [w3 [ex|e]]; cbn [fst snd console] in *.
    + left. split; [|done]. rewrite elem_of_app, list_elem_of_singleton.
      by right.
    + right. split; [|done]. rewrite Hcon.
      rewrite !elem_of_app, !list_elem_of_singleton. naive_solver.
Qed.

(** X13.  The line of completion is printed exactly by the runs in which no
    exception leaves the script: a run stopped by the import, by the
    creation of the directory, by a print or by one of the two final
    writes never prints it, and no step of [extract_schemas] prints it.
    So a run that printed it exits with the status 0, or with the status
    120 when the flush of stdout at the exit fails; when that flush
    succeeds, the line is printed exactly by the runs that exit with the
    status 0; and every run that exits with the status 0 has printed
    it. *)
Theorem completion_line_iff_status_zero E w :
  Msg_complete ∉ console w →
  (Msg_complete ∈ console (script E w).1 →
   (script E w).2 = 0%Z ∨ (script E w).2 = 120%Z) ∧
  (stdout_flush E = Ok () →
   (Msg_complete ∈ console (script E w).1 ↔ (script E w).2 = 0%Z)) ∧
  ((script E w).2 = 0%Z → Msg_complete ∈ console (script E w).1).
Proof.
  intros Hw. unfold exit_code in *.
  destruct (script_completes E w Hw) as [[Hin ->]|[Hout ->]];
    unfold exit_code; destruct (stdout_flush E) as [[]|e]; naive_solver.
Qed.

Lemma completion_line_iff_status_zero_witness :
  (Msg_complete ∉ console empty_world) ∧
  stdout_flush env_person_fails = Ok () ∧
  Msg_complete ∈ console (script env_person_fails empty_world).1 ∧
  (script env_person_fails empty_world).2 = 0%Z ∧
  stdout_flush env_no_directory = Ok () ∧
  (Msg_complete ∉ console (script env_no_directory empty_world).1) ∧
  (script env_no_directory empty_world).2 = 1%Z ∧
  Msg_complete ∈ console (script env_full_device empty_world).1 ∧
  (script env_full_device empty_world).2 = 120%Z.
Proof.
  assert (Msg_complete ∉ console empty_world) as Hw.
  { apply not_elem_of_nil. }
  destruct (completion_line_iff_status_zero env_person_fails empty_world Hw)
    as (_ & Hiff & Hzero).
  destruct (completion_line_iff_status_zero env_no_directory empty_world Hw)
    as (_ & Hiff' & _).
  destruct (completion_line_iff_status_zero env_full_device empty_world Hw)
    as (Hdone & _ & _).
  assert ((script env_person_fails empty_world).2 = 0%Z) as Hs0.
  { vm_compute. reflexivity. }
  assert ((script env_no_directory empty_world).2 = 1%Z) as Hs1.
  { vm_compute. reflexivity. }
  assert (Msg_complete ∈ console (script env_full_device empty_world).1)
    as Hin.
  { apply list_elem_of_In. vm_compute.
    repeat (first [left; reflexivity | right]). }
  split; [exact Hw|]. split; [reflexivity|].
  split; [exact (Hzero Hs0)|]. split; [exact Hs0|].
  split; [reflexivity|]. split.
  - intros Hc. apply (Hiff' eq_refl) in Hc. rewrite Hs1 in Hc. discriminate.
  - split; [exact Hs1|]. split; [exact Hin|].
    destruct (Hdone Hin) as [H|H]; [|exact H].
    exfalso. revert H. vm_compute. discriminate.
Defined.

(** * Runs that stop after the loop *)

Lemma partial_output_of E ms w e :
  NoDup ((λ nm : string * model, schema_file nm.1) <$> ms) →
  Forall (λ nm : string * model,
            schema_file nm.1 ≠ combined_file ∧
            schema_file nm.1 ≠ summary_file) ms →
  mkdir E = Ok () →
  (∀ nm, nm ∈ ms → printable E (report E nm.1 nm.2) = true) →
  dump E combined_file (JObj (successes E ms)) = Not_opened e ∨
  dump E combined_file (JObj (successes E ms)) = Interrupted e →
  (extract_schemas_of E ms w).2 = Raise e ∧
  files (extract_schemas_of E ms w).1 !! summary_file
  = files w !! summary_file ∧
  (∀ name m x, (name, m) ∈ ms → attempt E name m = Ok x →
     files (extract_schemas_of E ms w).1 !! schema_file name
     = Some (Document x)) ∧
  console (extract_schemas_of E ms w).1
  = console w ++ ((λ nm, report E nm.1 nm.2) <$> ms).
Proof.
  intros Hnd Hdist Hmk Hall%loop_completes_spec Hdump.
  rewrite extract_schemas_of_unfold, Hmk, Hall. cbv zeta.
  rewrite (loop_dict_successes E ms (names_NoDup ms Hnd) Hall).
  rewrite (loop_lines_complete E ms Hall), after_loop_run.
  assert (loop_files E ms (files w) !! summary_file
          = files w !! summary_file) as Hsum.
  { apply loop_files_frame. intros nm Hnm.
    by destruct (proj1 (Forall_forall _ _) Hdist nm Hnm). }
  assert (∀ name m x, (name, m) ∈ ms → attempt E name m = Ok x →
            loop_files E ms (files w) !! schema_file name
            = Some (Document x)) as Hdocs.
  { intros name m x Hin Ha.
    pose proof (loop_files_lookup E ms Hnd (files w) (name, m) Hin) as Hfile.
    cbn [fst snd] in Hfile.
    rewrite Hfile, (entered_complete E ms Hall), decide_True by done.
    by rewrite (attempt_file_effect _ _ _ _ Ha). }
  destruct Hdump as [-> | ->]; cbn [fst snd files console].
  - done.
  - split; [done|]. split; [|split; [|done]].
    + by rewrite lookup_insert_ne.
    + intros name m x Hin Ha. rewrite lookup_insert_ne; [by eapply Hdocs|].
      intros Heq.
      by destruct (proj1 (Forall_forall _ _) Hdist (name, m) Hin) as [[] _].
Qed.

(** X14.  When the directory exists, stdout takes the lines of the loop,
    and all_schemas.json cannot be written (it cannot be opened, or its
    write breaks off), the run ends with that exception after the loop
    has done all its work: every model has its line on the console and
    every successful model its individual file on disk, no line of total
    is printed, and schema_summary.json is left as it was before the
    run. *)
Theorem failed_combined_write_leaves_partial_output E w e :
  mkdir E = Ok () →
  (∀ nm, nm ∈ models → printable E (report E nm.1 nm.2) = true) →
  dump E combined_file (JObj (successes E models)) = Not_opened e ∨
  dump E combined_file (JObj (successes E models)) = Interrupted e →
  (extract_schemas E w).2 = Raise e ∧
  files (extract_schemas E w).1 !! summary_file = files w !! summary_file ∧
  (∀ name m x, (name, m) ∈ models → attempt E name m = Ok x →
     files (extract_schemas E w).1 !! schema_file name
     = Some (Document x)) ∧
  console (extract_schemas E w).1
  = console w ++ ((λ nm, report E nm.1 nm.2) <$> models).
Proof.
  intros Hmk Hall Hdump. unfold extract_schemas.
  exact (partial_output_of E models w e models_schema_files_NoDup
           models_files_distinct Hmk Hall Hdump).
Qed.

Lemma failed_combined_write_leaves_partial_output_witness :
  let E := env_no_combined in
  let e := OSError "Permission denied" in
  mkdir E = Ok () ∧
  (∀ nm, nm ∈ models → printable E (report E nm.1 nm.2) = true) ∧
  dump E combined_file (JObj (successes E models)) = Not_opened e ∧
  (extract_schemas E empty_world).2 = Raise e ∧
  files (extract_schemas E empty_world).1 !! summary_file = None ∧
  files (extract_schemas E empty_world).1 !! schema_file "Dandiset"
  = Some (Document (JObj [("title", JStr "T")])).
Proof.
  assert (("Dandiset", Dandiset) ∈ models) as Hin.
  { left. }
  assert (∀ nm, nm ∈ models →
            printable env_no_combined (report env_no_combined nm.1 nm.2)
            = true) as Hprint.
  { intros nm _. by destruct (report env_no_combined nm.1 nm.2). }
  split; [reflexivity|]. split; [exact Hprint|]. split; [reflexivity|].
  destruct (failed_combined_write_leaves_partial_output env_no_combined
              empty_world (OSError "Permission denied") eq_refl Hprint
              (or_introl eq_refl)) as (H1 & H2 & H3 & _).
  split; [exact H1|]. split; [exact H2|].
  exact (H3 "Dandiset" Dandiset (JObj [("title", JStr "T")]) Hin eq_refl).
Defined.

(** * The schemas a run returns *)

(** X15.  Every schema in the result set of a run that returns -- and so
    every schema of all_schemas.json -- is settled: no mapping that the
    transform visits in it holds a pattern longer than 50 or an anyOf
    longer than 5, and running the transform on it again returns it
    unchanged. *)
Theorem extracted_schemas_are_settled E w w' extracted name x :
  extract_schemas E w = (w', Ok extracted) →
  (name, x) ∈ extracted →
  settled x = true ∧ simplify_schema_for_llm x = Ok x.
Proof.
  intros Hrun Hin.
  apply extract_schemas_returns in Hrun as (_ & -> & _).
  apply successes_elem in Hin as (m & _ & Ha).
  apply attempt_simplified in Ha as (schema & _ & Hs).
  apply simplify_fixed in Hs. split; [|exact Hs].
  by apply (fixed_settled_aux (size x)).
Qed.

Lemma extracted_schemas_are_settled_witness :
  let w' := (extract_schemas env_person_fails empty_world).1 in
  let extracted := successes env_person_fails models in
  extract_schemas env_person_fails empty_world = (w', Ok extracted) ∧
  ("Dandiset", JObj [("title", JStr "T")]) ∈ extracted ∧
  settled (JObj [("title", JStr "T")]) = true ∧
  simplify_schema_for_llm (JObj [("title", JStr "T")])
  = Ok (JObj [("title", JStr "T")]).
Proof.
  assert (extract_schemas env_person_fails empty_world
          = ((extract_schemas env_person_fails empty_world).1,
             Ok (successes env_person_fails models))) as Hrun.
  { apply run_outcome. vm_compute. reflexivity. }
  assert (("Dandiset", JObj [("title", JStr "T")])
          ∈ successes env_person_fails models) as Hin.
  { apply successes_elem. exists Dandiset. split; [left | reflexivity]. }
  split; [exact Hrun|]. split; [exact Hin|].
  exact (extracted_schemas_are_settled env_person_fails empty_world
           (extract_schemas env_person_fails empty_world).1
           (successes env_person_fails models)
           "Dandiset" (JObj [("title", JStr "T")]) Hrun Hin).
Defined.


(** * Writes that break off *)

Lemma NoDup_fst_agree {A B} (l : list (A * B)) k v1 v2 :
  NoDup l.*1 → (k, v1) ∈ l → (k, v2) ∈ l → v1 = v2.
Proof.
  induction l as [|[k' v'] l IH]; intros Hnd H1 H2.
  - by apply elem_of_nil in H1.
  - rewrite fmap_cons in Hnd. apply NoDup_cons in Hnd as [Hnot Hnd].
    apply elem_of_cons in H1 as [H1|H1]; apply elem_of_cons in H2 as [H2|H2].
    + congruence.
    + injection H1 as -> ->. destruct Hnot.
      by apply (list_elem_of_fmap_2 fst) in H2.
    + injection H2 as -> ->. destruct Hnot.
      by apply (list_elem_of_fmap_2 fst) in H1.
    + by apply IH.
Qed.


Lemma interrupted_write_of E ms w name m x e :
  NoDup ((λ nm : string * model, schema_file nm.1) <$> ms) →
  Forall (λ nm : string * model,
            schema_file nm.1 ≠ combined_file ∧
            schema_file nm.1 ≠ summary_file) ms →
  (name, m) ∈ ms → mkdir E = Ok () →
  (∀ nm, nm ∈ ms → printable E (report E nm.1 nm.2) = true) →
  model_json_schema E m ≫= simplify_schema_for_llm = Ok x →
  dump E (schema_file name) x = Interrupted e →
  files (extract_schemas_of E ms w).1 !! schema_file name = Some Unfinished ∧
  (name ∉ dict_keys (successes E ms)) ∧
  Msg_error name e ∈ console (extract_schemas_of E ms w).1.
Proof.
  intros Hnd Hdist Hin Hmk Hall Hx Hdump.
  destruct (attempt_interrupted E name m x e Hx Hdump) as [Ha Hf].
  split; [|split].
  - pose proof (run_model_file E ms Hnd Hdist w (name, m) Hin) as Hfile.
    cbn [fst snd] in Hfile. rewrite Hfile, Hmk, Hf.
    rewrite (entered_complete E ms (proj2 (loop_completes_spec E ms) Hall)).
    by rewrite decide_True.
  - rewrite successes_keys. intros (m' & Hin' & [y Hy]).
    assert (m' = m) as ->.
    { eapply NoDup_fst_agree; [|exact Hin'|exact Hin]. by apply names_NoDup. }
    congruence.
  - pose proof (extract_schemas_of_reports E ms w name m Hmk Hall Hin) as Hrep.
    unfold report in Hrep. by rewrite Ha in Hrep.
Qed.

(** X16.  When the write of the individual file of a model breaks off after
    the file was opened, and stdout takes the lines of the loop, the
    exception is caught like any other failure of that model, and the
    truncated file stays on disk: the run goes on, the model has its line
    of failure and is no key of the result set, so that neither
    all_schemas.json nor the summary mentions the file. *)
Theorem interrupted_write_leaves_unfinished_file E w name m x e :
  (name, m) ∈ models → mkdir E = Ok () →
  (∀ nm, nm ∈ models → printable E (report E nm.1 nm.2) = true) →
  model_json_schema E m ≫= simplify_schema_for_llm = Ok x →
  dump E (schema_file name) x = Interrupted e →
  files (extract_schemas E w).1 !! schema_file name = Some Unfinished ∧
  (name ∉ dict_keys (successes E models)) ∧
  Msg_error name e ∈ console (extract_schemas E w).1.
Proof.
  intros Hin Hmk Hall Hx Hdump. unfold extract_schemas.
  exact (interrupted_write_of E models w name m x e models_schema_files_NoDup
           models_files_distinct Hin Hmk Hall Hx Hdump).
Qed.

Lemma interrupted_write_leaves_unfinished_file_witness :
  let E := env_person_interrupted in
  let e := OSError "No space left on device" in
  ("Person", Person) ∈ models ∧
  mkdir E = Ok () ∧
  (∀ nm, nm ∈ models → printable E (report E nm.1 nm.2) = true) ∧
  model_json_schema E Person ≫= simplify_schema_for_llm
  = Ok (JObj [("title", JStr "T")]) ∧
  dump E (schema_file "Person") (JObj [("title", JStr "T")]) = Interrupted e ∧
  files (extract_schemas E empty_world).1 !! schema_file "Person"
  = Some Unfinished ∧
  ("Person" ∉ dict_keys (successes E models)) ∧
  Msg_error "Person" e ∈ console (extract_schemas E empty_world).1.
Proof.
  assert (("Person", Person) ∈ models) as Hin.
  { right. left. }
  assert (∀ nm, nm ∈ models →
            printable env_person_interrupted
              (report env_person_interrupted nm.1 nm.2) = true) as Hprint.
  { intros nm _. by destruct (report env_person_interrupted nm.1 nm.2). }
  split; [exact Hin|]. split; [reflexivity|]. split; [exact Hprint|].
  split; [reflexivity|]. split; [reflexivity|].
  exact (interrupted_write_leaves_unfinished_file env_person_interrupted
           empty_world "Person" Person (JObj [("title", JStr "T")])
           (OSError "No space left on device") Hin eq_refl Hprint
           eq_refl eq_refl).
Defined.

(** * The files of a run in an empty directory *)

Lemma successes_files_NoDup E ms :
  NoDup ((λ nm : string * model, schema_file nm.1) <$> ms) →
  NoDup (schema_file <$> dict_keys (successes E ms)).
Proof.
  intros Hnd. eapply sublist_NoDup;
    [|apply (fmap_sublist schema_file), successes_keys_sublist].
  by rewrite <- list_fmap_compose.
Qed.


Lemma fresh_run_files_of E ms w w' extracted :
  NoDup ((λ nm : string * model, schema_file nm.1) <$> ms) →
  Forall (λ nm : string * model,
            schema_file nm.1 ≠ combined_file ∧
            schema_file nm.1 ≠ summary_file) ms →
  extract_schemas_of E ms w = (w', Ok extracted) →
  files w = ∅ →
  (∀ name m, (name, m) ∈ ms → file_effect E name m ≠ Some Unfinished) →
  (∀ f, is_Some (files w' !! f) ↔
        f = combined_file ∨ f = summary_file ∨
        ∃ name, name ∈ dict_keys extracted ∧ f = schema_file name) ∧
  base.size (files w') = length extracted + 2.
Proof.
  intros Hnd Hdist Hrun Hempty Hno.
  assert (w' = (extract_schemas_of E ms w).1) as Hw' by by rewrite Hrun.
  assert (entered E ms = ms) as Hentered.
  { apply entered_complete, loop_completes_spec.
    assert (∃ w' extracted, extract_schemas_of E ms w = (w', Ok extracted))
      as H by by eexists _, _.
    by apply (extract_schemas_of_returns_iff E ms Hnd) in H as (_ & Hall & _). }
  apply (extract_schemas_of_returns E ms Hnd Hdist) in Hrun
    as (Hmk & -> & _ & _ & Hc & Hs & Hdocs & _).
  assert (∀ f, is_Some (files w' !! f) ↔
               f = combined_file ∨ f = summary_file ∨
               ∃ name, name ∈ dict_keys (successes E ms) ∧
                       f = schema_file name) as Hchar.
  { intros f. split.
    - intros Hsome.
      destruct (decide (f = combined_file)) as [|Hc']; [by left|].
      destruct (decide (f = summary_file)) as [|Hs']; [by right; left|].
      right; right.
      destruct (decide (f ∈ (λ nm : string * model, schema_file nm.1) <$> ms))
        as [Hin|Hout].
      + apply list_elem_of_fmap in Hin as ([name m] & -> & Hnm).
        cbn [fst] in *.
        pose proof (run_model_file E ms Hnd Hdist w (name, m) Hnm) as Hfile.
        cbn [fst snd] in Hfile.
        rewrite <- Hw', Hmk, Hentered, decide_True in Hfile by done.
        destruct (file_effect E name m) as [[x|]|] eqn:Hfe.
        * exists name. split; [|done]. apply successes_keys. exists m.
          split; [done|]. exists x. by apply file_effect_attempt.
        * by destruct (Hno name m Hnm).
        * rewrite Hfile, Hempty, lookup_empty in Hsome. by destruct Hsome.
      + rewrite Hw', (run_frame E ms), Hempty, lookup_empty in Hsome;
          [by destruct Hsome | | done..].
        intros nm Hnm Heq. apply Hout. rewrite <- Heq.
        by apply (list_elem_of_fmap_2 (λ nm, schema_file nm.1)).
    - intros [->|[->|(name & Hname & ->)]];
        [by rewrite Hc | by rewrite Hs |].
      apply successes_keys in Hname as (m & Hin & [x Hx]).
      by rewrite (Hdocs name m x Hin Hx). }
  split; [exact Hchar|].
  assert (∀ name, name ∈ dict_keys (successes E ms) →
                  schema_file name ≠ combined_file ∧
                  schema_file name ≠ summary_file) as Hne.
  { intros name (m & Hin & _)%successes_keys.
    exact (proj1 (Forall_forall _ _) Hdist (name, m) Hin). }
  assert (dom (files w')
          = ({[combined_file]} ∪
             ({[summary_file]} ∪
              list_to_set (schema_file <$> dict_keys (successes E ms)))
             : gset string)) as Hdom.
  { apply set_eq. intros f.
    rewrite elem_of_dom, Hchar, !elem_of_union, !elem_of_singleton,
      elem_of_list_to_set, list_elem_of_fmap.
    naive_solver. }
  rewrite <- (size_dom (D := gset string)), Hdom.
  rewrite size_union, size_singleton, size_union, size_singleton,
    size_list_to_set.
  - unfold dict_keys. rewrite !length_fmap. lia.
  - by apply successes_files_NoDup.
  - apply disjoint_singleton_l.
    rewrite elem_of_list_to_set, list_elem_of_fmap.
    intros (name & Heq & Hin). destruct (Hne name Hin) as [_ H]. congruence.
  - apply disjoint_singleton_l.
    rewrite elem_of_union, elem_of_singleton, elem_of_list_to_set,
      list_elem_of_fmap.
    intros [Heq | (name & Heq & Hin)]; [done|].
    destruct (Hne name Hin) as [H _]. congruence.
Qed.

(** X17.  A run that returns in an empty directory, none of whose
    individual writes breaks off, leaves exactly N + 2 files there, N being
    the number of keys of the result set: all_schemas.json,
    schema_summary.json and one individual file for each key, and no file
    for a model that failed. *)
Theorem fresh_run_writes_N_plus_2_files E w w' extracted :
  extract_schemas E w = (w', Ok extracted) →
  files w = ∅ →
  (∀ name m, (name, m) ∈ models → file_effect E name m ≠ Some Unfinished) →
  (∀ f, is_Some (files w' !! f) ↔
        f = combined_file ∨ f = summary_file ∨
        ∃ name, name ∈ dict_keys extracted ∧ f = schema_file name) ∧
  base.size (files w') = length extracted + 2.
Proof.
  intros Hrun Hempty Hno. unfold extract_schemas in Hrun.
  exact (fresh_run_files_of E models w w' extracted models_schema_files_NoDup
           models_files_distinct Hrun Hempty Hno).
Qed.

Lemma fresh_run_writes_N_plus_2_files_witness :
  let E := env_person_fails in
  let w' := (extract_schemas E empty_world).1 in
  let extracted := successes E models in
  extract_schemas E empty_world = (w', Ok extracted) ∧
  files empty_world = ∅ ∧
  (∀ name m, (name, m) ∈ models → file_effect E name m ≠ Some Unfinished) ∧
  length extracted = 17 ∧
  base.size (files w') = length extracted + 2.
Proof.
  assert (extract_schemas env_person_fails empty_world
          = ((extract_schemas env_person_fails empty_world).1,
             Ok (successes env_person_fails models))) as Hrun.
  { apply run_outcome. vm_compute. reflexivity. }
  assert (∀ name m, (name, m) ∈ models →
            file_effect env_person_fails name m ≠ Some Unfinished) as Hno.
  { intros name m _. unfold file_effect.
    destruct (model_json_schema env_person_fails m ≫= simplify_schema_for_llm);
      discriminate. }
  split; [exact Hrun|]. split; [reflexivity|]. split; [exact Hno|].
  split; [vm_compute; reflexivity|].
  exact (proj2 (fresh_run_writes_N_plus_2_files env_person_fails empty_world
                  (extract_schemas env_person_fails empty_world).1
                  (successes env_person_fails models) Hrun eq_refl Hno)).
Defined.


(** * A stdout without the marks *)

Lemma no_check_no_turn E nm :
  has_check (stdout_marks E) = false → turn_passes E nm = false.
Proof.
  unfold turn_passes, report, printable. intros Hno.
  destruct (attempt E nm.1 nm.2); [done|].
  by destruct (stdout_marks E).
Qed.

Lemma first_turn_stops E nm ms w :
  mkdir E = Ok () → turn_passes E nm = false →
  (extract_schemas_of E (nm :: ms) w).2 = Raise UnicodeEncodeError ∧
  console (extract_schemas_of E (nm :: ms) w).1 = console w ∧
  (∀ f, f ≠ schema_file nm.1 →
        files (extract_schemas_of E (nm :: ms) w).1 !! f = files w !! f).
Proof.
  intros Hmk Hno. rewrite extract_schemas_of_unfold, Hmk. cbv zeta.
  cbn [loop_completes forallb loop_files loop_lines]. rewrite Hno.
  cbn [andb fst snd files console]. split; [done|].
  split; [by rewrite app_nil_r|]. intros f Hf.
  destruct (file_effect E nm.1 nm.2); [|done]. by rewrite lookup_insert_ne.
Qed.

(** X18.  On a stdout whose encoding has no U+2713 (cp1252, latin-1, ascii)
    a run that gets past the creation of the directory ends in the turn
    of the first model, Dandiset, whatever the exports do: neither the
    line of success nor the line of failure can be printed, so the except
    clause raises UnicodeEncodeError itself.  Nothing is printed, and no
    file but dandiset.schema.json is touched: no other individual file,
    no all_schemas.json, no summary. *)
Theorem stdout_without_marks_stops_first_turn E w :
  mkdir E = Ok () → has_check (stdout_marks E) = false →
  (extract_schemas E w).2 = Raise UnicodeEncodeError ∧
  console (extract_schemas E w).1 = console w ∧
  (∀ f, f ≠ "dandiset.schema.json" →
        files (extract_schemas E w).1 !! f = files w !! f).
Proof.
  intros Hmk Hno.
  exact (first_turn_stops E ("Dandiset", Dandiset) _ w Hmk
           (no_check_no_turn E _ Hno)).
Qed.

Lemma stdout_without_marks_stops_first_turn_witness :
  mkdir env_cp1252 = Ok () ∧
  has_check (stdout_marks env_cp1252) = false ∧
  (extract_schemas env_cp1252 empty_world).2 = Raise UnicodeEncodeError ∧
  console (extract_schemas env_cp1252 empty_world).1 = [] ∧
  files (extract_schemas env_cp1252 empty_world).1 !! "dandiset.schema.json"
  = Some (Document (JObj [("title", JStr "T")])) ∧
  files (extract_schemas env_cp1252 empty_world).1 !! "person.schema.json"
  = None ∧
  files (extract_schemas env_cp1252 empty_world).1 !! combined_file = None.
Proof.
  destruct (stdout_without_marks_stops_first_turn env_cp1252 empty_world
              eq_refl eq_refl) as (H1 & H2 & H3).
  split; [reflexivity|]. split; [reflexivity|]. split; [exact H1|].
  split; [exact H2|]. split; [vm_compute; reflexivity|].
  split; [rewrite H3; [reflexivity | discriminate]|].
  rewrite H3; [reflexivity | discriminate].
Defined.
